(** * ArchiveBuilder: a shallow embedding of src/hotspot/share/cds/archiveBuilder.cpp

    The development follows the source file top to bottom: the per-region
    list of source objects and its pointer bitmap, the gathering of the
    metadata graph (follow modes, the source-object table), the placement of
    the output buffer, the capacity checks, and the two relocation passes.

    Conventions.
    - An [address], a [uintx] and a [size_t] are 64-bit: they are numbers of
      [Z] kept in [0, 2^64) with the wrap-around written out ([wrap]); an
      [intx] is read back from such a number with [as_intx], an [int] with
      [as_int].
    - [assert(c, msg, ...)] is modelled as it behaves in a build that
      compiles assertions in (ASSERT): a failing assertion ends the run with
      [AssertFailed msg args].  [MetaspaceShared::unrecoverable_writing_error]
      ends the run with [UnrecoverableWritingError], carrying the [log_error]
      lines printed before it.
    - The source-object table owns the [SourceObjInfo] records; the per-region
      lists hold pointers to them.  A pointer to a table entry is modelled by
      the key of the entry (the source address), so that an update made
      through the pointer is an update of the table entry. *)

From Stdlib Require Import ZArith Lia Bool List.
From stdpp Require Import base gmap list strings sorting.

Local Open Scope Z_scope.

(** ** Machine words *)

Abbreviation address := Z (only parsing).

Definition wrap (x : Z) : Z := x mod 2 ^ 64.

(** The value of a 64-bit pattern read as a signed [intx]. *)
Definition as_intx (x : Z) : Z := (x + 2 ^ 63) mod 2 ^ 64 - 2 ^ 63.

(** The value of [int(x)]: the low 32 bits read as a signed [int]. *)
Definition as_int (x : Z) : Z := (x + 2 ^ 31) mod 2 ^ 32 - 2 ^ 31.

Definition BytesPerWord : Z := 8.
Definition sizeof_address : Z := 8.
Definition SharedSpaceObjectAlignment : Z := 8.

(** The helpers of utilities/align.hpp (not part of this file), for an
    alignment that is a power of two: [alignment_mask a = a - 1],
    [align_down x a = x & ~mask], [align_up x a = align_down (x + mask) a],
    [is_aligned x a = (x & mask) == 0]. *)
Definition alignment_mask (alignment : Z) : Z := alignment - 1.

Definition align_down (x alignment : Z) : Z :=
  Z.land x (Z.lnot (alignment_mask alignment)).

Definition align_up (x alignment : Z) : Z :=
  align_down (wrap (x + alignment_mask alignment)) alignment.

Definition is_aligned (x alignment : Z) : bool :=
  Z.land x (alignment_mask alignment) =? 0.

(** ** Failures and the error monad *)

Inductive failure : Type :=
| AssertFailed (msg : string) (args : list Z)
| UnrecoverableWritingError (log : list (string * list Z)).

Inductive result (A : Type) : Type :=
| Ok (a : A)
| Fatal (f : failure).

Arguments Ok {A} a.
Arguments Fatal {A} f.

#[global] Instance result_ret : MRet result := fun A a => Ok a.

#[global] Instance result_bind : MBind result := fun A B k r =>
  match r with
  | Ok a => k a
  | Fatal f => Fatal f
  end.

(** [assert(c, msg, args...)] *)
Definition assert (c : bool) (msg : string) (args : list Z) : result unit :=
  if c then Ok tt else Fatal (AssertFailed msg args).

Definition is_ok {A : Type} (r : result A) : bool :=
  match r with Ok _ => true | Fatal _ => false end.

(** ** BitMap *)

(** Modelled from the spec: [BitMap] is defined in utilities/bitMap.hpp, which
    is not part of this file.  Only the operations the builder calls are
    modelled: a bitmap has a logical [size] in bits and its bits, bit [i] of
    the bitmap being bit [i] of [bits]; a bit is set or cleared by its index;
    [resize] changes the logical size. *)
Module BitMap.

Record t : Type := mk { size : Z; bits : Z }.

Definition make (size_in_bits : Z) : t := mk size_in_bits 0.

Definition at_ (m : t) (idx : Z) : bool := Z.testbit (bits m) idx.

Definition set_bit (m : t) (idx : Z) : t := mk (size m) (Z.setbit (bits m) idx).

Definition clear_bit (m : t) (idx : Z) : t := mk (size m) (Z.clearbit (bits m) idx).

(** [resize] keeps the bits below the new size; bits gained are clear. *)
Definition resize (m : t) (new_size : Z) : t :=
  mk new_size (Z.land (bits m) (Z.ones new_size)).

(** The indices [beg, beg+1, ..., end-1], in the order [iterate] visits them. *)
Definition range (beg end_ : Z) : list Z :=
  map (fun i => beg + Z.of_nat i) (seq 0 (Z.to_nat (end_ - beg))).

(** The highest set bit, if any bit is set (for bits that are not negative:
    see [highest_set_bit_spec]). *)
Definition highest_set_bit (m : t) : option Z :=
  if bits m =? 0 then None else Some (Z.log2 (bits m)).

End BitMap.

(** ** Metadata kinds, references and follow modes *)

(** [MetaspaceObj::Type]; the kinds the builder does not tell apart are
    [OtherType]. *)
Inductive MetaspaceObjType : Type :=
| ClassType
| SymbolType
| MethodType
| ConstMethodType
| MethodDataType
| MethodCountersType
| ConstantPoolType
| ConstantPoolCacheType
| OtherType.

Definition msotype_eqb (a b : MetaspaceObjType) : bool :=
  match a, b with
  | ClassType, ClassType | SymbolType, SymbolType | MethodType, MethodType
  | ConstMethodType, ConstMethodType | MethodDataType, MethodDataType
  | MethodCountersType, MethodCountersType | ConstantPoolType, ConstantPoolType
  | ConstantPoolCacheType, ConstantPoolCacheType | OtherType, OtherType => true
  | _, _ => false
  end.

(** [ArchiveBuilder::FollowMode] *)
Inductive FollowMode : Type := make_a_copy | point_to_it | set_to_null.

Definition FollowMode_eqb (a b : FollowMode) : bool :=
  match a, b with
  | make_a_copy, make_a_copy | point_to_it, point_to_it | set_to_null, set_to_null => true
  | _, _ => false
  end.

(** [MetaspaceClosure::Ref]: what the walker hands to the builder for one
    discovered reference.  [ref_addr] is the address of the pointer ([mpp()]),
    [ref_obj] the object it points to ([obj()], which is [*addr()]),
    [ref_enclosing_obj] the object holding the pointer (0 for a root),
    [ref_size] the size of the object in words. *)
Record Ref : Type := mkRef {
  ref_obj : address;
  ref_addr : address;
  ref_enclosing_obj : address;
  ref_msotype : MetaspaceObjType;
  ref_size : Z
}.

(** How a [Klass] looks to [is_excluded]. *)
Inductive KlassKind : Type :=
| InstanceKlass
| ObjArrayKlass (bottom_klass : address)
| OtherKlass.

(** The collaborators of the builder that live in other files: they are
    consulted, never defined, by archiveBuilder.cpp. *)
Record VM : Type := mkVM {
  DumpSharedSpaces : bool;
  DynamicDumpSharedSpaces : bool;
  (* MetaspaceShared *)
  is_in_shared_metaspace : address -> bool;
  requested_base_address : address;
  core_region_alignment : Z;
  shared_metaspace_base : address;
  shared_metaspace_top : address;
  (* Klass and SystemDictionaryShared *)
  klass_kind : address -> KlassKind;
  is_excluded_class : address -> bool;
  klass_name : address -> address;
  (* Symbol::fast_compare *)
  fast_compare : address -> address -> Z;
  (* RegeneratedClasses and Method *)
  has_been_regenerated : address -> bool;
  method_holder : address -> address;
  (* SymbolTable and SystemDictionaryShared estimates *)
  symbol_table_estimate : Z;
  dictionary_estimate : Z;
  total_dump_regions : Z;
  (* ReservedSpace: the base the OS gave for a request, if any *)
  reserve_space : Z -> option address;
  (* the live process: the word stored at a source address *)
  source_word : address -> Z;
  (* CppVtables::get_archived_vtable, 0 for none *)
  get_archived_vtable : MetaspaceObjType -> address -> address;
  (* Symbol::is_permanent and os::next_random *)
  is_permanent : address -> bool;
  os_next_random : Z -> Z;
  (* RegeneratedClasses: the pairs (original, regenerated) it has recorded *)
  regenerated_objects : list (address * address)
}.

Section FollowModes.

Context (vm : VM).

(** [ArchiveBuilder::is_excluded] *)
Definition is_excluded (klass : address) : bool :=
  match klass_kind vm klass with
  | InstanceKlass => is_excluded_class vm klass
  | ObjArrayKlass bottom =>
      if DynamicDumpSharedSpaces vm then true
      else
        match klass_kind vm bottom with
        | InstanceKlass => is_excluded_class vm bottom
        | _ => false
        end
  | OtherKlass => false
  end.

(** [ArchiveBuilder::get_follow_mode] *)
Definition get_follow_mode (ref : Ref) : FollowMode :=
  let obj := ref_obj ref in
  if is_in_shared_metaspace vm obj then point_to_it
  else if msotype_eqb (ref_msotype ref) MethodDataType
          || msotype_eqb (ref_msotype ref) MethodCountersType
  then set_to_null
  else
    if msotype_eqb (ref_msotype ref) ClassType && is_excluded (ref_obj ref)
    then set_to_null
    else make_a_copy.

End FollowModes.

(** ** SourceObjInfo *)

(** Modelled from the spec: the class [SourceObjInfo] is declared in
    archiveBuilder.hpp, which is not part of this file.  Its fields are those
    of the spec's [CapturedObject]: the byte size is fixed at capture time
    from the size of the reference (in words), a redirected object resolves to
    its pre-existing location, an elided one to null, and a copied one has no
    buffered address until the copy is made. *)
Module SourceObjInfo.

Record t : Type := mk {
  _ptrmap_start : Z;
  _ptrmap_end : Z;
  _read_only : bool;
  _follow_mode : FollowMode;
  _size_in_bytes : Z;
  _msotype : MetaspaceObjType;
  _source_addr : address;
  _buffered_addr : address
}.

(** [SourceObjInfo(ref, read_only, follow_mode)] *)
Definition of_ref (ref : Ref) (read_only : bool) (follow_mode : FollowMode) : t :=
  mk 0 0 read_only follow_mode (as_int (ref_size ref * BytesPerWord)) (ref_msotype ref)
     (ref_obj ref)
     (if FollowMode_eqb follow_mode point_to_it then ref_obj ref else 0).

(** [SourceObjInfo(src, regenerated_obj_info)]: the entry of an object that
    was replaced by a regenerated one resolves to wherever the regenerated
    object resolves (the comment of [record_regenerated_object]: all calls to
    [get_buffered_addr(orig_src_obj)] should return the same value as
    [get_buffered_addr(regen_src_obj)]). *)
Definition of_regenerated (src : address) (regenerated_obj_info : t) : t :=
  mk 0 0 false (_follow_mode regenerated_obj_info) 0 (_msotype regenerated_obj_info)
     src (_buffered_addr regenerated_obj_info).

Definition should_copy (i : t) : bool := FollowMode_eqb (_follow_mode i) make_a_copy.

Definition set_ptrmap_start (i : t) (v : Z) : t :=
  mk v (_ptrmap_end i) (_read_only i) (_follow_mode i) (_size_in_bytes i)
     (_msotype i) (_source_addr i) (_buffered_addr i).

Definition set_ptrmap_end (i : t) (v : Z) : t :=
  mk (_ptrmap_start i) v (_read_only i) (_follow_mode i) (_size_in_bytes i)
     (_msotype i) (_source_addr i) (_buffered_addr i).

Definition set_buffered_addr (i : t) (addr : address) : t :=
  mk (_ptrmap_start i) (_ptrmap_end i) (_read_only i) (_follow_mode i)
     (_size_in_bytes i) (_msotype i) (_source_addr i) addr.

End SourceObjInfo.

(** ** SourceObjList: the objects of one region and their pointer bitmap *)
Module SourceObjList.

Record t : Type := mk {
  _total_bytes : Z;
  _objs : list address;       (* pointers to entries of the source-object table *)
  _ptrmap : BitMap.t
}.

(** [SourceObjList::SourceObjList()]: [_ptrmap(16 * K)], no object, no byte. *)
Definition new : t := mk 0 [] (BitMap.make (16 * 1024)).

(** [SourceObjList::append].  It returns the list and the entry as the call
    leaves them: the entry is written through the pointer [src_info]. *)
Definition append (l : t) (src_info : SourceObjInfo.t)
  : result (t * SourceObjInfo.t) :=
  let objs := _objs l ++ [SourceObjInfo._source_addr src_info] in
  _ ← assert (is_aligned (_total_bytes l) sizeof_address) "must be" [];
  let src_info := SourceObjInfo.set_ptrmap_start src_info (_total_bytes l / sizeof_address) in
  let total_bytes :=
    align_up (wrap (_total_bytes l + wrap (SourceObjInfo._size_in_bytes src_info)))
             sizeof_address in
  let src_info := SourceObjInfo.set_ptrmap_end src_info (total_bytes / sizeof_address) in
  let bitmap_size_needed := SourceObjInfo._ptrmap_end src_info in
  let ptrmap :=
    if BitMap.size (_ptrmap l) <=? bitmap_size_needed
    then BitMap.resize (_ptrmap l) (wrap ((bitmap_size_needed + 1) * 2))
    else _ptrmap l in
  Ok (mk total_bytes objs ptrmap, src_info).

(** [SourceObjList::remember_embedded_pointer] *)
Definition remember_embedded_pointer (l : t) (src_info : SourceObjInfo.t) (ref : Ref)
  : result t :=
  let src_obj := SourceObjInfo._source_addr src_info in
  let field_addr := ref_addr ref in
  _ ← assert (SourceObjInfo._ptrmap_start src_info <? _total_bytes l) "sanity" [];
  _ ← assert (SourceObjInfo._ptrmap_end src_info <=? _total_bytes l) "sanity" [];
  _ ← assert (negb (ref_obj ref =? 0)) "should have checked" [];
  let field_offset_in_bytes := as_intx (field_addr - src_obj) in
  let src_obj_size := SourceObjInfo._size_in_bytes src_info in
  _ ← assert (0 <=? field_offset_in_bytes) "must be" [];
  _ ← assert (field_offset_in_bytes + 8 <=? src_obj_size) "must be" [];
  _ ← assert (is_aligned field_offset_in_bytes sizeof_address) "must be" [];
  let idx := wrap (SourceObjInfo._ptrmap_start src_info
                   + field_offset_in_bytes / sizeof_address) in
  Ok (mk (_total_bytes l) (_objs l) (BitMap.set_bit (_ptrmap l) idx)).

End SourceObjList.

(** ** DumpRegion *)

(** Modelled from the spec: [DumpRegion] is defined in archiveUtils.cpp, which
    is not part of this file.  It is the spec's bump allocator over a reserved
    span: [base], [top] (the next free byte) and the reserved end. *)
Module DumpRegion.

Record t : Type := mk {
  _name : string;
  _base : address;
  _top : address;
  _end : address;
  _is_packed : bool
}.

(** [DumpRegion(name, max_delta)].  The builder constructs both regions with
    the limit [MAX_SHARED_DELTA] on the offsets of the archive; the limit is
    enforced where the top grows, in archiveUtils.cpp, and is not modelled: a
    property that depends on it states the bound as a hypothesis. *)
Definition new (name : string) : t := mk name 0 0 0 false.

(** [init]: the region starts empty at the bottom of the reserved span. *)
Definition init (r : t) (rs_base rs_end : address) : t :=
  mk (_name r) rs_base rs_base rs_end false.

Definition set_top (r : t) (newtop : address) : t :=
  mk (_name r) (_base r) newtop (_end r) (_is_packed r).

(** [pack]: the top becomes the logical end of the region; the next region,
    if any, starts there and runs to the end of the reserved span. *)
Definition pack (r : t) : t :=
  mk (_name r) (_base r) (_top r) (_top r) true.

Definition start_after (next r : t) (rs_end : address) : t :=
  mk (_name next) (_end r) (_end r) rs_end false.

(** The line [print_out_of_space_msg] logs for this region when the region
    named [failing_region] could not supply [needed_bytes]. *)
Definition print_out_of_space_msg (r : t) (failing_region : string) (needed_bytes : Z)
  : string * list Z :=
  (_name r,
   [_base r; _top r; _end r - _base r; _top r - _base r]
     ++ (if String.eqb (_name r) failing_region then [needed_bytes] else [])).

End DumpRegion.

Inductive RegionId : Type := rw | ro.

(** ** The builder *)

(** The fields of [ArchiveBuilder] the modelled functions read or write,
    under their names, and [buffer]: the words stored in the output buffer,
    by byte address (a word never written reads as 0). *)

Record ArchiveBuilder : Type := mkArchiveBuilder {
  _current_dump_space : RegionId;
  _buffer_bottom : address;
  _last_verified_top : address;
  _num_dump_regions_used : Z;
  _other_region_used_bytes : Z;
  _requested_static_archive_bottom : address;
  _requested_static_archive_top : address;
  _requested_dynamic_archive_bottom : address;
  _requested_dynamic_archive_top : address;
  _mapped_static_archive_bottom : address;
  _mapped_static_archive_top : address;
  _buffer_to_requested_delta : Z;
  _rw_region : DumpRegion.t;
  _ro_region : DumpRegion.t;
  _ptrmap : BitMap.t;
  _rw_src_objs : SourceObjList.t;
  _ro_src_objs : SourceObjList.t;
  _src_obj_table : gmap address SourceObjInfo.t;
  _buffered_to_src_table : gmap address address;
  _klasses : list address;
  _symbols : list address;
  _estimated_metaspaceobj_bytes : Z;
  _estimated_hashtable_bytes : Z;
  buffer : gmap address Z
}.

Definition set_current_dump_space (b : ArchiveBuilder) (v : RegionId) : ArchiveBuilder :=
  mkArchiveBuilder
    v (_buffer_bottom b) (_last_verified_top b) (_num_dump_regions_used b)
    (_other_region_used_bytes b) (_requested_static_archive_bottom b)
    (_requested_static_archive_top b) (_requested_dynamic_archive_bottom b)
    (_requested_dynamic_archive_top b) (_mapped_static_archive_bottom b)
    (_mapped_static_archive_top b) (_buffer_to_requested_delta b) (_rw_region b)
    (_ro_region b) (_ptrmap b) (_rw_src_objs b) (_ro_src_objs b) (_src_obj_table b)
    (_buffered_to_src_table b) (_klasses b) (_symbols b) (_estimated_metaspaceobj_bytes
    b) (_estimated_hashtable_bytes b) (buffer b).

Definition set_last_verified_top (b : ArchiveBuilder) (v : address) : ArchiveBuilder :=
  mkArchiveBuilder
    (_current_dump_space b) (_buffer_bottom b) v (_num_dump_regions_used b)
    (_other_region_used_bytes b) (_requested_static_archive_bottom b)
    (_requested_static_archive_top b) (_requested_dynamic_archive_bottom b)
    (_requested_dynamic_archive_top b) (_mapped_static_archive_bottom b)
    (_mapped_static_archive_top b) (_buffer_to_requested_delta b) (_rw_region b)
    (_ro_region b) (_ptrmap b) (_rw_src_objs b) (_ro_src_objs b) (_src_obj_table b)
    (_buffered_to_src_table b) (_klasses b) (_symbols b) (_estimated_metaspaceobj_bytes
    b) (_estimated_hashtable_bytes b) (buffer b).

Definition set_num_dump_regions_used (b : ArchiveBuilder) (v : Z) : ArchiveBuilder :=
  mkArchiveBuilder
    (_current_dump_space b) (_buffer_bottom b) (_last_verified_top b) v
    (_other_region_used_bytes b) (_requested_static_archive_bottom b)
    (_requested_static_archive_top b) (_requested_dynamic_archive_bottom b)
    (_requested_dynamic_archive_top b) (_mapped_static_archive_bottom b)
    (_mapped_static_archive_top b) (_buffer_to_requested_delta b) (_rw_region b)
    (_ro_region b) (_ptrmap b) (_rw_src_objs b) (_ro_src_objs b) (_src_obj_table b)
    (_buffered_to_src_table b) (_klasses b) (_symbols b) (_estimated_metaspaceobj_bytes
    b) (_estimated_hashtable_bytes b) (buffer b).

Definition set_other_region_used_bytes (b : ArchiveBuilder) (v : Z) : ArchiveBuilder :=
  mkArchiveBuilder
    (_current_dump_space b) (_buffer_bottom b) (_last_verified_top b)
    (_num_dump_regions_used b) v (_requested_static_archive_bottom b)
    (_requested_static_archive_top b) (_requested_dynamic_archive_bottom b)
    (_requested_dynamic_archive_top b) (_mapped_static_archive_bottom b)
    (_mapped_static_archive_top b) (_buffer_to_requested_delta b) (_rw_region b)
    (_ro_region b) (_ptrmap b) (_rw_src_objs b) (_ro_src_objs b) (_src_obj_table b)
    (_buffered_to_src_table b) (_klasses b) (_symbols b) (_estimated_metaspaceobj_bytes
    b) (_estimated_hashtable_bytes b) (buffer b).

Definition set_requested_static_archive_top (b : ArchiveBuilder) (v : address) : ArchiveBuilder :=
  mkArchiveBuilder
    (_current_dump_space b) (_buffer_bottom b) (_last_verified_top b)
    (_num_dump_regions_used b) (_other_region_used_bytes b)
    (_requested_static_archive_bottom b) v (_requested_dynamic_archive_bottom b)
    (_requested_dynamic_archive_top b) (_mapped_static_archive_bottom b)
    (_mapped_static_archive_top b) (_buffer_to_requested_delta b) (_rw_region b)
    (_ro_region b) (_ptrmap b) (_rw_src_objs b) (_ro_src_objs b) (_src_obj_table b)
    (_buffered_to_src_table b) (_klasses b) (_symbols b) (_estimated_metaspaceobj_bytes
    b) (_estimated_hashtable_bytes b) (buffer b).

Definition set_requested_dynamic_archive_top (b : ArchiveBuilder) (v : address) : ArchiveBuilder :=
  mkArchiveBuilder
    (_current_dump_space b) (_buffer_bottom b) (_last_verified_top b)
    (_num_dump_regions_used b) (_other_region_used_bytes b)
    (_requested_static_archive_bottom b) (_requested_static_archive_top b)
    (_requested_dynamic_archive_bottom b) v (_mapped_static_archive_bottom b)
    (_mapped_static_archive_top b) (_buffer_to_requested_delta b) (_rw_region b)
    (_ro_region b) (_ptrmap b) (_rw_src_objs b) (_ro_src_objs b) (_src_obj_table b)
    (_buffered_to_src_table b) (_klasses b) (_symbols b) (_estimated_metaspaceobj_bytes
    b) (_estimated_hashtable_bytes b) (buffer b).

Definition set_rw_region (b : ArchiveBuilder) (v : DumpRegion.t) : ArchiveBuilder :=
  mkArchiveBuilder
    (_current_dump_space b) (_buffer_bottom b) (_last_verified_top b)
    (_num_dump_regions_used b) (_other_region_used_bytes b)
    (_requested_static_archive_bottom b) (_requested_static_archive_top b)
    (_requested_dynamic_archive_bottom b) (_requested_dynamic_archive_top b)
    (_mapped_static_archive_bottom b) (_mapped_static_archive_top b)
    (_buffer_to_requested_delta b) v (_ro_region b) (_ptrmap b) (_rw_src_objs b)
    (_ro_src_objs b) (_src_obj_table b) (_buffered_to_src_table b) (_klasses b)
    (_symbols b) (_estimated_metaspaceobj_bytes b) (_estimated_hashtable_bytes b)
    (buffer b).

Definition set_ro_region (b : ArchiveBuilder) (v : DumpRegion.t) : ArchiveBuilder :=
  mkArchiveBuilder
    (_current_dump_space b) (_buffer_bottom b) (_last_verified_top b)
    (_num_dump_regions_used b) (_other_region_used_bytes b)
    (_requested_static_archive_bottom b) (_requested_static_archive_top b)
    (_requested_dynamic_archive_bottom b) (_requested_dynamic_archive_top b)
    (_mapped_static_archive_bottom b) (_mapped_static_archive_top b)
    (_buffer_to_requested_delta b) (_rw_region b) v (_ptrmap b) (_rw_src_objs b)
    (_ro_src_objs b) (_src_obj_table b) (_buffered_to_src_table b) (_klasses b)
    (_symbols b) (_estimated_metaspaceobj_bytes b) (_estimated_hashtable_bytes b)
    (buffer b).

Definition set_ptrmap (b : ArchiveBuilder) (v : BitMap.t) : ArchiveBuilder :=
  mkArchiveBuilder
    (_current_dump_space b) (_buffer_bottom b) (_last_verified_top b)
    (_num_dump_regions_used b) (_other_region_used_bytes b)
    (_requested_static_archive_bottom b) (_requested_static_archive_top b)
    (_requested_dynamic_archive_bottom b) (_requested_dynamic_archive_top b)
    (_mapped_static_archive_bottom b) (_mapped_static_archive_top b)
    (_buffer_to_requested_delta b) (_rw_region b) (_ro_region b) v (_rw_src_objs b)
    (_ro_src_objs b) (_src_obj_table b) (_buffered_to_src_table b) (_klasses b)
    (_symbols b) (_estimated_metaspaceobj_bytes b) (_estimated_hashtable_bytes b)
    (buffer b).

Definition set_rw_src_objs (b : ArchiveBuilder) (v : SourceObjList.t) : ArchiveBuilder :=
  mkArchiveBuilder
    (_current_dump_space b) (_buffer_bottom b) (_last_verified_top b)
    (_num_dump_regions_used b) (_other_region_used_bytes b)
    (_requested_static_archive_bottom b) (_requested_static_archive_top b)
    (_requested_dynamic_archive_bottom b) (_requested_dynamic_archive_top b)
    (_mapped_static_archive_bottom b) (_mapped_static_archive_top b)
    (_buffer_to_requested_delta b) (_rw_region b) (_ro_region b) (_ptrmap b) v
    (_ro_src_objs b) (_src_obj_table b) (_buffered_to_src_table b) (_klasses b)
    (_symbols b) (_estimated_metaspaceobj_bytes b) (_estimated_hashtable_bytes b)
    (buffer b).

Definition set_ro_src_objs (b : ArchiveBuilder) (v : SourceObjList.t) : ArchiveBuilder :=
  mkArchiveBuilder
    (_current_dump_space b) (_buffer_bottom b) (_last_verified_top b)
    (_num_dump_regions_used b) (_other_region_used_bytes b)
    (_requested_static_archive_bottom b) (_requested_static_archive_top b)
    (_requested_dynamic_archive_bottom b) (_requested_dynamic_archive_top b)
    (_mapped_static_archive_bottom b) (_mapped_static_archive_top b)
    (_buffer_to_requested_delta b) (_rw_region b) (_ro_region b) (_ptrmap b)
    (_rw_src_objs b) v (_src_obj_table b) (_buffered_to_src_table b) (_klasses b)
    (_symbols b) (_estimated_metaspaceobj_bytes b) (_estimated_hashtable_bytes b)
    (buffer b).

Definition set_src_obj_table (b : ArchiveBuilder) (v : gmap address SourceObjInfo.t) : ArchiveBuilder :=
  mkArchiveBuilder
    (_current_dump_space b) (_buffer_bottom b) (_last_verified_top b)
    (_num_dump_regions_used b) (_other_region_used_bytes b)
    (_requested_static_archive_bottom b) (_requested_static_archive_top b)
    (_requested_dynamic_archive_bottom b) (_requested_dynamic_archive_top b)
    (_mapped_static_archive_bottom b) (_mapped_static_archive_top b)
    (_buffer_to_requested_delta b) (_rw_region b) (_ro_region b) (_ptrmap b)
    (_rw_src_objs b) (_ro_src_objs b) v (_buffered_to_src_table b) (_klasses b)
    (_symbols b) (_estimated_metaspaceobj_bytes b) (_estimated_hashtable_bytes b)
    (buffer b).

Definition set_buffered_to_src_table (b : ArchiveBuilder) (v : gmap address address) : ArchiveBuilder :=
  mkArchiveBuilder
    (_current_dump_space b) (_buffer_bottom b) (_last_verified_top b)
    (_num_dump_regions_used b) (_other_region_used_bytes b)
    (_requested_static_archive_bottom b) (_requested_static_archive_top b)
    (_requested_dynamic_archive_bottom b) (_requested_dynamic_archive_top b)
    (_mapped_static_archive_bottom b) (_mapped_static_archive_top b)
    (_buffer_to_requested_delta b) (_rw_region b) (_ro_region b) (_ptrmap b)
    (_rw_src_objs b) (_ro_src_objs b) (_src_obj_table b) v (_klasses b) (_symbols b)
    (_estimated_metaspaceobj_bytes b) (_estimated_hashtable_bytes b) (buffer b).

Definition set_klasses (b : ArchiveBuilder) (v : list address) : ArchiveBuilder :=
  mkArchiveBuilder
    (_current_dump_space b) (_buffer_bottom b) (_last_verified_top b)
    (_num_dump_regions_used b) (_other_region_used_bytes b)
    (_requested_static_archive_bottom b) (_requested_static_archive_top b)
    (_requested_dynamic_archive_bottom b) (_requested_dynamic_archive_top b)
    (_mapped_static_archive_bottom b) (_mapped_static_archive_top b)
    (_buffer_to_requested_delta b) (_rw_region b) (_ro_region b) (_ptrmap b)
    (_rw_src_objs b) (_ro_src_objs b) (_src_obj_table b) (_buffered_to_src_table b) v
    (_symbols b) (_estimated_metaspaceobj_bytes b) (_estimated_hashtable_bytes b)
    (buffer b).

Definition set_symbols (b : ArchiveBuilder) (v : list address) : ArchiveBuilder :=
  mkArchiveBuilder
    (_current_dump_space b) (_buffer_bottom b) (_last_verified_top b)
    (_num_dump_regions_used b) (_other_region_used_bytes b)
    (_requested_static_archive_bottom b) (_requested_static_archive_top b)
    (_requested_dynamic_archive_bottom b) (_requested_dynamic_archive_top b)
    (_mapped_static_archive_bottom b) (_mapped_static_archive_top b)
    (_buffer_to_requested_delta b) (_rw_region b) (_ro_region b) (_ptrmap b)
    (_rw_src_objs b) (_ro_src_objs b) (_src_obj_table b) (_buffered_to_src_table b)
    (_klasses b) v (_estimated_metaspaceobj_bytes b) (_estimated_hashtable_bytes b)
    (buffer b).

Definition set_estimated_metaspaceobj_bytes (b : ArchiveBuilder) (v : Z) : ArchiveBuilder :=
  mkArchiveBuilder
    (_current_dump_space b) (_buffer_bottom b) (_last_verified_top b)
    (_num_dump_regions_used b) (_other_region_used_bytes b)
    (_requested_static_archive_bottom b) (_requested_static_archive_top b)
    (_requested_dynamic_archive_bottom b) (_requested_dynamic_archive_top b)
    (_mapped_static_archive_bottom b) (_mapped_static_archive_top b)
    (_buffer_to_requested_delta b) (_rw_region b) (_ro_region b) (_ptrmap b)
    (_rw_src_objs b) (_ro_src_objs b) (_src_obj_table b) (_buffered_to_src_table b)
    (_klasses b) (_symbols b) v (_estimated_hashtable_bytes b) (buffer b).

Definition set_estimated_hashtable_bytes (b : ArchiveBuilder) (v : Z) : ArchiveBuilder :=
  mkArchiveBuilder
    (_current_dump_space b) (_buffer_bottom b) (_last_verified_top b)
    (_num_dump_regions_used b) (_other_region_used_bytes b)
    (_requested_static_archive_bottom b) (_requested_static_archive_top b)
    (_requested_dynamic_archive_bottom b) (_requested_dynamic_archive_top b)
    (_mapped_static_archive_bottom b) (_mapped_static_archive_top b)
    (_buffer_to_requested_delta b) (_rw_region b) (_ro_region b) (_ptrmap b)
    (_rw_src_objs b) (_ro_src_objs b) (_src_obj_table b) (_buffered_to_src_table b)
    (_klasses b) (_symbols b) (_estimated_metaspaceobj_bytes b) v (buffer b).

Definition set_buffer (b : ArchiveBuilder) (v : gmap address Z) : ArchiveBuilder :=
  mkArchiveBuilder
    (_current_dump_space b) (_buffer_bottom b) (_last_verified_top b)
    (_num_dump_regions_used b) (_other_region_used_bytes b)
    (_requested_static_archive_bottom b) (_requested_static_archive_top b)
    (_requested_dynamic_archive_bottom b) (_requested_dynamic_archive_top b)
    (_mapped_static_archive_bottom b) (_mapped_static_archive_top b)
    (_buffer_to_requested_delta b) (_rw_region b) (_ro_region b) (_ptrmap b)
    (_rw_src_objs b) (_ro_src_objs b) (_src_obj_table b) (_buffered_to_src_table b)
    (_klasses b) (_symbols b) (_estimated_metaspaceobj_bytes b)
    (_estimated_hashtable_bytes b) v.

(** Modelled from the spec: [put_if_absent] is a method of the hash table of
    utilities/resourceHash.hpp, which is not part of this file.  It answers
    the table afterwards, the entry found or made, and whether it was made
    ([created]); the table is populated once per key: an entry already
    present is left as it is. *)
Definition put_if_absent {V : Type} (tbl : gmap address V) (k : address) (v : V)
  : gmap address V * V * bool :=
  match tbl !! k with
  | Some e => (tbl, e, false)
  | None => (<[k := v]> tbl, v, true)
  end.

(** ** Gathering the source objects *)
Section Gathering.

Context (vm : VM).

(** [ArchiveBuilder::remember_embedded_pointer_in_enclosing_obj] *)
Definition remember_embedded_pointer_in_enclosing_obj (b : ArchiveBuilder) (ref : Ref)
  : result ArchiveBuilder :=
  _ ← assert (negb (ref_obj ref =? 0)) "should have checked" [];
  let enclosing_obj := ref_enclosing_obj ref in
  if enclosing_obj =? 0 then Ok b
  else
    match _src_obj_table b !! enclosing_obj with
    | None => Ok b
    | Some src_info =>
        if negb (SourceObjInfo.should_copy src_info) then Ok b
        else if SourceObjInfo._read_only src_info then
          l ← SourceObjList.remember_embedded_pointer (_ro_src_objs b) src_info ref;
          Ok (set_ro_src_objs b l)
        else
          l ← SourceObjList.remember_embedded_pointer (_rw_src_objs b) src_info ref;
          Ok (set_rw_src_objs b l)
    end.

(** [ArchiveBuilder::gather_one_source_obj]: the builder afterwards and the
    answer to the walker (true: recurse into the object).  [p] is the entry
    of [src_obj] in the table; [append] writes the bitmap interval into it.
    The growth of the hash table ([maybe_grow]) changes no entry. *)
Definition gather_one_source_obj (b : ArchiveBuilder) (ref : Ref) (read_only : bool)
  : result (ArchiveBuilder * bool) :=
  let src_obj := ref_obj ref in
  if src_obj =? 0 then Ok (b, false)
  else if has_been_regenerated vm src_obj then Ok (b, false)
  else
    b ← remember_embedded_pointer_in_enclosing_obj b ref;
    let follow_mode := get_follow_mode vm ref in
    let src_info := SourceObjInfo.of_ref ref read_only follow_mode in
    let '(tbl, p, created) := put_if_absent (_src_obj_table b) src_obj src_info in
    let b := set_src_obj_table b tbl in
    _ ← assert (negb (msotype_eqb (ref_msotype ref) MethodType)
                || negb (has_been_regenerated vm (method_holder vm (ref_obj ref))))
               "Should not archive methods in a class that has been regenerated" [];
    _ ← assert (Bool.eqb (SourceObjInfo._read_only p)
                         (SourceObjInfo._read_only src_info)) "must be" [];
    if created && SourceObjInfo.should_copy src_info then
      if read_only then
        '(l, p) ← SourceObjList.append (_ro_src_objs b) p;
        Ok (set_src_obj_table (set_ro_src_objs b l) (<[src_obj := p]> tbl), true)
      else
        '(l, p) ← SourceObjList.append (_rw_src_objs b) p;
        Ok (set_src_obj_table (set_rw_src_objs b l) (<[src_obj := p]> tbl), true)
    else Ok (b, false).

(** The calls of [gather_one_source_obj] made by the walker, in order: the
    walker (MetaspaceClosure) is not part of this file, so that a run of the
    gathering is given by the references it visits. *)
Fixpoint gather_refs (b : ArchiveBuilder) (visits : list (Ref * bool))
  : result ArchiveBuilder :=
  match visits with
  | [] => Ok b
  | (ref, read_only) :: rest =>
      '(b, _) ← gather_one_source_obj b ref read_only;
      gather_refs b rest
  end.

(** [ArchiveBuilder::record_regenerated_object] *)
Definition record_regenerated_object (b : ArchiveBuilder)
           (orig_src_obj regen_src_obj : address) : result ArchiveBuilder :=
  match _src_obj_table b !! regen_src_obj with
  | None => Fatal (AssertFailed "regenerated object should always be dumped" [])
  | Some p =>
      let orig_src_info := SourceObjInfo.of_regenerated orig_src_obj p in
      let '(tbl, _, created) := put_if_absent (_src_obj_table b) orig_src_obj orig_src_info in
      _ ← assert created
            "We shouldn't have archived the original copy of a regenerated object" [];
      Ok (set_src_obj_table b tbl)
  end.

(** [ArchiveBuilder::get_buffered_addr] *)
Definition get_buffered_addr (b : ArchiveBuilder) (src_addr : address) : result address :=
  match _src_obj_table b !! src_addr with
  | None => Fatal (AssertFailed "src_addr is used but has not been archived" [src_addr])
  | Some p => Ok (SourceObjInfo._buffered_addr p)
  end.

End Gathering.

(** ** Gathering and sorting the classes and symbols *)

(** Modelled from the spec: [GrowableArray::sort(f)] is defined in
    utilities/growableArray.hpp, which is not part of this file; it sorts the
    array by the key the comparator [f] compares, handing the array to the C
    library's [qsort].  It is modelled by insertion sort.  Under a comparator
    that orders the elements of the array strictly, every sorting procedure
    returns the same array (the ascending arrangement is unique); elements
    the comparator answers 0 for cannot be told apart by a procedure that
    only compares, and are left here in the order they came in. *)
Section Sort.

Context {A : Type} (f : A -> A -> result Z).

Fixpoint sort_insert (x : A) (sorted : list A) : result (list A) :=
  match sorted with
  | [] => Ok [x]
  | y :: rest =>
      c ← f x y;
      if c <=? 0 then Ok (x :: y :: rest)
      else
        rest ← sort_insert x rest;
        Ok (y :: rest)
  end.

Fixpoint sort (l : list A) : result (list A) :=
  match l with
  | [] => Ok []
  | x :: rest =>
      sorted ← sort rest;
      sort_insert x sorted
  end.

End Sort.

Section KlassesAndSymbols.

Context (vm : VM).

(** [ArchiveBuilder::gather_klass_and_symbol].  A symbol's reference count
    is state of the symbol, not of the builder. *)
Definition gather_klass_and_symbol (b : ArchiveBuilder) (ref : Ref) (read_only : bool)
  : ArchiveBuilder * bool :=
  if ref_obj ref =? 0 then (b, false)
  else if negb (FollowMode_eqb (get_follow_mode vm ref) make_a_copy) then (b, false)
  else
    let b :=
      if msotype_eqb (ref_msotype ref) ClassType then
        let klass := ref_obj ref in
        let b := if negb (is_excluded vm klass)
                 then set_klasses b (_klasses b ++ [klass]) else b in
        set_estimated_metaspaceobj_bytes b
          (wrap (_estimated_metaspaceobj_bytes b
                 + align_up BytesPerWord SharedSpaceObjectAlignment))
      else if msotype_eqb (ref_msotype ref) SymbolType then
        set_symbols b (_symbols b ++ [ref_obj ref])
      else b in
    let bytes := as_int (ref_size ref * BytesPerWord) in
    (set_estimated_metaspaceobj_bytes b
       (wrap (_estimated_metaspaceobj_bytes b
              + align_up (wrap bytes) SharedSpaceObjectAlignment)),
     true).

(** [ArchiveBuilder::compare_symbols_by_address] *)
Definition compare_symbols_by_address (a b : address) : result Z :=
  if a <? b then Ok (-1)
  else
    _ ← assert (b <? a) "Duplicated symbol unexpected" [a];
    Ok 1.

(** [ArchiveBuilder::compare_klass_by_name] *)
Definition compare_klass_by_name (a b : address) : result Z :=
  Ok (fast_compare vm (klass_name vm a) (klass_name vm b)).

(** The loop of [sort_symbols_and_fix_hash]: each symbol of the array, in
    order, is checked to be permanent and gets a new identity hash.
    [Symbol::update_identity_hash] is not part of this file; it is taken to
    draw the hash from [os::random], whose numbers follow [seed]. *)
Fixpoint update_identity_hashes (seed : Z) (symbols : list address)
  : result (list (address * Z)) :=
  match symbols with
  | [] => Ok []
  | s :: rest =>
      _ ← assert (is_permanent vm s) "archived symbols must be permanent" [s];
      let seed := os_next_random vm seed in
      hashes ← update_identity_hashes seed rest;
      Ok ((s, seed) :: hashes)
  end.

(** [ArchiveBuilder::sort_symbols_and_fix_hash]: the builder, and the
    identity hash written into each symbol. *)
Definition sort_symbols_and_fix_hash (b : ArchiveBuilder)
  : result (ArchiveBuilder * list (address * Z)) :=
  let seed := 305419896 (* os::init_random(0x12345678) *) in
  symbols ← sort compare_symbols_by_address (_symbols b);
  hashes ← update_identity_hashes seed symbols;
  Ok (set_symbols b symbols, hashes).

(** [ArchiveBuilder::sort_klasses] *)
Definition sort_klasses (b : ArchiveBuilder) : result ArchiveBuilder :=
  klasses ← sort compare_klass_by_name (_klasses b);
  Ok (set_klasses b klasses).

(** [ArchiveBuilder::gather_klasses_and_symbols].  [unique_refs] are the
    references [GatherKlassesAndSymbols] is called with, each object once,
    in the order the roots and the tables are walked. *)
Definition gather_klasses_and_symbols (b : ArchiveBuilder) (unique_refs : list (Ref * bool))
  : result (ArchiveBuilder * list (address * Z)) :=
  let b := fold_left (fun b r => fst (gather_klass_and_symbol b (fst r) (snd r)))
                     unique_refs b in
  if DumpSharedSpaces vm then
    '(b, hashes) ← sort_symbols_and_fix_hash b;
    b ← sort_klasses b;
    Ok (set_estimated_metaspaceobj_bytes b
          (wrap (_estimated_metaspaceobj_bytes b + 200 * 1024 * 1024)), hashes)
  else Ok (b, []).

(** [ArchiveBuilder::iterate_sorted_roots]: the roots pushed to the closure,
    in order; [roots] are those [iterate_roots] pushes. *)
Definition iterate_sorted_roots (b : ArchiveBuilder) (roots : list address) : list address :=
  _symbols b ++ _klasses b ++ roots.

End KlassesAndSymbols.

(** ** Regions, the output buffer and its placement *)
Section Buffer.

Context (vm : VM).

Definition region (b : ArchiveBuilder) (which : RegionId) : DumpRegion.t :=
  match which with rw => _rw_region b | ro => _ro_region b end.

Definition set_region (b : ArchiveBuilder) (which : RegionId) (r : DumpRegion.t)
  : ArchiveBuilder :=
  match which with rw => set_rw_region b r | ro => set_ro_region b r end.

Definition current_dump_space (b : ArchiveBuilder) : DumpRegion.t :=
  region b (_current_dump_space b).

(** Modelled from the spec: the accessors and span tests below are declared
    in archiveBuilder.hpp, which is not part of this file.  Each space of
    the spec is a contiguous span [bottom, top). *)
Definition buffer_bottom (b : ArchiveBuilder) : address := _buffer_bottom b.

Definition buffer_top (b : ArchiveBuilder) : address :=
  DumpRegion._top (current_dump_space b).

Definition is_in_buffer_space (b : ArchiveBuilder) (p : address) : bool :=
  (buffer_bottom b <=? p) && (p <? buffer_top b).

Definition is_in_mapped_static_archive (b : ArchiveBuilder) (p : address) : bool :=
  (_mapped_static_archive_bottom b <=? p) && (p <? _mapped_static_archive_top b).

Definition is_in_requested_static_archive (b : ArchiveBuilder) (p : address) : bool :=
  (_requested_static_archive_bottom b <=? p) && (p <? _requested_static_archive_top b).

(** [ArchiveBuilder::report_out_of_space]: it does not return. *)
Definition report_out_of_space (b : ArchiveBuilder) (name : string) (needed_bytes : Z)
  : failure :=
  UnrecoverableWritingError
    [DumpRegion.print_out_of_space_msg (_rw_region b) name needed_bytes;
     DumpRegion.print_out_of_space_msg (_ro_region b) name needed_bytes;
     ("Unable to allocate from '" +:+ name
        +:+ "' region: Please reduce the number of shared classes.", [])].

(** Modelled from the spec: [DumpRegion::allocate] is defined in
    archiveUtils.cpp, which is not part of this file.  It bump-allocates
    [num_bytes] from the current top, aligned to the word size, only grows
    the top, and reports out-of-space when the new top would pass the
    reserved end. *)
Definition allocate (b : ArchiveBuilder) (which : RegionId) (num_bytes : Z)
  : result (ArchiveBuilder * address) :=
  let r := region b which in
  let p := align_up (DumpRegion._top r) SharedSpaceObjectAlignment in
  let newtop := p + align_up num_bytes SharedSpaceObjectAlignment in
  if DumpRegion._end r <? newtop
  then Fatal (report_out_of_space b (DumpRegion._name r) (newtop - DumpRegion._top r))
  else Ok (set_region b which (DumpRegion.set_top r newtop), p).

(** [ArchiveBuilder::estimate_archive_size] *)
Definition estimate_archive_size (b : ArchiveBuilder) : ArchiveBuilder * Z :=
  let symbol_table_est := symbol_table_estimate vm in
  let dictionary_est := dictionary_estimate vm in
  let b := set_estimated_hashtable_bytes b (wrap (symbol_table_est + dictionary_est)) in
  let total := 0 in
  let total := wrap (total + _estimated_metaspaceobj_bytes b) in
  let total := wrap (total + _estimated_hashtable_bytes b) in
  let total := wrap (total + wrap (total_dump_regions vm * core_region_alignment vm)) in
  (b, align_up total (core_region_alignment vm)).

(** The local [my_archive_requested_bottom] of [reserve_buffer]. *)
Definition my_archive_requested_bottom : address :=
  let requested_static_archive_bottom := requested_base_address vm in
  if DumpSharedSpaces vm then requested_static_archive_bottom
  else
    let static_archive_size := wrap (shared_metaspace_top vm - shared_metaspace_base vm) in
    let requested_static_archive_top :=
      wrap (requested_static_archive_bottom + static_archive_size) in
    align_up requested_static_archive_top (core_region_alignment vm).

(** The local [my_archive_requested_top] of [reserve_buffer]. *)
Definition my_archive_requested_top (buffer_size : Z) : address :=
  wrap (my_archive_requested_bottom + buffer_size).

(** The three [log_error] lines of the placement check of [reserve_buffer]. *)
Definition placement_error (buffer_size : Z) : failure :=
  UnrecoverableWritingError
    [("my_archive_requested_bottom = %p", [my_archive_requested_bottom]);
     ("my_archive_requested_top    = %p", [my_archive_requested_top buffer_size]);
     ("SharedBaseAddress (%p) is too high. Please rerun java -Xshare:dump with a lower value",
      [requested_base_address vm])].

(** [ArchiveBuilder::reserve_buffer].  [ArchivePtrMarker::initialize] hands
    [_ptrmap] to the marker and sets no bit. *)
Definition reserve_buffer (b : ArchiveBuilder) : result (ArchiveBuilder * address) :=
  let '(b, buffer_size) := estimate_archive_size b in
  match reserve_space vm buffer_size with
  | None =>
      Fatal (UnrecoverableWritingError
               [("Failed to reserve %d bytes of output buffer.", [buffer_size])])
  | Some rs_base =>
      let buffer_bottom := rs_base in
      let rs_end := wrap (rs_base + buffer_size) in
      let requested_static_archive_bottom := requested_base_address vm in
      _ ← (if DumpSharedSpaces vm then Ok tt
           else assert (shared_metaspace_base vm <=? shared_metaspace_top vm) "must be" []);
      let static_archive_size := wrap (shared_metaspace_top vm - shared_metaspace_base vm) in
      let b :=
        mkArchiveBuilder
          rw buffer_bottom buffer_bottom 1 0
          requested_static_archive_bottom
          (if DumpSharedSpaces vm then _requested_static_archive_top b
           else wrap (requested_static_archive_bottom + static_archive_size))
          (if DumpSharedSpaces vm then _requested_dynamic_archive_bottom b
           else my_archive_requested_bottom)
          (_requested_dynamic_archive_top b)
          (if DumpSharedSpaces vm then _mapped_static_archive_bottom b
           else shared_metaspace_base vm)
          (if DumpSharedSpaces vm then _mapped_static_archive_top b
           else shared_metaspace_top vm)
          (as_intx (my_archive_requested_bottom - buffer_bottom))
          (DumpRegion.init (_rw_region b) rs_base rs_end) (_ro_region b)
          (_ptrmap b) (_rw_src_objs b) (_ro_src_objs b) (_src_obj_table b)
          (_buffered_to_src_table b) (_klasses b) (_symbols b)
          (_estimated_metaspaceobj_bytes b) (_estimated_hashtable_bytes b) (buffer b) in
      if (my_archive_requested_bottom <? requested_static_archive_bottom)
         || (my_archive_requested_top buffer_size <=? requested_static_archive_bottom)
      then Fatal (placement_error buffer_size)
      else if DumpSharedSpaces vm then
        '(b, _) ← allocate b rw 16;
        Ok (b, buffer_bottom)
      else Ok (b, buffer_bottom)
  end.

(** [ArchiveBuilder::start_dump_space]: [pack(next)] closes the current
    region and starts [next] at its end. *)
Definition start_dump_space (b : ArchiveBuilder) (next : RegionId) : ArchiveBuilder :=
  let bottom := _last_verified_top b in
  let top := DumpRegion._top (current_dump_space b) in
  let b := set_other_region_used_bytes b
             (wrap (_other_region_used_bytes b + wrap (top - bottom))) in
  let cur := DumpRegion.pack (current_dump_space b) in
  let rs_end := DumpRegion._end (current_dump_space b) in
  let b := set_region b (_current_dump_space b) cur in
  let b := set_region b next (DumpRegion.start_after (region b next) cur rs_end) in
  let b := set_current_dump_space b next in
  let b := set_num_dump_regions_used b (_num_dump_regions_used b + 1) in
  set_last_verified_top b (DumpRegion._top (current_dump_space b)).

(** [ArchiveBuilder::verify_estimate_size].  [diff] is an [int]: both
    operands are narrowed to [int] before the subtraction. *)
Definition verify_estimate_size (b : ArchiveBuilder) (estimate : Z) (which : string)
  : result ArchiveBuilder :=
  let bottom := _last_verified_top b in
  let top := DumpRegion._top (current_dump_space b) in
  let used := wrap (wrap (top - bottom) + _other_region_used_bytes b) in
  let diff := as_int (as_int estimate - as_int used) in
  _ ← assert (0 <=? diff) "Estimate is too small" [];
  Ok (set_other_region_used_bytes (set_last_verified_top b top) 0).

End Buffer.

(** ** The words of the output buffer and the pointer marker *)

Definition load (m : gmap address Z) (a : address) : Z := default 0 (m !! a).

Definition store (m : gmap address Z) (a : address) (v : Z) : gmap address Z := <[a := v]> m.

(** [memcpy(dest, src, bytes)] from the live process into the buffer, word by
    word ([bytes] is a whole number of words). *)
Definition memcpy_from_source (vm : VM) (m : gmap address Z) (dest src : address) (bytes : Z)
  : gmap address Z :=
  fold_left (fun m i => store m (wrap (dest + 8 * i)) (source_word vm (wrap (src + 8 * i))))
            (BitMap.range 0 (bytes / 8)) m.

(** Modelled from the spec: [BitMap::iterate(closure, beg, end)] is defined in
    utilities/bitMap.inline.hpp, which is not part of this file.  It walks the
    set bits of [beg, end) in ascending order and calls the closure with each
    bit position, until the closure answers false.  The bitmap is read as the
    closure leaves it ([bitmap_of] the closure's state). *)
Fixpoint iterate_over {S : Type} (bitmap_of : S -> BitMap.t)
         (do_bit : S -> Z -> result (S * bool)) (indices : list Z) (s : S)
  : result (S * bool) :=
  match indices with
  | [] => Ok (s, true)
  | i :: rest =>
      if BitMap.at_ (bitmap_of s) i then
        '(s, continue) ← do_bit s i;
        if continue : bool then iterate_over bitmap_of do_bit rest s else Ok (s, false)
      else iterate_over bitmap_of do_bit rest s
  end.

Definition iterate {S : Type} (bitmap_of : S -> BitMap.t)
           (do_bit : S -> Z -> result (S * bool)) (beg end_ : Z) (s : S)
  : result (S * bool) :=
  iterate_over bitmap_of do_bit (BitMap.range beg end_) s.

(** Modelled from the spec: [ArchivePtrMarker] is defined in archiveUtils.cpp,
    which is not part of this file.  Its bitmap is the builder's [_ptrmap]: bit
    [i] stands for the word at [buffer_bottom + i * word size]; marking sets
    the bit, growing the bitmap when needed; compaction cuts the logical
    length down to the highest surviving bit, that is to its index plus one. *)
Module ArchivePtrMarker.

Definition mark_pointer (b : ArchiveBuilder) (ptr_loc : address) : ArchiveBuilder :=
  let idx := wrap (ptr_loc - _buffer_bottom b) / sizeof_address in
  let m := _ptrmap b in
  let m := if BitMap.size m <=? idx then BitMap.resize m (wrap ((idx + 1) * 2)) else m in
  set_ptrmap b (BitMap.set_bit m idx).

Definition set_and_mark_pointer (b : ArchiveBuilder) (ptr_loc : address) (ptr_value : address)
  : ArchiveBuilder :=
  mark_pointer (set_buffer b (store (buffer b) ptr_loc ptr_value)) ptr_loc.

Definition compact (b : ArchiveBuilder) (max_non_null_offset : Z) : ArchiveBuilder :=
  set_ptrmap b (BitMap.resize (_ptrmap b) (wrap (max_non_null_offset + 1))).

End ArchivePtrMarker.

#[global] Instance SourceObjInfo_inhabited : Inhabited SourceObjInfo.t :=
  populate (SourceObjInfo.mk 0 0 false set_to_null 0 OtherType 0 0).

(** ** Shallow copies and the relocation of embedded pointers *)
Section Copy.

Context (vm : VM).

Definition src_objs (b : ArchiveBuilder) (read_only : bool) : SourceObjList.t :=
  if read_only then _ro_src_objs b else _rw_src_objs b.

(** [ArchiveBuilder::make_shallow_copy] of the entry [src_info] points to
    (an entry is never removed from the table, so the pointer is valid).
    [validate_before_archiving] and the allocation statistics leave the
    builder's regions, tables and buffer alone. *)
Definition make_shallow_copy (b : ArchiveBuilder) (dump_region : RegionId) (src_info : address)
  : result ArchiveBuilder :=
  let info := _src_obj_table b !!! src_info in
  let src := SourceObjInfo._source_addr info in
  let bytes := SourceObjInfo._size_in_bytes info in
  b ← (if msotype_eqb (SourceObjInfo._msotype info) ClassType then
         match klass_kind vm src with
         | InstanceKlass => '(b, _) ← allocate b dump_region sizeof_address; Ok b
         | _ => Ok b
         end
       else Ok b);
  '(b, dest) ← allocate b dump_region (wrap bytes);
  let b := set_buffer b (memcpy_from_source vm (buffer b) dest src bytes) in
  let '(tbl, _, created) := put_if_absent (_buffered_to_src_table b) dest src in
  let b := set_buffered_to_src_table b tbl in
  _ ← assert created "must be" [];
  let archived_vtable := get_archived_vtable vm (SourceObjInfo._msotype info) dest in
  let b :=
    if negb (archived_vtable =? 0) then
      ArchivePtrMarker.mark_pointer (set_buffer b (store (buffer b) dest archived_vtable)) dest
    else b in
  Ok (set_src_obj_table b
        (<[src_info := SourceObjInfo.set_buffered_addr info dest]> (_src_obj_table b))).

(** [ArchiveBuilder::make_shallow_copies] *)
Definition make_shallow_copies (b : ArchiveBuilder) (dump_region : RegionId) (read_only : bool)
  : result ArchiveBuilder :=
  foldl (fun r src_info => b ← r; make_shallow_copy b dump_region src_info)
        (Ok b) (SourceObjList._objs (src_objs b read_only)).

(** [RelocateEmbeddedPointers::do_bit], the closure being made for the
    object copied at [buffered_obj] whose interval starts at [start_idx]. *)
Definition RelocateEmbeddedPointers_do_bit (buffered_obj : address) (start_idx : Z)
           (b : ArchiveBuilder) (bit_offset : Z) : result (ArchiveBuilder * bool) :=
  let field_offset := wrap (wrap (bit_offset - start_idx) * sizeof_address) in
  let ptr_loc := wrap (buffered_obj + field_offset) in
  let old_p := load (buffer b) ptr_loc in
  new_p ← get_buffered_addr b old_p;
  Ok (ArchivePtrMarker.set_and_mark_pointer b ptr_loc new_p, true).

(** [SourceObjList::relocate(i, builder)] on the list of the read-only or of
    the read-write objects. *)
Definition relocate (b : ArchiveBuilder) (read_only : bool) (i : nat) : result ArchiveBuilder :=
  match SourceObjList._objs (src_objs b read_only) !! i with
  | None => Fatal (AssertFailed "index out of bounds" [Z.of_nat i])
  | Some p =>
      let src_info := _src_obj_table b !!! p in
      _ ← assert (SourceObjInfo.should_copy src_info) "must be" [];
      let start := SourceObjInfo._ptrmap_start src_info in
      let end_ := SourceObjInfo._ptrmap_end src_info in
      '(b, _) ← iterate (fun b => SourceObjList._ptrmap (src_objs b read_only))
                        (RelocateEmbeddedPointers_do_bit
                           (SourceObjInfo._buffered_addr src_info) start)
                        start end_ b;
      Ok b
  end.

(** [ArchiveBuilder::relocate_embedded_pointers] *)
Definition relocate_embedded_pointers (b : ArchiveBuilder) (read_only : bool)
  : result ArchiveBuilder :=
  foldl (fun r i => b ← r; relocate b read_only i)
        (Ok b) (seq 0 (length (SourceObjList._objs (src_objs b read_only)))).

(** [ArchiveBuilder::relocate_metaspaceobj_embedded_pointers] *)
Definition relocate_metaspaceobj_embedded_pointers (b : ArchiveBuilder)
  : result ArchiveBuilder :=
  b ← relocate_embedded_pointers b false;
  relocate_embedded_pointers b true.

End Copy.

(** The accessor [buffer_to_requested_delta()] of the builder. *)
Definition buffer_to_requested_delta (b : ArchiveBuilder) : Z := _buffer_to_requested_delta b.

(** ** RelocateBufferToRequested: the relocation of the whole buffer *)
Module RelocateBufferToRequested.

(** The closure: its pointer to the builder is the builder's state as the
    closure leaves it. *)
Record t : Type := mk {
  _builder : ArchiveBuilder;
  _buffer_bottom : address;
  _buffer_to_requested_delta : Z;
  _mapped_to_requested_static_archive_delta : Z;
  _max_non_null_offset : Z
}.

(** [RelocateBufferToRequested(builder)] *)
Definition new (builder : ArchiveBuilder) : t :=
  mk builder (buffer_bottom builder)
     (buffer_to_requested_delta builder)
     (as_intx (_requested_static_archive_bottom builder
               - _mapped_static_archive_bottom builder))
     0.

Definition set_builder (c : t) (builder : ArchiveBuilder) : t :=
  mk builder (_buffer_bottom c) (_buffer_to_requested_delta c)
     (_mapped_to_requested_static_archive_delta c) (_max_non_null_offset c).

Definition set_max_non_null_offset (c : t) (offset : Z) : t :=
  mk (_builder c) (_buffer_bottom c) (_buffer_to_requested_delta c)
     (_mapped_to_requested_static_archive_delta c) offset.

(** [*p += delta] *)
Definition add_to_pointer (c : t) (p : address) (delta : Z) : t :=
  let builder := _builder c in
  set_builder c (set_buffer builder
                   (store (buffer builder) p (wrap (load (buffer builder) p + delta)))).

Section Relocate.

Context (STATIC_DUMP : bool).

(** [RelocateBufferToRequested<STATIC_DUMP>::do_bit] *)
Definition do_bit (c : t) (offset : Z) : result (t * bool) :=
  let p := wrap (_buffer_bottom c + sizeof_address * offset) in
  _ ← assert (is_in_buffer_space (_builder c) p) "pointer must live in buffer space" [];
  if load (buffer (_builder c)) p =? 0 then
    Ok (set_builder c (set_ptrmap (_builder c)
                         (BitMap.clear_bit (_ptrmap (_builder c)) offset)), true)
  else
    c ← (if STATIC_DUMP then
           _ ← assert (is_in_buffer_space (_builder c) (load (buffer (_builder c)) p))
                      "old pointer must point inside buffer space" [];
           let c := add_to_pointer c p (_buffer_to_requested_delta c) in
           _ ← assert (is_in_requested_static_archive (_builder c)
                         (load (buffer (_builder c)) p))
                      "new pointer must point inside requested archive" [];
           Ok c
         else if is_in_buffer_space (_builder c) (load (buffer (_builder c)) p) then
           Ok (add_to_pointer c p (_buffer_to_requested_delta c))
         else
           _ ← assert (is_in_mapped_static_archive (_builder c)
                         (load (buffer (_builder c)) p))
                 "old pointer must point inside buffer space or mapped static archive" [];
           let c := add_to_pointer c p (_mapped_to_requested_static_archive_delta c) in
           _ ← assert (is_in_requested_static_archive (_builder c)
                         (load (buffer (_builder c)) p))
                      "new pointer must point inside requested archive" [];
           Ok c);
    Ok (set_max_non_null_offset c offset, true).

(** [RelocateBufferToRequested<STATIC_DUMP>::doit] *)
Definition doit (c : t) : result t :=
  '(c, _) ← iterate (fun c => _ptrmap (_builder c)) do_bit
                    0 (BitMap.size (_ptrmap (_builder c))) c;
  Ok (set_builder c (ArchivePtrMarker.compact (_builder c) (_max_non_null_offset c))).

End Relocate.

End RelocateBufferToRequested.

(** [ArchiveBuilder::relocate_to_requested] *)
Definition relocate_to_requested (vm : VM) (b : ArchiveBuilder) : result ArchiveBuilder :=
  let b := set_ro_region b (DumpRegion.pack (_ro_region b)) in
  let my_archive_size := wrap (buffer_top b - buffer_bottom b) in
  if DumpSharedSpaces vm then
    let b := set_requested_static_archive_top b
               (wrap (_requested_static_archive_bottom b + my_archive_size)) in
    c ← RelocateBufferToRequested.doit true (RelocateBufferToRequested.new b);
    Ok (RelocateBufferToRequested._builder c)
  else
    _ ← assert (DynamicDumpSharedSpaces vm) "must be" [];
    let b := set_requested_dynamic_archive_top b
               (wrap (_requested_dynamic_archive_bottom b + my_archive_size)) in
    c ← RelocateBufferToRequested.doit false (RelocateBufferToRequested.new b);
    Ok (RelocateBufferToRequested._builder c).

(** [ArchiveBuilder::ArchiveBuilder()]: the builder before any work (no dump
    space is current yet; [reserve_buffer] makes the read-write region
    current). *)
Definition new_builder : ArchiveBuilder :=
  mkArchiveBuilder rw 0 0 0 0 0 0 0 0 0 0 0
    (DumpRegion.new "rw") (DumpRegion.new "ro") (BitMap.make 0)
    SourceObjList.new SourceObjList.new ∅ ∅ [] [] 0 0 ∅.

(** ** The follow mode as the specification words it

    The ordered rule of the specification: an object already inside a
    previously produced archive is redirected to; otherwise an object the
    exclusion policy or a kind-specific rule marks unrepresentable is elided;
    otherwise the object is copied. *)
Section FollowModeRule.

Context (vm : VM).

Definition kind_specific_rule (ref : Ref) : bool :=
  match ref_msotype ref with
  | MethodDataType | MethodCountersType => true
  | _ => false
  end.

Definition excluded_by_policy (ref : Ref) : bool :=
  match ref_msotype ref with
  | ClassType => is_excluded vm (ref_obj ref)
  | _ => false
  end.

Definition follow_mode_rule (ref : Ref) : FollowMode :=
  if is_in_shared_metaspace vm (ref_obj ref) then point_to_it
  else if excluded_by_policy ref || kind_specific_rule ref then set_to_null
  else make_a_copy.

End FollowModeRule.

(** The bytes [verify_estimate_size] counts as used. *)
Definition used_since_last_verification (b : ArchiveBuilder) : Z :=
  wrap (wrap (DumpRegion._top (current_dump_space b) - _last_verified_top b)
        + _other_region_used_bytes b).

(** The address of the pointer field that bit [bit_offset] stands for, in the
    object copied at [buffered_obj] whose interval starts at [start_idx]
    ([ptr_loc] in [RelocateEmbeddedPointers::do_bit]). *)
Definition field_location (buffered_obj : address) (start_idx bit_offset : Z) : address :=
  wrap (buffered_obj + wrap (wrap (bit_offset - start_idx) * sizeof_address)).

(** The address of the word that bit [offset] of the marker's bitmap stands
    for ([p] in [RelocateBufferToRequested::do_bit]). *)
Definition word_location (b : ArchiveBuilder) (offset : Z) : address :=
  wrap (buffer_bottom b + sizeof_address * offset).

(** ** The phases of a build *)
Section Build.

Context (vm : VM).

(** [ArchiveBuilder::gather_source_objs].  [walk] stands for the walker: the
    references it visits, in order, for the roots pushed to it. *)
Definition gather_source_objs (b : ArchiveBuilder) (unique_refs : list (Ref * bool))
           (walk : ArchiveBuilder -> list address -> list (Ref * bool)) (roots : list address)
  : result (ArchiveBuilder * list (address * Z)) :=
  '(b, hashes) ← gather_klasses_and_symbols vm b unique_refs;
  b ← gather_refs vm b (walk b (iterate_sorted_roots b roots));
  Ok (b, hashes).

(** [ArchiveBuilder::dump_rw_metadata] (the tables of the module graph belong
    to the heap archive and are left out). *)
Definition dump_rw_metadata (b : ArchiveBuilder) : result ArchiveBuilder :=
  make_shallow_copies vm b rw false.

(** [ArchiveBuilder::dump_ro_metadata]; [record_regenerated_objects] records
    each pair of [RegeneratedClasses]. *)
Definition dump_ro_metadata (b : ArchiveBuilder) : result ArchiveBuilder :=
  let b := start_dump_space b ro in
  b ← make_shallow_copies vm b ro true;
  foldl (fun r pair => b ← r; record_regenerated_object b (fst pair) (snd pair))
        (Ok b) (regenerated_objects vm).

(** Modelled from the spec: the driver of a build is not part of this file.
    The control flow of the specification: the gatherer walks the roots, the
    copies are made into the regions, the relocator patches every marked
    pointer to buffer-relative form and then to requested form.  The result
    holds the regions, the buffer and the bitmap. *)
Definition build (b : ArchiveBuilder) (unique_refs : list (Ref * bool))
           (walk : ArchiveBuilder -> list address -> list (Ref * bool)) (roots : list address)
  : result (ArchiveBuilder * list (address * Z)) :=
  '(b, hashes) ← gather_source_objs b unique_refs walk roots;
  '(b, _) ← reserve_buffer vm b;
  b ← dump_rw_metadata b;
  b ← dump_ro_metadata b;
  b ← relocate_metaspaceobj_embedded_pointers b;
  b ← relocate_to_requested vm b;
  Ok (b, hashes).

(** The classes and the symbols one reference adds to the arrays in
    [gather_klass_and_symbol], and the bytes it adds to the estimate. *)
Definition is_gathered (ref : Ref) : bool :=
  negb (ref_obj ref =? 0) && FollowMode_eqb (get_follow_mode vm ref) make_a_copy.

Definition gathered_klass (ref : Ref) : list address :=
  if is_gathered ref && msotype_eqb (ref_msotype ref) ClassType
     && negb (is_excluded vm (ref_obj ref))
  then [ref_obj ref] else [].

Definition gathered_symbol (ref : Ref) : list address :=
  if is_gathered ref && msotype_eqb (ref_msotype ref) SymbolType
  then [ref_obj ref] else [].

Definition estimated_bytes (ref : Ref) : Z :=
  (if msotype_eqb (ref_msotype ref) ClassType
   then align_up BytesPerWord SharedSpaceObjectAlignment else 0)
  + align_up (wrap (as_int (ref_size ref * BytesPerWord))) SharedSpaceObjectAlignment.

Definition add_estimate (estimate : Z) (ref : Ref) : Z :=
  if is_gathered ref then wrap (estimate + estimated_bytes ref) else estimate.

(** [compare_klass_by_name] puts the class [k1] at or before the class [k2]. *)
Definition name_order (k1 k2 : address) : Prop :=
  fast_compare vm (klass_name vm k1) (klass_name vm k2) <= 0.

(** [fast_compare] orders the names of the classes of [klasses], and no two
    of these classes share a name. *)
Definition ordered_by_name (klasses : list address) : Prop :=
  (forall x y, x ∈ klasses -> y ∈ klasses -> name_order x y \/ name_order y x)
  /\ (forall x y z, x ∈ klasses -> y ∈ klasses -> z ∈ klasses ->
                    name_order x y -> name_order y z -> name_order x z)
  /\ (forall x y, x ∈ klasses -> y ∈ klasses ->
                  name_order x y -> name_order y x -> x = y).

End Build.

(** ** The layout at the time of the whole-buffer relocation *)

(** The closure of the whole-buffer relocation while it runs over the builder
    [b], the last non-null offset seen being [max_non_null_offset]. *)
Definition closure_over (b : ArchiveBuilder) (max_non_null_offset : Z)
  : RelocateBufferToRequested.t :=
  RelocateBufferToRequested.set_max_non_null_offset
    (RelocateBufferToRequested.new b) max_non_null_offset.

(** The requested bottom and top of the archive being written: those of the
    static archive in a static dump, of the dynamic archive otherwise. *)
Definition requested_bottom (STATIC_DUMP : bool) (b : ArchiveBuilder) : address :=
  if STATIC_DUMP then _requested_static_archive_bottom b
  else _requested_dynamic_archive_bottom b.

Definition requested_top (STATIC_DUMP : bool) (b : ArchiveBuilder) : address :=
  if STATIC_DUMP then _requested_static_archive_top b
  else _requested_dynamic_archive_top b.

Definition is_in_requested_archive (STATIC_DUMP : bool) (b : ArchiveBuilder) (p : address)
  : bool :=
  (requested_bottom STATIC_DUMP b <=? p) && (p <? requested_top STATIC_DUMP b).

(** The layout as [reserve_buffer] and [relocate_to_requested] leave it when
    the relocation starts: the delta is the distance from the bottom of the
    buffer to the requested bottom of the archive, the requested span of the
    archive is as long as the buffer and, when a static archive is extended,
    the requested span of the static archive is as long as its mapped span;
    no span wraps around the address space. *)
Definition layout_finalized (STATIC_DUMP : bool) (b : ArchiveBuilder) : Prop :=
  0 <= buffer_bottom b /\ buffer_bottom b <= buffer_top b /\ buffer_top b < 2 ^ 64
  /\ buffer_to_requested_delta b
     = as_intx (requested_bottom STATIC_DUMP b - buffer_bottom b)
  /\ 0 <= requested_bottom STATIC_DUMP b
  /\ requested_top STATIC_DUMP b
     = requested_bottom STATIC_DUMP b + (buffer_top b - buffer_bottom b)
  /\ requested_top STATIC_DUMP b < 2 ^ 64
  /\ (STATIC_DUMP = false ->
      0 <= _mapped_static_archive_bottom b
      /\ _mapped_static_archive_bottom b <= _mapped_static_archive_top b
      /\ _mapped_static_archive_top b < 2 ^ 64
      /\ 0 <= _requested_static_archive_bottom b
      /\ _requested_static_archive_top b
         = _requested_static_archive_bottom b
           + (_mapped_static_archive_top b - _mapped_static_archive_bottom b)
      /\ _requested_static_archive_top b < 2 ^ 64).

(** A pointer value the whole-buffer relocation has no span for: it is not
    null, it lies outside the buffer and, when a static archive is extended,
    outside the mapped static archive as well. *)
Definition is_stray_pointer (STATIC_DUMP : bool) (b : ArchiveBuilder) (v : address) : bool :=
  negb (v =? 0) && negb (is_in_buffer_space b v)
  && (STATIC_DUMP || negb (is_in_mapped_static_archive b v)).

(** The assertion of [RelocateBufferToRequested::do_bit] that a stray pointer
    fails. *)
Definition stray_pointer_message (STATIC_DUMP : bool) : string :=
  if STATIC_DUMP then "old pointer must point inside buffer space"
  else "old pointer must point inside buffer space or mapped static archive".

(** ** The intervals of a list of source objects *)

(** The appends made to one list, in order: the list, and the entries as the
    appends leave them. *)
Fixpoint append_all (l : SourceObjList.t) (infos : list SourceObjInfo.t)
  : result (SourceObjList.t * list SourceObjInfo.t) :=
  match infos with
  | [] => Ok (l, [])
  | i :: rest =>
      '(l, i) ← SourceObjList.append l i;
      '(l, rest) ← append_all l rest;
      Ok (l, i :: rest)
  end.

(** The bitmap intervals of [infos], taken in order, tile [from, to): the
    first starts at [from], each next one starts where the one before it
    ends, and the last ends at [to]. *)
Fixpoint tiles (from : Z) (infos : list SourceObjInfo.t) (to : Z) : Prop :=
  match infos with
  | [] => from = to
  | i :: rest =>
      SourceObjInfo._ptrmap_start i = from
      /\ from <= SourceObjInfo._ptrmap_end i
      /\ tiles (SourceObjInfo._ptrmap_end i) rest to
  end.

(** No interval of [infos] overlaps a later one. *)
Definition disjoint_intervals (infos : list SourceObjInfo.t) : Prop :=
  forall (j k : nat) (ij ik : SourceObjInfo.t),
    (j < k)%nat -> infos !! j = Some ij -> infos !! k = Some ik ->
    SourceObjInfo._ptrmap_end ij <= SourceObjInfo._ptrmap_start ik.

(** The bytes of the objects of [infos], together. *)
Definition total_size (infos : list SourceObjInfo.t) : Z :=
  foldr (fun i n => SourceObjInfo._size_in_bytes i + n) 0 infos.

(** An entry as [gather_one_source_obj] makes it for a reference to an object
    of [ref_size] words, whose size in bytes fits the [int] that holds it. *)
Definition made_from_ref (i : SourceObjInfo.t) : Prop :=
  exists (ref : Ref) (read_only : bool) (follow_mode : FollowMode),
    i = SourceObjInfo.of_ref ref read_only follow_mode
    /\ 0 <= ref_size ref /\ ref_size ref * BytesPerWord < 2 ^ 31.

(** ** Addresses across the spaces *)

(** [ArchiveBuilder::get_source_addr] *)
Definition get_source_addr (b : ArchiveBuilder) (buffered_addr : address) : result address :=
  _ ← assert (is_in_buffer_space b buffered_addr) "must be" [];
  match _buffered_to_src_table b !! buffered_addr with
  | None => Fatal (AssertFailed "must be" [])
  | Some src =>
      _ ← assert (negb (src =? 0)) "must be" [];
      Ok src
  end.

(** Modelled from the spec: [to_requested] is declared in archiveBuilder.hpp,
    which is not part of this file.  The builder's delta is the signed offset
    of the spec's address-delta set that converts buffer coordinates to
    requested coordinates: it is added to an address of the buffer. *)
Definition to_requested (b : ArchiveBuilder) (p : address) : address :=
  wrap (p + buffer_to_requested_delta b).

(** [ArchiveBuilder::buffer_to_offset] *)
Definition buffer_to_offset (b : ArchiveBuilder) (p : address) : result Z :=
  let requested_p := to_requested b p in
  _ ← assert (_requested_static_archive_bottom b <=? requested_p) "must be" [];
  Ok (wrap (requested_p - _requested_static_archive_bottom b)).

(** [ArchiveBuilder::any_to_offset] *)
Definition any_to_offset (vm : VM) (b : ArchiveBuilder) (p : address) : result Z :=
  if is_in_mapped_static_archive b p then
    _ ← assert (DynamicDumpSharedSpaces vm) "must be" [];
    Ok (wrap (p - _mapped_static_archive_bottom b))
  else
    p ← (if negb (is_in_buffer_space b p) then get_buffered_addr b p else Ok p);
    buffer_to_offset b p.

(** ** What the gathering keeps true *)

(** The objects listed for copying, those of the read-write region first. *)
Definition listed (b : ArchiveBuilder) : list address :=
  SourceObjList._objs (_rw_src_objs b) ++ SourceObjList._objs (_ro_src_objs b).

(** No object is listed twice; a listed object has its entry in the table,
    under its own address, to be copied, and is in the list its read-only
    flag names; and every entry of the table that is to be copied is
    listed. *)
Definition lists_agree_with_table (b : ArchiveBuilder) : Prop :=
  NoDup (listed b)
  /\ (forall k, k ∈ listed b ->
        exists e, _src_obj_table b !! k = Some e
                  /\ SourceObjInfo._source_addr e = k
                  /\ SourceObjInfo.should_copy e = true
                  /\ k ∈ SourceObjList._objs (src_objs b (SourceObjInfo._read_only e)))
  /\ (forall k e, _src_obj_table b !! k = Some e ->
        SourceObjInfo.should_copy e = true -> k ∈ listed b).

(** ** The layout of the copies *)

(** The bytes [make_shallow_copy] allocates in front of the copy of an
    object: one word in front of an [InstanceKlass], for the pointer to its
    [RunTimeClassInfo]. *)
Definition prefix_bytes (vm : VM) (info : SourceObjInfo.t) : Z :=
  if msotype_eqb (SourceObjInfo._msotype info) ClassType then
    match klass_kind vm (SourceObjInfo._source_addr info) with
    | InstanceKlass => 8
    | _ => 0
    end
  else 0.

(** A region as the allocations leave it: its top is word-aligned and within
    its reserved end, and the region does not wrap around the address
    space. *)
Definition region_ready (r : DumpRegion.t) : Prop :=
  0 <= DumpRegion._top r /\ DumpRegion._top r mod 8 = 0
  /\ DumpRegion._top r <= DumpRegion._end r /\ DumpRegion._end r < 2 ^ 64.

(** The copy of the object [k1] ends at or before the start of the copy of
    the object [k2]. *)
Definition copied_before (b : ArchiveBuilder) (k1 k2 : address) : Prop :=
  exists e1 e2,
    _src_obj_table b !! k1 = Some e1 /\ _src_obj_table b !! k2 = Some e2
    /\ SourceObjInfo._buffered_addr e1 + SourceObjInfo._size_in_bytes e1
       <= SourceObjInfo._buffered_addr e2.

(** [b'] is [b] but for the words of the buffer and the marker's bitmap. *)
Definition same_but_buffer_and_bitmap (b b' : ArchiveBuilder) : Prop :=
  b' = set_ptrmap (set_buffer b (buffer b')) (_ptrmap b').

(** The object [k] as the gathering and the copying leave it: it has an
    entry that is to be copied, the entry's interval of the list's pointer
    bitmap has one bit for each word of the object, and the copy lies within
    the address space. *)
Definition copied_object (b : ArchiveBuilder) (k : address) : Prop :=
  exists e,
    _src_obj_table b !! k = Some e
    /\ SourceObjInfo.should_copy e = true
    /\ 0 <= SourceObjInfo._ptrmap_start e <= SourceObjInfo._ptrmap_end e
    /\ 8 * SourceObjInfo._ptrmap_end e
       = 8 * SourceObjInfo._ptrmap_start e + SourceObjInfo._size_in_bytes e
    /\ 0 <= SourceObjInfo._buffered_addr e
    /\ SourceObjInfo._buffered_addr e + SourceObjInfo._size_in_bytes e < 2 ^ 64.

(** The address, in the copy of the object [k], of the field the bit [j] of
    the list's pointer bitmap stands for. *)
Definition field_of (b : ArchiveBuilder) (k : address) (j : Z) : address :=
  field_location (SourceObjInfo._buffered_addr (_src_obj_table b !!! k))
                 (SourceObjInfo._ptrmap_start (_src_obj_table b !!! k)) j.

(** The bit [j] lies in the interval of the object [k] and is set: it marks
    an embedded pointer of [k]. *)
Definition marked_field (b : ArchiveBuilder) (read_only : bool) (k : address) (j : Z) : Prop :=
  SourceObjInfo._ptrmap_start (_src_obj_table b !!! k) <= j
  < SourceObjInfo._ptrmap_end (_src_obj_table b !!! k)
  /\ BitMap.at_ (SourceObjList._ptrmap (src_objs b read_only)) j = true.

(** ** A small build, used to run the definitions

    A static dump of three objects in a chain: [A] (two words, at 0x1000) has
    a pointer to [B] at offset 8, [B] (one word, at 0x2000) has a pointer to
    [C] at offset 0, [C] (one word, at 0x3000) has none.  The buffer is
    reserved at 0x7f0000000000 and requested at 0x800000000. *)
Module Scenario.

Definition compare_address (a b : address) : Z :=
  if a <? b then -1 else if a =? b then 0 else 1.

Definition vm : VM :=
  mkVM true false (fun _ => false) 0x800000000 4096 0 0
       (fun _ => OtherKlass) (fun _ => false) (fun k => k) compare_address
       (fun _ => false) (fun _ => 0) 0 0 2 (fun _ => Some 0x7f0000000000)
       (fun a => if a =? 0x1008 then 0x2000 else if a =? 0x2000 then 0x3000 else 0)
       (fun _ _ => 0) (fun _ => true) (fun seed => (16807 * seed) mod 2147483647) [].

(** The same process, in which the object at 0x4000 is recorded as
    regenerated. *)
Definition vm_regenerated : VM :=
  mkVM true false (fun _ => false) 0x800000000 4096 0 0
       (fun _ => OtherKlass) (fun _ => false) (fun k => k) compare_address
       (fun a => a =? 0x4000) (fun _ => 0) 0 0 2 (fun _ => Some 0x7f0000000000)
       (fun a => if a =? 0x1008 then 0x2000 else if a =? 0x2000 then 0x3000 else 0)
       (fun _ _ => 0) (fun _ => true) (fun seed => (16807 * seed) mod 2147483647) [].

(** The same process, asked to place the archive 4096 bytes below the top of
    the address space. *)
Definition vm_high_base : VM :=
  mkVM true false (fun _ => false) 0xFFFFFFFFFFFFF000 4096 0 0
       (fun _ => OtherKlass) (fun _ => false) (fun k => k) compare_address
       (fun _ => false) (fun _ => 0) 0 0 2 (fun _ => Some 0x7f0000000000)
       (fun a => if a =? 0x1008 then 0x2000 else if a =? 0x2000 then 0x3000 else 0)
       (fun _ _ => 0) (fun _ => true) (fun seed => (16807 * seed) mod 2147483647) [].

(** Two symbols and a class, as the tables may enumerate them. *)
Definition symbol1 : Ref := mkRef 0x6000 0x700 0 SymbolType 2.
Definition symbol2 : Ref := mkRef 0x6100 0x708 0 SymbolType 3.
Definition klass1 : Ref := mkRef 0x5000 0x710 0 ClassType 20.

(** A process in which the two classes at 0x5000 and 0x5100 (one word each,
    holding 0xAAAA and 0xBBBB) have the same name, the symbol at 0x9000:
    [fast_compare] answers 0 for them, in both orders. *)
Definition vm_same_name : VM :=
  mkVM true false (fun _ => false) 0x800000000 4096 0 0
       (fun _ => OtherKlass) (fun _ => false) (fun _ => 0x9000) compare_address
       (fun _ => false) (fun _ => 0) 0 0 2 (fun _ => Some 0x7f0000000000)
       (fun a => if a =? 0x5000 then 0xAAAA else if a =? 0x5100 then 0xBBBB else 0)
       (fun _ _ => 0) (fun _ => true) (fun seed => (16807 * seed) mod 2147483647) [].

Definition klassA : Ref := mkRef 0x5000 0x720 0 ClassType 1.
Definition klassB : Ref := mkRef 0x5100 0x728 0 ClassType 1.

(** A walker that visits the roots pushed to it, each a class of one word
    with no pointer in it. *)
Definition visit_roots (b : ArchiveBuilder) (roots : list address) : list (Ref * bool) :=
  map (fun k => (mkRef k 0 0 ClassType 1, false)) roots.

(** The word at the start of the first object of the read-write region, at
    the end of a build. *)
Definition first_object_word (r : result (ArchiveBuilder * list (address * Z))) : Z :=
  match r with
  | Ok (b, _) => load (buffer b) 0x7f0000000010
  | Fatal _ => 0
  end.

(** A process in which the object [D] (one word, at 0xD000) points to the
    class at 0xE000, which the exclusion policy excludes. *)
Definition vm_excluded : VM :=
  mkVM true false (fun _ => false) 0x800000000 4096 0 0
       (fun k => if k =? 0xE000 then InstanceKlass else OtherKlass)
       (fun k => k =? 0xE000) (fun k => k) compare_address
       (fun _ => false) (fun _ => 0) 0 0 2 (fun _ => Some 0x7f0000000000)
       (fun a => if a =? 0xD000 then 0xE000 else 0)
       (fun _ _ => 0) (fun _ => true) (fun seed => (16807 * seed) mod 2147483647) [].

Definition refD : Ref := mkRef 0xD000 0x500 0 OtherType 1.
Definition refE : Ref := mkRef 0xE000 0xD000 0xD000 ClassType 4.

(** The builder at the end of a build, if the build succeeds. *)
Definition built (r : result (ArchiveBuilder * list (address * Z))) : option ArchiveBuilder :=
  match r with
  | Ok (b, _) => Some b
  | Fatal _ => None
  end.

Definition refA : Ref := mkRef 0x1000 0x500 0 OtherType 2.
Definition refB : Ref := mkRef 0x2000 0x1008 0x1000 OtherType 1.
Definition refC : Ref := mkRef 0x3000 0x2000 0x2000 OtherType 1.

Definition get (r : result ArchiveBuilder) : ArchiveBuilder :=
  match r with Ok b => b | Fatal _ => new_builder end.

(** The builder once the buffer is reserved. *)
Definition reserved : result ArchiveBuilder :=
  '(b, _) ← reserve_buffer vm new_builder; Ok b.

(** ... once [A] is gathered, and once [A] and [B] are. *)
Definition gatheredA : ArchiveBuilder :=
  get (b ← reserved; gather_refs vm b [(refA, false)]).

Definition gatheredAB : ArchiveBuilder :=
  get (b ← reserved; gather_refs vm b [(refA, false); (refB, false)]).

(** A process in which both words of [A] point to [B]: [B] is reached a
    second time through the first word of [A]. *)
Definition vm_two_paths : VM :=
  mkVM true false (fun _ => false) 0x800000000 4096 0 0
       (fun _ => OtherKlass) (fun _ => false) (fun k => k) compare_address
       (fun _ => false) (fun _ => 0) 0 0 2 (fun _ => Some 0x7f0000000000)
       (fun a => if (a =? 0x1000) || (a =? 0x1008) then 0x2000 else 0)
       (fun _ _ => 0) (fun _ => true) (fun seed => (16807 * seed) mod 2147483647) [].

Definition refB_again : Ref := mkRef 0x2000 0x1000 0x1000 OtherType 1.

(** The builder of that process once [A] and [B] are gathered, and once [B]
    is visited again. *)
Definition gathered_two_paths : ArchiveBuilder :=
  get (gather_refs vm_two_paths new_builder
                  [(refA, false); (refB, false)]).

Definition revisited : ArchiveBuilder :=
  get ('(b, _) ← gather_one_source_obj vm_two_paths gathered_two_paths
                              refB_again false;
                Ok b).
(** ... once the three objects are gathered ([C] as read-only). *)
Definition gathered : result ArchiveBuilder :=
  b ← reserved;
  gather_refs vm b [(refA, false); (refB, false); (refC, true)].

(** ... once they are copied, their embedded pointers still as in the
    sources. *)
Definition shallow_copied : ArchiveBuilder :=
  get (b ← gathered;
       b ← make_shallow_copies vm b rw false;
       make_shallow_copies vm (start_dump_space b ro) ro true).

(** ... once they are copied and their embedded pointers relocated. *)
Definition copied : result ArchiveBuilder :=
  b ← gathered;
  b ← make_shallow_copies vm b rw false;
  b ← make_shallow_copies vm (start_dump_space b ro) ro true;
  relocate_metaspaceobj_embedded_pointers b.

(** ... once the last region is packed and the requested top is set: the
    builder the whole-buffer relocation starts from. *)
Definition packed : ArchiveBuilder :=
  let b := get copied in
  let b := set_ro_region b (DumpRegion.pack (_ro_region b)) in
  set_requested_static_archive_top b
    (wrap (_requested_static_archive_bottom b + wrap (buffer_top b - buffer_bottom b))).

(** The closure once it has relocated the whole buffer. *)
Definition relocated_closure : RelocateBufferToRequested.t :=
  match RelocateBufferToRequested.doit true (RelocateBufferToRequested.new packed) with
  | Ok c => c
  | Fatal _ => RelocateBufferToRequested.new packed
  end.

(** ... once the whole buffer is relocated. *)
Definition relocated : result ArchiveBuilder :=
  b ← copied;
  relocate_to_requested vm b.

End Scenario.

(** ** A small dynamic dump, used to run the definitions

    A dynamic dump on top of a static archive that is mapped at
    [0x7e0000000000, 0x7e0000003000) and requested at 0x800000000; the buffer
    is reserved at 0x7f0000000000.  The class at 0x5000 is a class of object
    arrays. *)
Module DynamicScenario.

Definition vm : VM :=
  mkVM false true (fun a => (0x7e0000000000 <=? a) && (a <? 0x7e0000003000))
       0x800000000 4096 0x7e0000000000 0x7e0000003000
       (fun k => if k =? 0x5000 then ObjArrayKlass 0x5100 else OtherKlass)
       (fun _ => false) (fun k => k) Scenario.compare_address
       (fun _ => false) (fun _ => 0) 0 0 2 (fun _ => Some 0x7f0000000000)
       (fun _ => 0) (fun _ _ => 0) (fun _ => true)
       (fun seed => (16807 * seed) mod 2147483647) [].

Definition array_klass : Ref := mkRef 0x5000 0x720 0 ClassType 4.

(** The builder once the buffer is reserved. *)
Definition reserved : ArchiveBuilder :=
  Scenario.get ('(b, _) ← reserve_buffer vm new_builder; Ok b).

(** ... once the object [A] of two words is gathered, copied and the buffer
    relocated. *)
Definition relocated : ArchiveBuilder :=
  Scenario.get (b ← gather_refs vm reserved [(Scenario.refA, false)];
                b ← make_shallow_copies vm b rw false;
                relocate_to_requested vm b).

(** The same dump of a process in which the second word of [A] points to
    the object at 0x7e0000000100 of the mapped static archive. *)
Definition vm_extending : VM :=
  mkVM false true (fun a => (0x7e0000000000 <=? a) && (a <? 0x7e0000003000))
       0x800000000 4096 0x7e0000000000 0x7e0000003000
       (fun _ => OtherKlass) (fun _ => false) (fun k => k) Scenario.compare_address
       (fun _ => false) (fun _ => 0) 0 0 2 (fun _ => Some 0x7f0000000000)
       (fun a => if a =? 0x1008 then 0x7e0000000100 else 0) (fun _ _ => 0) (fun _ => true)
       (fun seed => (16807 * seed) mod 2147483647) [].

Definition archived : Ref := mkRef 0x7e0000000100 0x1008 0x1000 OtherType 1.

(** The builder of that dump once [A] and the reference to the archived
    object are gathered, [A] is copied, its embedded pointer relocated, the
    last region packed and the requested top set: the builder the
    whole-buffer relocation starts from. *)
Definition packed : ArchiveBuilder :=
  let b := Scenario.get ('(b, _) ← reserve_buffer vm_extending new_builder;
                         b ← gather_refs vm_extending b
                               [(Scenario.refA, false); (archived, false)];
                         b ← make_shallow_copies vm_extending b rw false;
                         relocate_metaspaceobj_embedded_pointers b) in
  let b := set_ro_region b (DumpRegion.pack (_ro_region b)) in
  set_requested_dynamic_archive_top b
    (wrap (_requested_dynamic_archive_bottom b + wrap (buffer_top b - buffer_bottom b))).

End DynamicScenario.

(** * Properties *)

(** ** Words and alignment *)

Lemma wrap_small (x : Z) : 0 <= x < 2 ^ 64 -> wrap x = x.
Proof. intros H. unfold wrap. apply Z.mod_small. exact H. Qed.

Lemma wrap_range (x : Z) : 0 <= wrap x < 2 ^ 64.
Proof. unfold wrap. apply Z.mod_pos_bound. lia. Qed.

Lemma as_int_small (x : Z) : - 2 ^ 31 <= x < 2 ^ 31 -> as_int x = x.
Proof. intros H. unfold as_int. rewrite Z.mod_small by lia. lia. Qed.

Lemma align_down_8 (x : Z) : align_down x 8 = 8 * (x / 8).
Proof.
  unfold align_down, alignment_mask.
  change (8 - 1) with (Z.ones 3).
  rewrite <- Z.ldiff_land, Z.ldiff_ones_r by lia.
  rewrite Z.shiftr_div_pow2, Z.shiftl_mul_pow2 by lia.
  change (2 ^ 3) with 8. lia.
Qed.

Lemma is_aligned_8 (x : Z) : is_aligned x 8 = true <-> x mod 8 = 0.
Proof.
  unfold is_aligned, alignment_mask.
  change (8 - 1) with (Z.ones 3).
  rewrite Z.land_ones by lia. change (2 ^ 3) with 8.
  apply Z.eqb_eq.
Qed.

Lemma align_up_8_aligned (x : Z) :
  0 <= x -> x + 7 < 2 ^ 64 -> x mod 8 = 0 -> align_up x 8 = x.
Proof.
  intros H0 Hlt Hm. unfold align_up, alignment_mask. rewrite wrap_small by lia.
  rewrite align_down_8.
  pose proof (Z.div_mod x 8 ltac:(lia)).
  assert ((x + (8 - 1)) / 8 = x / 8) as ->; [ | lia ].
  replace (x + (8 - 1)) with (7 + (x / 8) * 8) by lia.
  rewrite Z.div_add by lia. reflexivity.
Qed.

(** ** Follow modes *)

Lemma msotype_eqb_eq (a b : MetaspaceObjType) : msotype_eqb a b = true <-> a = b.
Proof. destruct a, b; simpl; split; intros H; try reflexivity; discriminate. Qed.

Lemma FollowMode_eqb_eq (a b : FollowMode) : FollowMode_eqb a b = true <-> a = b.
Proof. destruct a, b; simpl; split; intros H; try reflexivity; discriminate. Qed.

Lemma get_follow_mode_rule (vm : VM) (ref : Ref) :
  get_follow_mode vm ref = follow_mode_rule vm ref.
Proof.
  unfold get_follow_mode, follow_mode_rule, excluded_by_policy, kind_specific_rule.
  destruct (is_in_shared_metaspace vm (ref_obj ref)); [ reflexivity | ].
  destruct (ref_msotype ref); simpl; try reflexivity;
    destruct (is_excluded vm (ref_obj ref)); reflexivity.
Qed.

(** ** The error monad *)

Lemma bind_Ok_inv {A B : Type} (r : result A) (k : A -> result B) (v : B) :
  mbind k r = Ok v -> exists a, r = Ok a /\ k a = Ok v.
Proof. destruct r as [a | f]; simpl; intros H; [ eauto | discriminate ]. Qed.

Lemma assert_Ok_inv (c : bool) (msg : string) (args : list Z) (u : unit) :
  assert c msg args = Ok u -> c = true.
Proof. destruct c; simpl; [ reflexivity | discriminate ]. Qed.

(** Splits a hypothesis [x ← r; k = Ok v] into [r = Ok a] and [k a = Ok v],
    and an [assert] that passed into its condition. *)
Ltac inv_bind H :=
  let a := fresh "a" in
  let Ha := fresh "Ha" in
  apply bind_Ok_inv in H; destruct H as (a & Ha & H);
  try (apply assert_Ok_inv in Ha).

(** ** The builder's record *)

Lemma set_src_obj_table_same (b : ArchiveBuilder) :
  set_src_obj_table b (_src_obj_table b) = b.
Proof. destruct b; reflexivity. Qed.

(** ** Gathering: one visit *)
Section GatherFacts.

Context (vm : VM).

(** Recording an embedded pointer touches nothing but the pointer bitmap of
    one of the two lists. *)
Lemma remember_embedded_pointer_frame (l l' : SourceObjList.t)
      (src_info : SourceObjInfo.t) (ref : Ref) :
  SourceObjList.remember_embedded_pointer l src_info ref = Ok l' ->
  SourceObjList._objs l' = SourceObjList._objs l
  /\ SourceObjList._total_bytes l' = SourceObjList._total_bytes l
  /\ BitMap.size (SourceObjList._ptrmap l') = BitMap.size (SourceObjList._ptrmap l).
Proof.
  unfold SourceObjList.remember_embedded_pointer. intros H.
  do 6 inv_bind H. injection H as <-. simpl. auto.
Qed.

Lemma remember_in_enclosing_frame (b b' : ArchiveBuilder) (ref : Ref) :
  remember_embedded_pointer_in_enclosing_obj b ref = Ok b' ->
  _src_obj_table b' = _src_obj_table b
  /\ SourceObjList._objs (_rw_src_objs b') = SourceObjList._objs (_rw_src_objs b)
  /\ SourceObjList._objs (_ro_src_objs b') = SourceObjList._objs (_ro_src_objs b)
  /\ SourceObjList._total_bytes (_rw_src_objs b') = SourceObjList._total_bytes (_rw_src_objs b)
  /\ SourceObjList._total_bytes (_ro_src_objs b') = SourceObjList._total_bytes (_ro_src_objs b)
  /\ buffer b' = buffer b /\ _ptrmap b' = _ptrmap b
  /\ _buffered_to_src_table b' = _buffered_to_src_table b.
Proof.
  unfold remember_embedded_pointer_in_enclosing_obj. intros H. inv_bind H.
  destruct (ref_enclosing_obj ref =? 0); [ injection H as <-; tauto | ].
  destruct (_src_obj_table b !! ref_enclosing_obj ref) as [src_info | ];
    [ | injection H as <-; tauto ].
  destruct (negb (SourceObjInfo.should_copy src_info)); [ injection H as <-; tauto | ].
  destruct (SourceObjInfo._read_only src_info); inv_bind H; injection H as <-;
    apply remember_embedded_pointer_frame in Ha0; destruct b; simpl in *; tauto.
Qed.

Lemma put_if_absent_present {V : Type} (tbl : gmap address V) (k : address) (v e : V) :
  tbl !! k = Some e -> put_if_absent tbl k v = (tbl, e, false).
Proof. intros H. unfold put_if_absent. rewrite H. reflexivity. Qed.

Lemma put_if_absent_absent {V : Type} (tbl : gmap address V) (k : address) (v : V) :
  tbl !! k = None -> put_if_absent tbl k v = (<[k := v]> tbl, v, true).
Proof. intros H. unfold put_if_absent. rewrite H. reflexivity. Qed.

(** [append] writes the interval into the entry and nothing else. *)
Lemma append_entry (l l' : SourceObjList.t) (p p' : SourceObjInfo.t) :
  SourceObjList.append l p = Ok (l', p') ->
  SourceObjInfo._source_addr p' = SourceObjInfo._source_addr p
  /\ SourceObjInfo._follow_mode p' = SourceObjInfo._follow_mode p
  /\ SourceObjInfo._read_only p' = SourceObjInfo._read_only p
  /\ SourceObjInfo._size_in_bytes p' = SourceObjInfo._size_in_bytes p
  /\ SourceObjInfo._buffered_addr p' = SourceObjInfo._buffered_addr p
  /\ SourceObjList._objs l' = SourceObjList._objs l ++ [SourceObjInfo._source_addr p].
Proof.
  unfold SourceObjList.append. intros H. inv_bind H. injection H as <- <-.
  simpl. tauto.
Qed.

(** A visit of an address the table already holds. *)
Lemma gather_again (b b' : ArchiveBuilder) (ref : Ref) (read_only recurse : bool)
      (e : SourceObjInfo.t) :
  ref_obj ref <> 0 -> has_been_regenerated vm (ref_obj ref) = false ->
  _src_obj_table b !! ref_obj ref = Some e ->
  gather_one_source_obj vm b ref read_only = Ok (b', recurse) ->
  recurse = false /\ remember_embedded_pointer_in_enclosing_obj b ref = Ok b'.
Proof.
  intros Hnz Hreg He H. unfold gather_one_source_obj in H.
  apply Z.eqb_neq in Hnz. rewrite Hnz, Hreg in H.
  inv_bind H. pose proof (remember_in_enclosing_frame _ _ _ Ha) as (Ht & _).
  rewrite (put_if_absent_present _ _ _ e) in H by (rewrite Ht; exact He).
  rewrite set_src_obj_table_same in H.
  do 2 inv_bind H. simpl in H. injection H as <- <-. auto.
Qed.

(** The first visit of an address. *)
Lemma gather_first (b b' : ArchiveBuilder) (ref : Ref) (read_only recurse : bool) :
  ref_obj ref <> 0 -> has_been_regenerated vm (ref_obj ref) = false ->
  _src_obj_table b !! ref_obj ref = None ->
  gather_one_source_obj vm b ref read_only = Ok (b', recurse) ->
  exists e,
    _src_obj_table b' = <[ref_obj ref := e]> (_src_obj_table b)
    /\ SourceObjInfo._source_addr e = ref_obj ref
    /\ SourceObjInfo._follow_mode e = get_follow_mode vm ref
    /\ SourceObjInfo._read_only e = read_only
    /\ recurse = SourceObjInfo.should_copy e.
Proof.
  intros Hnz Hreg He H. unfold gather_one_source_obj in H.
  apply Z.eqb_neq in Hnz. rewrite Hnz, Hreg in H.
  inv_bind H. pose proof (remember_in_enclosing_frame _ _ _ Ha) as (Ht & _).
  rewrite put_if_absent_absent in H by (rewrite Ht; exact He).
  do 2 inv_bind H. rewrite andb_true_l in H.
  set (info := SourceObjInfo.of_ref ref read_only (get_follow_mode vm ref)) in *.
  destruct (SourceObjInfo.should_copy info) eqn:Hcopy.
  - destruct read_only; inv_bind H; destruct a2 as [l p]; injection H as <- <-;
      apply append_entry in Ha2; destruct Ha2 as (Hs & Hf & Hr & _);
      exists p; simpl; rewrite insert_insert_eq, Ht;
      (split; [ reflexivity | ]); rewrite Hs, Hf, Hr;
      unfold SourceObjInfo.should_copy; rewrite Hf; auto.
  - injection H as <- <-. exists info. simpl. rewrite Ht. auto.
Qed.

End GatherFacts.

(** C2. The follow mode of a discovered reference is decided by the ordered
    rule of the specification: an object already inside a previously produced
    shared archive is [point_to_it]; otherwise an object that the exclusion
    policy or a kind-specific rule marks unrepresentable is [set_to_null];
    otherwise it is [make_a_copy].  Only objects to be copied are recursed
    into: both gathering passes answer "recurse" to the walker only for a
    reference whose follow mode is [make_a_copy]. *)
Theorem C2_follow_mode_ordered_rule (vm : VM) (ref : Ref) :
  get_follow_mode vm ref = follow_mode_rule vm ref
  /\ (forall b b' read_only,
        gather_one_source_obj vm b ref read_only = Ok (b', true) ->
        get_follow_mode vm ref = make_a_copy)
  /\ (forall b b' read_only,
        gather_klass_and_symbol vm b ref read_only = (b', true) ->
        get_follow_mode vm ref = make_a_copy).
Proof.
  split; [ apply get_follow_mode_rule | split ].
  - intros b b' read_only H.
    destruct (ref_obj ref =? 0) eqn:Hz.
    { unfold gather_one_source_obj in H. rewrite Hz in H. discriminate. }
    destruct (has_been_regenerated vm (ref_obj ref)) eqn:Hreg.
    { unfold gather_one_source_obj in H. rewrite Hz, Hreg in H. discriminate. }
    apply Z.eqb_neq in Hz.
    destruct (_src_obj_table b !! ref_obj ref) as [e | ] eqn:He.
    + destruct (gather_again vm _ _ _ _ _ e Hz Hreg He H) as (Hf & _). discriminate.
    + destruct (gather_first vm _ _ _ _ _ Hz Hreg He H) as (e & _ & _ & Hm & _ & Hc).
      rewrite <- Hm. apply FollowMode_eqb_eq. symmetry. exact Hc.
  - intros b b' read_only H. unfold gather_klass_and_symbol in H.
    destruct (ref_obj ref =? 0); [ discriminate | ].
    destruct (FollowMode_eqb (get_follow_mode vm ref) make_a_copy) eqn:Hm;
      [ | discriminate ].
    apply FollowMode_eqb_eq. exact Hm.
Qed.

Lemma C2_follow_mode_ordered_rule_witness :
  get_follow_mode Scenario.vm Scenario.refA = make_a_copy.
Proof.
  eapply (proj1 (proj2 (C2_follow_mode_ordered_rule Scenario.vm Scenario.refA))
            new_builder _ false).
  vm_compute. reflexivity.
Defined.

(** What recording an embedded pointer does to the builder. *)
Lemma remember_in_enclosing_effect (b b' : ArchiveBuilder) (ref : Ref) :
  remember_embedded_pointer_in_enclosing_obj b ref = Ok b' ->
  (ref_enclosing_obj ref = 0
   \/ _src_obj_table b !! ref_enclosing_obj ref = None
   \/ (exists enclosing,
         _src_obj_table b !! ref_enclosing_obj ref = Some enclosing
         /\ SourceObjInfo.should_copy enclosing = false) ->
   b' = b)
  /\ (forall enclosing,
        ref_enclosing_obj ref <> 0 ->
        _src_obj_table b !! ref_enclosing_obj ref = Some enclosing ->
        SourceObjInfo.should_copy enclosing = true ->
        let l := src_objs b (SourceObjInfo._read_only enclosing) in
        let offset := as_intx (ref_addr ref - SourceObjInfo._source_addr enclosing) in
        let idx := wrap (SourceObjInfo._ptrmap_start enclosing + offset / sizeof_address) in
        (0 <= offset /\ offset + 8 <= SourceObjInfo._size_in_bytes enclosing
         /\ offset mod 8 = 0)
        /\ src_objs b' (SourceObjInfo._read_only enclosing)
           = SourceObjList.mk (SourceObjList._total_bytes l) (SourceObjList._objs l)
               (BitMap.set_bit (SourceObjList._ptrmap l) idx)
        /\ src_objs b' (negb (SourceObjInfo._read_only enclosing))
           = src_objs b (negb (SourceObjInfo._read_only enclosing))
        /\ b' = (if SourceObjInfo._read_only enclosing
                 then set_ro_src_objs b (src_objs b' true)
                 else set_rw_src_objs b (src_objs b' false))).
Proof.
  unfold remember_embedded_pointer_in_enclosing_obj. intros H. inv_bind H. split.
  - intros [E | [E | (enclosing & E & Hc)]].
    + apply Z.eqb_eq in E. rewrite E in H. injection H as <-. reflexivity.
    + rewrite E in H. destruct (ref_enclosing_obj ref =? 0); injection H as <-; reflexivity.
    + rewrite E, Hc in H. simpl in H.
      destruct (ref_enclosing_obj ref =? 0); injection H as <-; reflexivity.
  - intros enclosing Hnz E Hc. cbv zeta.
    set (l := src_objs b (SourceObjInfo._read_only enclosing)).
    set (offset := as_intx (ref_addr ref - SourceObjInfo._source_addr enclosing)).
    set (idx := wrap (SourceObjInfo._ptrmap_start enclosing + offset / sizeof_address)).
    apply Z.eqb_neq in Hnz. rewrite Hnz, E, Hc in H. simpl in H.
    assert (Hl : forall l0 l',
               SourceObjList.remember_embedded_pointer l0 enclosing ref = Ok l' ->
               (0 <= offset /\ offset + 8 <= SourceObjInfo._size_in_bytes enclosing
                /\ offset mod 8 = 0)
               /\ l' = SourceObjList.mk (SourceObjList._total_bytes l0) (SourceObjList._objs l0)
                         (BitMap.set_bit (SourceObjList._ptrmap l0) idx)).
    { intros l0 l' Hrem. unfold SourceObjList.remember_embedded_pointer in Hrem.
      do 6 inv_bind Hrem. injection Hrem as <-.
      repeat match goal with
             | Hle : (_ <=? _) = true |- _ => apply Z.leb_le in Hle
             | Hal : is_aligned _ _ = true |- _ => apply is_aligned_8 in Hal
             end.
      split; [ repeat split; assumption | reflexivity ]. }
    unfold l, src_objs.
    destruct (SourceObjInfo._read_only enclosing); inv_bind H; injection H as <-;
      destruct (Hl _ _ Ha0) as (Hfield & ->);
      (split; [ exact Hfield | ]); destruct b; simpl; repeat split; reflexivity.
Qed.

(** C3. The table holds one entry per source address.  The first visit of an
    address creates the entry (the table grows by that one entry) and fixes
    its classification and its region.  A later visit of the same address
    creates no entry, leaves the table, hence the classification and region
    of every entry, as it is, answers the walker not to recurse, and does
    nothing but record the location of the embedded pointer: when the
    pointer is a field of an object that is being copied, the field is a
    whole word of that object and its bit is set in the pointer bitmap of the
    list the object is in, the bit at the object's first bit plus the word
    offset of the field, nothing else of that list changing; the other list,
    the buffer and the marker's bitmap are as before, and the builder differs
    from the one before the visit in that list only.  When the pointer is a
    root or a field of an object that is not copied, the visit leaves the
    builder exactly as it was. *)
Theorem C3_one_entry_per_source_address
        (vm : VM) (b b' : ArchiveBuilder) (ref : Ref) (read_only recurse : bool) :
  ref_obj ref <> 0 -> has_been_regenerated vm (ref_obj ref) = false ->
  gather_one_source_obj vm b ref read_only = Ok (b', recurse) ->
  (_src_obj_table b !! ref_obj ref = None ->
   exists e,
     _src_obj_table b' = <[ref_obj ref := e]> (_src_obj_table b)
     /\ size (_src_obj_table b') = S (size (_src_obj_table b))
     /\ SourceObjInfo._source_addr e = ref_obj ref
     /\ SourceObjInfo._follow_mode e = get_follow_mode vm ref
     /\ SourceObjInfo._read_only e = read_only
     /\ recurse = SourceObjInfo.should_copy e)
  /\ (forall e,
        _src_obj_table b !! ref_obj ref = Some e ->
        _src_obj_table b' = _src_obj_table b
        /\ recurse = false
        /\ SourceObjList._objs (_rw_src_objs b') = SourceObjList._objs (_rw_src_objs b)
        /\ SourceObjList._objs (_ro_src_objs b') = SourceObjList._objs (_ro_src_objs b)
        /\ buffer b' = buffer b /\ _ptrmap b' = _ptrmap b
        /\ (ref_enclosing_obj ref = 0
            \/ _src_obj_table b !! ref_enclosing_obj ref = None
            \/ (exists enclosing,
                  _src_obj_table b !! ref_enclosing_obj ref = Some enclosing
                  /\ SourceObjInfo.should_copy enclosing = false) ->
            b' = b)
        /\ (forall enclosing,
              ref_enclosing_obj ref <> 0 ->
              _src_obj_table b !! ref_enclosing_obj ref = Some enclosing ->
              SourceObjInfo.should_copy enclosing = true ->
              let l := src_objs b (SourceObjInfo._read_only enclosing) in
              let l' := src_objs b' (SourceObjInfo._read_only enclosing) in
              let offset := as_intx (ref_addr ref - SourceObjInfo._source_addr enclosing) in
              let idx := wrap (SourceObjInfo._ptrmap_start enclosing
                               + offset / sizeof_address) in
              (0 <= offset /\ offset + 8 <= SourceObjInfo._size_in_bytes enclosing
               /\ offset mod 8 = 0)
              /\ BitMap.at_ (SourceObjList._ptrmap l') idx = true
              /\ (forall k, k <> idx ->
                            BitMap.at_ (SourceObjList._ptrmap l') k
                            = BitMap.at_ (SourceObjList._ptrmap l) k)
              /\ BitMap.size (SourceObjList._ptrmap l') = BitMap.size (SourceObjList._ptrmap l)
              /\ SourceObjList._objs l' = SourceObjList._objs l
              /\ SourceObjList._total_bytes l' = SourceObjList._total_bytes l
              /\ src_objs b' (negb (SourceObjInfo._read_only enclosing))
                 = src_objs b (negb (SourceObjInfo._read_only enclosing))
              /\ b' = (if SourceObjInfo._read_only enclosing
                       then set_ro_src_objs b l' else set_rw_src_objs b l'))).
Proof.
  intros Hnz Hreg H. split.
  - intros He.
    destruct (gather_first vm _ _ _ _ _ Hnz Hreg He H) as (e & Ht & Hs & Hm & Hr & Hc).
    exists e. rewrite Ht. rewrite map_size_insert_None by exact He.
    repeat split; assumption.
  - intros e He.
    destruct (gather_again vm _ _ _ _ _ e Hnz Hreg He H) as (Hr & Hrem).
    destruct (remember_in_enclosing_frame _ _ _ Hrem)
      as (Ht & Hrw & Hro & _ & _ & Hbuf & Hmap & _).
    destruct (remember_in_enclosing_effect _ _ _ Hrem) as (Hnone & Hmark).
    do 6 (split; [ assumption | ]). split; [ exact Hnone | ].
    intros enclosing Hroot Henc Hcopy l l' offset idx.
    destruct (Hmark enclosing Hroot Henc Hcopy) as (Hfield & Hl' & Hother & Hb').
    assert (Hb'' : b' = (if SourceObjInfo._read_only enclosing
                         then set_ro_src_objs b l' else set_rw_src_objs b l')).
    { unfold l'. destruct (SourceObjInfo._read_only enclosing); exact Hb'. }
    fold l offset idx in Hl'. fold l' in Hl'. clearbody l'. rewrite Hl'. simpl.
    split; [ exact Hfield | ].
    assert (Hidx : 0 <= idx) by (apply wrap_range).
    split; [ unfold BitMap.at_; simpl; apply Z.setbit_eq; exact Hidx | ].
    split.
    { intros k Hk. unfold BitMap.at_. simpl.
      apply Z.setbit_neq; [ exact Hidx | congruence ]. }
    do 3 (split; [ reflexivity | ]). split; [ exact Hother | ].
    rewrite <- Hl'. exact Hb''.
Qed.

Lemma C3_one_entry_per_source_address_witness :
  size (_src_obj_table Scenario.gatheredAB) = S (size (_src_obj_table Scenario.gatheredA))
  /\ (_src_obj_table Scenario.revisited = _src_obj_table Scenario.gathered_two_paths
      /\ BitMap.at_ (SourceObjList._ptrmap (_rw_src_objs Scenario.revisited)) 0 = true
      /\ BitMap.at_ (SourceObjList._ptrmap (_rw_src_objs Scenario.gathered_two_paths)) 0
         = false).
Proof.
  split.
  - destruct (proj1 (C3_one_entry_per_source_address Scenario.vm Scenario.gatheredA
                       Scenario.gatheredAB Scenario.refB false true
                       ltac:(vm_compute; discriminate) eq_refl
                       ltac:(vm_compute; reflexivity))
                    ltac:(vm_compute; reflexivity)) as (e & _ & Hsize & _).
    exact Hsize.
  - destruct (proj2 (C3_one_entry_per_source_address Scenario.vm_two_paths
                       Scenario.gathered_two_paths Scenario.revisited
                       Scenario.refB_again false false
                       ltac:(vm_compute; discriminate) eq_refl
                       ltac:(vm_compute; reflexivity))
                    (SourceObjInfo.mk 2 3 false make_a_copy 8 OtherType 0x2000 0)
                    ltac:(vm_compute; reflexivity))
      as (Htable & _ & _ & _ & _ & _ & _ & Hmark).
    split; [ exact Htable | ].
    destruct (Hmark (SourceObjInfo.mk 0 2 false make_a_copy 16 OtherType 0x1000 0)
                ltac:(vm_compute; discriminate) ltac:(vm_compute; reflexivity) eq_refl)
      as (_ & Hbit & _).
    split; [ exact Hbit | vm_compute; reflexivity ].
Defined.

(** ** The intervals reserved by [append] *)

Lemma append_step (l : SourceObjList.t) (i : SourceObjInfo.t) (words : Z) :
  0 <= SourceObjList._total_bytes l ->
  SourceObjList._total_bytes l mod 8 = 0 ->
  0 <= words -> SourceObjInfo._size_in_bytes i = words * BytesPerWord ->
  SourceObjList._total_bytes l + SourceObjInfo._size_in_bytes i + 8 <= 2 ^ 64 ->
  exists l' i',
    SourceObjList.append l i = Ok (l', i')
    /\ SourceObjList._total_bytes l'
       = SourceObjList._total_bytes l + SourceObjInfo._size_in_bytes i
    /\ SourceObjList._objs l' = SourceObjList._objs l ++ [SourceObjInfo._source_addr i]
    /\ SourceObjInfo._ptrmap_start i' = SourceObjList._total_bytes l / 8
    /\ SourceObjInfo._ptrmap_end i' = SourceObjList._total_bytes l / 8 + words
    /\ SourceObjInfo._source_addr i' = SourceObjInfo._source_addr i
    /\ SourceObjInfo._size_in_bytes i' = SourceObjInfo._size_in_bytes i
    /\ (SourceObjList._total_bytes l / 8 < BitMap.size (SourceObjList._ptrmap l) ->
        SourceObjList._total_bytes l' / 8 < BitMap.size (SourceObjList._ptrmap l')).
Proof.
  intros Htb Hal Hw Hsz Hbound. unfold BytesPerWord in Hsz.
  set (tb := SourceObjList._total_bytes l) in *.
  set (sz := SourceObjInfo._size_in_bytes i) in *.
  assert (Hnew : align_up (wrap (tb + wrap sz)) sizeof_address = tb + sz).
  { unfold sizeof_address. rewrite (wrap_small sz) by lia.
    rewrite (wrap_small (tb + sz)) by lia.
    apply align_up_8_aligned; [ lia | lia | ].
    rewrite Hsz, Z.add_mod, Hal, Z.mod_mul by lia. reflexivity. }
  assert (Hend : (tb + sz) / 8 = tb / 8 + words).
  { rewrite Hsz, Z.div_add by lia. reflexivity. }
  eexists _, _. split.
  { unfold SourceObjList.append. fold tb.
    replace (is_aligned tb sizeof_address) with true
      by (symmetry; apply is_aligned_8; exact Hal).
    simpl. reflexivity. }
  simpl. fold sz. fold tb. rewrite Hnew. unfold sizeof_address. rewrite Hend.
  repeat split; try reflexivity.
  intros Hcover. pose proof (Z.div_pos tb 8 Htb ltac:(lia)).
  destruct (BitMap.size (SourceObjList._ptrmap l) <=? tb / 8 + words) eqn:Hle; simpl.
  - rewrite wrap_small.
    + lia.
    + assert (tb / 8 + words <= 2 ^ 61); [ | lia ].
      rewrite <- Hend. apply Z.div_le_upper_bound; lia.
  - apply Z.leb_gt in Hle. lia.
Qed.

Lemma of_ref_word_sized (i : SourceObjInfo.t) :
  made_from_ref i ->
  exists words, 0 <= words /\ SourceObjInfo._size_in_bytes i = words * BytesPerWord.
Proof.
  intros (ref & ro & fm & -> & H & Hint). exists (ref_size ref). split; [ exact H | ].
  simpl. apply as_int_small. unfold BytesPerWord in *. lia.
Qed.

Lemma append_all_tiles (infos : list SourceObjInfo.t) :
  forall l : SourceObjList.t,
    Forall made_from_ref infos ->
    0 <= SourceObjList._total_bytes l ->
    SourceObjList._total_bytes l mod 8 = 0 ->
    SourceObjList._total_bytes l + total_size infos + 8 <= 2 ^ 64 ->
    exists l' infos',
      append_all l infos = Ok (l', infos')
      /\ SourceObjList._total_bytes l' = SourceObjList._total_bytes l + total_size infos
      /\ SourceObjList._objs l'
         = SourceObjList._objs l ++ map SourceObjInfo._source_addr infos
      /\ tiles (SourceObjList._total_bytes l / 8) infos'
               (SourceObjList._total_bytes l' / 8)
      /\ Forall2 (fun i i' =>
                    SourceObjInfo._ptrmap_end i' - SourceObjInfo._ptrmap_start i'
                    = SourceObjInfo._size_in_bytes i / sizeof_address
                    /\ sizeof_address * SourceObjInfo._ptrmap_end i'
                       = sizeof_address * SourceObjInfo._ptrmap_start i'
                         + SourceObjInfo._size_in_bytes i
                    /\ SourceObjInfo._source_addr i' = SourceObjInfo._source_addr i)
                 infos infos'
      /\ (SourceObjList._total_bytes l / 8 < BitMap.size (SourceObjList._ptrmap l) ->
          SourceObjList._total_bytes l' / 8 < BitMap.size (SourceObjList._ptrmap l')).
Proof.
  induction infos as [ | i rest IH ]; intros l Hall Htb Hal Hbound.
  - exists l, []. simpl. rewrite Z.add_0_r, app_nil_r. repeat split; auto.
  - apply Forall_cons in Hall. destruct Hall as (Hi & Hrest).
    destruct (of_ref_word_sized i Hi) as (words & Hw & Hsz).
    assert (Hnn : 0 <= total_size rest).
    { clear - Hrest. induction Hrest as [ | j r Hj _ IHr ]; simpl; [ lia | ].
      destruct (of_ref_word_sized j Hj) as (w & Hw & ->). unfold BytesPerWord. lia. }
    simpl in Hbound.
    destruct (append_step l i words Htb Hal Hw Hsz ltac:(unfold BytesPerWord in *; lia))
      as (l1 & i' & Happ & Htb1 & Hobjs1 & Hstart & Hend & Hsrc & Hsize & Hcov1).
    assert (Hal1 : SourceObjList._total_bytes l1 mod 8 = 0).
    { rewrite Htb1, Hsz. unfold BytesPerWord.
      rewrite Z.add_mod, Hal, Z.mod_mul by lia. reflexivity. }
    destruct (IH l1 Hrest ltac:(unfold BytesPerWord in *; lia) Hal1 ltac:(lia))
      as (l' & rest' & Hall' & Htb' & Hobjs' & Htiles & Hlen & Hcov').
    exists l', (i' :: rest'). simpl. rewrite Happ. simpl. rewrite Hall'. simpl.
    assert (Hdiv : SourceObjList._total_bytes l1 / 8
                   = SourceObjList._total_bytes l / 8 + words).
    { rewrite Htb1, Hsz. unfold BytesPerWord. rewrite Z.div_add by lia. reflexivity. }
    repeat split.
    + lia.
    + rewrite Hobjs', Hobjs1, <- app_assoc. reflexivity.
    + exact Hstart.
    + lia.
    + rewrite Hend, <- Hdiv. exact Htiles.
    + constructor; [ | exact Hlen ].
      rewrite Hstart, Hend, Hsrc, Hsz. unfold sizeof_address, BytesPerWord.
      rewrite Z.div_mul by lia.
      pose proof (Z.div_mod (SourceObjList._total_bytes l) 8 ltac:(lia)).
      repeat split; lia.
    + intros H. apply Hcov', Hcov1, H.
Qed.

Lemma tiles_bounds (infos : list SourceObjInfo.t) :
  forall from to, tiles from infos to ->
    from <= to
    /\ forall (k : nat) (ik : SourceObjInfo.t), infos !! k = Some ik ->
         from <= SourceObjInfo._ptrmap_start ik /\ SourceObjInfo._ptrmap_end ik <= to.
Proof.
  induction infos as [ | i rest IH ]; simpl; intros from to H.
  - split; [ lia | intros k ik Hk; discriminate ].
  - destruct H as (Hs & Hle & Hrest). destruct (IH _ _ Hrest) as (Hto & Hin).
    split; [ lia | ]. intros [ | k ] ik Hk; simpl in Hk.
    + injection Hk as <-. lia.
    + destruct (Hin k ik Hk). lia.
Qed.

Lemma tiles_disjoint (infos : list SourceObjInfo.t) :
  forall from to, tiles from infos to -> disjoint_intervals infos.
Proof.
  induction infos as [ | i rest IH ]; simpl; intros from to H j k ij ik Hjk Hj Hk.
  - discriminate.
  - destruct H as (Hs & Hle & Hrest). destruct k as [ | k ]; [ lia | ].
    simpl in Hk. destruct j as [ | j ]; simpl in Hj.
    + injection Hj as <-. destruct (tiles_bounds _ _ _ Hrest) as (_ & Hin).
      destruct (Hin k ik Hk). lia.
    + apply (IH _ _ Hrest j k); [ lia | assumption | assumption ].
Qed.

(** C4. Appending objects to the list of a region reserves, for each object,
    a bitmap interval whose length in bits is its byte size divided by the
    word size; the interval covers exactly the object's bytes at word
    granularity; the intervals are handed out in append order, each starting
    where the one before it ends, so that they are pairwise disjoint and tile
    the logical pointer space of the region, from bit 0 to
    [_total_bytes / word size], without a gap; and the bitmap is grown to
    hold them. *)
Theorem C4_intervals_tile_the_region (infos : list SourceObjInfo.t) :
  Forall made_from_ref infos ->
  total_size infos + 8 <= 2 ^ 64 ->
  exists l' infos',
    append_all SourceObjList.new infos = Ok (l', infos')
    /\ SourceObjList._objs l' = map SourceObjInfo._source_addr infos
    /\ Forall2 (fun i i' =>
                  SourceObjInfo._ptrmap_end i' - SourceObjInfo._ptrmap_start i'
                  = SourceObjInfo._size_in_bytes i / sizeof_address
                  /\ sizeof_address * SourceObjInfo._ptrmap_end i'
                     = sizeof_address * SourceObjInfo._ptrmap_start i'
                       + SourceObjInfo._size_in_bytes i
                  /\ SourceObjInfo._source_addr i' = SourceObjInfo._source_addr i)
               infos infos'
    /\ tiles 0 infos' (SourceObjList._total_bytes l' / sizeof_address)
    /\ disjoint_intervals infos'
    /\ SourceObjList._total_bytes l' = total_size infos
    /\ SourceObjList._total_bytes l' / sizeof_address
       < BitMap.size (SourceObjList._ptrmap l').
Proof.
  intros Hall Hbound.
  destruct (append_all_tiles infos SourceObjList.new Hall ltac:(simpl; lia)
              ltac:(reflexivity) ltac:(simpl; lia))
    as (l' & infos' & Happ & Htb & Hobjs & Htiles & Hlen & Hcov).
  exists l', infos'. simpl in *. unfold sizeof_address.
  repeat split; try assumption.
  - eapply tiles_disjoint. exact Htiles.
  - apply Hcov. reflexivity.
Qed.

Lemma C4_intervals_tile_the_region_witness :
  exists l' infos',
    append_all SourceObjList.new
      [SourceObjInfo.of_ref Scenario.refA false make_a_copy;
       SourceObjInfo.of_ref Scenario.refB false make_a_copy]
    = Ok (l', infos')
    /\ tiles 0 infos' (SourceObjList._total_bytes l' / sizeof_address)
    /\ SourceObjList._total_bytes l' = 24.
Proof.
  destruct (C4_intervals_tile_the_region
              [SourceObjInfo.of_ref Scenario.refA false make_a_copy;
               SourceObjInfo.of_ref Scenario.refB false make_a_copy])
    as (l' & infos' & Happ & _ & _ & Htiles & _ & Htb & _).
  - repeat constructor.
    + exists Scenario.refA, false, make_a_copy.
      split; [ reflexivity | split; vm_compute; [ discriminate | reflexivity ] ].
    + exists Scenario.refB, false, make_a_copy.
      split; [ reflexivity | split; vm_compute; [ discriminate | reflexivity ] ].
  - vm_compute. discriminate.
  - exists l', infos'. repeat split; assumption.
Defined.

(** ** Gathering: what a visit leaves alone *)

Lemma gather_frame (vm : VM) (b b' : ArchiveBuilder) (ref : Ref) (read_only recurse : bool) :
  gather_one_source_obj vm b ref read_only = Ok (b', recurse) ->
  (forall k, k <> ref_obj ref -> _src_obj_table b' !! k = _src_obj_table b !! k)
  /\ (forall k, k <> ref_obj ref ->
        k ∈ SourceObjList._objs (_rw_src_objs b') -> k ∈ SourceObjList._objs (_rw_src_objs b))
  /\ (forall k, k <> ref_obj ref ->
        k ∈ SourceObjList._objs (_ro_src_objs b') -> k ∈ SourceObjList._objs (_ro_src_objs b)).
Proof.
  intros H. unfold gather_one_source_obj in H.
  destruct (ref_obj ref =? 0); [ injection H as <- <-; auto | ].
  destruct (has_been_regenerated vm (ref_obj ref)); [ injection H as <- <-; auto | ].
  inv_bind H.
  destruct (remember_in_enclosing_frame _ _ _ Ha) as (Ht & Hrw & Hro & _).
  destruct (put_if_absent (_src_obj_table a) (ref_obj ref)
              (SourceObjInfo.of_ref ref read_only (get_follow_mode vm ref)))
    as [[tbl p] created] eqn:Hput.
  assert (Htbl : forall k, k <> ref_obj ref -> tbl !! k = _src_obj_table b !! k).
  { intros k Hk. unfold put_if_absent in Hput. rewrite <- Ht.
    destruct (_src_obj_table a !! ref_obj ref); injection Hput as <- <- <-;
      [ reflexivity | apply lookup_insert_ne; congruence ]. }
  assert (Hp : created = true -> SourceObjInfo._source_addr p = ref_obj ref).
  { unfold put_if_absent in Hput.
    destruct (_src_obj_table a !! ref_obj ref); injection Hput as <- <- <-;
      [ discriminate | reflexivity ]. }
  do 2 inv_bind H.
  destruct (created && SourceObjInfo.should_copy
                         (SourceObjInfo.of_ref ref read_only (get_follow_mode vm ref)))
    eqn:Hc.
  - apply andb_true_iff in Hc. destruct Hc as (Hcr & _). specialize (Hp Hcr).
    destruct read_only; inv_bind H; destruct a2 as [l p']; injection H as <- <-;
      apply append_entry in Ha2; destruct Ha2 as (_ & _ & _ & _ & _ & Hobjs);
      simpl; simpl in Hobjs; rewrite Hp in Hobjs;
      (split; [ intros k Hk; rewrite lookup_insert_ne by congruence; auto | ]);
      split; intros k Hk Hin; rewrite ?Hobjs, ?Hrw, ?Hro in Hin;
      try (apply elem_of_app in Hin; destruct Hin as [Hin | Hin];
           [ | apply list_elem_of_singleton in Hin; contradiction ]);
      assumption.
  - injection H as <- <-. simpl. rewrite Hrw, Hro. auto.
Qed.

(** An object that was regenerated stays out of the table and out of both
    lists, whatever the walker visits. *)
Lemma gather_refs_skips_regenerated (vm : VM) (orig : address) (visits : list (Ref * bool)) :
  has_been_regenerated vm orig = true ->
  forall b b',
    gather_refs vm b visits = Ok b' ->
    _src_obj_table b !! orig = None ->
    orig ∉ SourceObjList._objs (_rw_src_objs b) ->
    orig ∉ SourceObjList._objs (_ro_src_objs b) ->
    _src_obj_table b' !! orig = None
    /\ (orig ∉ SourceObjList._objs (_rw_src_objs b'))
    /\ (orig ∉ SourceObjList._objs (_ro_src_objs b')).
Proof.
  intros Hreg. induction visits as [ | [ref read_only] rest IH ]; simpl; intros b b' H Ht Hrw Hro.
  - injection H as <-. auto.
  - inv_bind H. destruct a as [b1 recurse].
    destruct (decide (ref_obj ref = orig)) as [Heq | Hne].
    + unfold gather_one_source_obj in Ha. rewrite Heq, Hreg in Ha.
      destruct (orig =? 0); injection Ha as <- <-; apply (IH _ _ H); assumption.
    + destruct (gather_frame _ _ _ _ _ _ Ha) as (Hf & Hfrw & Hfro).
      apply (IH _ _ H).
      * rewrite Hf by congruence. exact Ht.
      * intros Hin. apply Hrw, Hfrw; [ congruence | exact Hin ].
      * intros Hin. apply Hro, Hfro; [ congruence | exact Hin ].
Qed.

(** C10. An object recorded as regenerated is never gathered: a visit of it
    leaves the builder as it is and does not recurse, so that, whatever the
    walker visits, the object has no entry in the table and is in neither
    list of objects to copy (the copy phase copies the objects of the lists
    and no other).  Recording it afterwards creates its entry, made from the
    entry of the regenerated object, and [get_buffered_addr] answers for the
    original what it answers for the regenerated object. *)
Theorem C10_regenerated_object_aliases_replacement (vm : VM) (orig regen : address) :
  has_been_regenerated vm orig = true ->
  (forall b ref read_only,
      ref_obj ref = orig -> gather_one_source_obj vm b ref read_only = Ok (b, false))
  /\ (forall visits b,
        gather_refs vm new_builder visits = Ok b ->
        _src_obj_table b !! orig = None
        /\ (orig ∉ SourceObjList._objs (_rw_src_objs b))
        /\ (orig ∉ SourceObjList._objs (_ro_src_objs b)))
  /\ (forall b p,
        _src_obj_table b !! regen = Some p ->
        _src_obj_table b !! orig = None ->
        exists b',
          record_regenerated_object b orig regen = Ok b'
          /\ _src_obj_table b'
             = <[orig := SourceObjInfo.of_regenerated orig p]> (_src_obj_table b)
          /\ _rw_src_objs b' = _rw_src_objs b
          /\ _ro_src_objs b' = _ro_src_objs b
          /\ buffer b' = buffer b
          /\ get_buffered_addr b' orig = Ok (SourceObjInfo._buffered_addr p)
          /\ get_buffered_addr b' orig = get_buffered_addr b' regen).
Proof.
  intros Hreg. split; [ | split ].
  - intros b ref read_only Heq. unfold gather_one_source_obj. rewrite Heq, Hreg.
    destruct (orig =? 0); reflexivity.
  - intros visits b H.
    apply (gather_refs_skips_regenerated vm orig visits Hreg new_builder b H).
    + apply lookup_empty.
    + apply not_elem_of_nil.
    + apply not_elem_of_nil.
  - intros b p Hp Ho.
    assert (Hne : orig <> regen) by (intros ->; congruence).
    exists (set_src_obj_table b
              (<[orig := SourceObjInfo.of_regenerated orig p]> (_src_obj_table b))).
    unfold record_regenerated_object. rewrite Hp.
    rewrite put_if_absent_absent by exact Ho. simpl.
    unfold get_buffered_addr. simpl.
    rewrite lookup_insert_eq, lookup_insert_ne, Hp by exact Hne.
    destruct b; simpl; repeat split; reflexivity.
Qed.

Lemma C10_regenerated_object_aliases_replacement_witness :
  gather_one_source_obj Scenario.vm_regenerated new_builder
    (mkRef 0x4000 0x1000 0 MethodType 4) false
  = Ok (new_builder, false).
Proof.
  apply (proj1 (C10_regenerated_object_aliases_replacement
                  Scenario.vm_regenerated 0x4000 0x1000 eq_refl)).
  reflexivity.
Defined.

(** ** The placement of the buffer *)

(** C9. Before anything is copied, [reserve_buffer] checks the requested
    placement: if the requested bottom of the archive is below the requested
    base of the static archive, or the requested top (requested bottom plus
    buffer size, with wrap-around) is at or below that base, the build ends in
    [unrecoverable_writing_error] after logging the two bounds and the advice
    to rerun with a lower base.  The builder never picks a base of its own:
    a run that gets past the check has the base it was given, and both
    bounds above it. *)
Theorem C9_placement_check_is_fatal (vm : VM) (b : ArchiveBuilder) (rs_base : address) :
  let buffer_size := snd (estimate_archive_size vm b) in
  reserve_space vm buffer_size = Some rs_base ->
  (DumpSharedSpaces vm = false -> shared_metaspace_base vm <= shared_metaspace_top vm) ->
  (my_archive_requested_bottom vm < requested_base_address vm
   \/ my_archive_requested_top vm buffer_size <= requested_base_address vm ->
   reserve_buffer vm b
   = Fatal (UnrecoverableWritingError
              [("my_archive_requested_bottom = %p", [my_archive_requested_bottom vm]);
               ("my_archive_requested_top    = %p",
                [my_archive_requested_top vm buffer_size]);
               ("SharedBaseAddress (%p) is too high. Please rerun java -Xshare:dump with a lower value",
                [requested_base_address vm])]))
  /\ (forall b' buffer_bottom,
        reserve_buffer vm b = Ok (b', buffer_bottom) ->
        requested_base_address vm <= my_archive_requested_bottom vm
        /\ requested_base_address vm < my_archive_requested_top vm buffer_size
        /\ _requested_static_archive_bottom b' = requested_base_address vm
        /\ buffer_to_requested_delta b'
           = as_intx (my_archive_requested_bottom vm - buffer_bottom)).
Proof.
  intros buffer_size Hrs Hmapped. subst buffer_size.
  unfold reserve_buffer.
  destruct (estimate_archive_size vm b) as [b1 buffer_size]. simpl in *.
  rewrite Hrs.
  assert (Hassert :
            (if DumpSharedSpaces vm then Ok tt
             else assert (shared_metaspace_base vm <=? shared_metaspace_top vm) "must be" [])
            = Ok tt).
  { destruct (DumpSharedSpaces vm); [ reflexivity | ].
    replace (shared_metaspace_base vm <=? shared_metaspace_top vm) with true;
      [ reflexivity | symmetry; apply Z.leb_le; auto ]. }
  rewrite Hassert. simpl.
  destruct ((my_archive_requested_bottom vm <? requested_base_address vm)
            || (my_archive_requested_top vm buffer_size <=? requested_base_address vm))
    eqn:Hcheck.
  - split; [ reflexivity | discriminate ].
  - apply orb_false_iff in Hcheck. destruct Hcheck as (H1 & H2).
    apply Z.ltb_ge in H1. apply Z.leb_gt in H2.
    split; [ lia | ].
    intros b' buffer_bottom H.
    destruct (DumpSharedSpaces vm).
    + inv_bind H. destruct a as [b2 p]. injection H as <- <-.
      unfold allocate in Ha.
      match type of Ha with (if ?c then _ else _) = _ => destruct c end;
        [ discriminate | ].
      injection Ha as <- _. simpl. unfold buffer_to_requested_delta. simpl. auto.
    + injection H as <- <-. unfold buffer_to_requested_delta. simpl. auto.
Qed.

Lemma C9_placement_check_is_fatal_witness :
  is_ok (reserve_buffer Scenario.vm_high_base new_builder) = false.
Proof.
  rewrite (proj1 (C9_placement_check_is_fatal Scenario.vm_high_base new_builder
                    0x7f0000000000 eq_refl
                    ltac:(intros H; vm_compute in H; discriminate))).
  - reflexivity.
  - right. vm_compute. discriminate.
Defined.

(** ** Capacity *)

(** [report_out_of_space] ends the build, naming the region and the bytes
    that were needed. *)
Lemma report_out_of_space_is_fatal (b : ArchiveBuilder) (name : string) (needed_bytes : Z) :
  exists log,
    report_out_of_space b name needed_bytes = UnrecoverableWritingError log
    /\ ("Unable to allocate from '" +:+ name
          +:+ "' region: Please reduce the number of shared classes.", []) ∈ log.
Proof.
  eexists. split; [ reflexivity | ]. do 2 apply list_elem_of_further. apply list_elem_of_here.
Qed.

(** An allocation that would pass the reserved end of its region ends the
    build in [report_out_of_space]; the top does not move past the end. *)
Lemma allocate_past_the_reservation (b : ArchiveBuilder) (which : RegionId) (num_bytes : Z) :
  DumpRegion._end (region b which)
  < align_up (DumpRegion._top (region b which)) SharedSpaceObjectAlignment
    + align_up num_bytes SharedSpaceObjectAlignment ->
  allocate b which num_bytes
  = Fatal (report_out_of_space b (DumpRegion._name (region b which))
             (align_up (DumpRegion._top (region b which)) SharedSpaceObjectAlignment
              + align_up num_bytes SharedSpaceObjectAlignment
              - DumpRegion._top (region b which))).
Proof.
  intros H. unfold allocate. apply Z.ltb_lt in H. rewrite H. reflexivity.
Qed.

Lemma allocate_within_the_reservation (b b' : ArchiveBuilder) (which : RegionId)
      (num_bytes : Z) (p : address) :
  allocate b which num_bytes = Ok (b', p) ->
  DumpRegion._top (region b' which) <= DumpRegion._end (region b' which)
  /\ DumpRegion._end (region b' which) = DumpRegion._end (region b which).
Proof.
  unfold allocate. intros H.
  match type of H with (if ?c then _ else _) = _ => destruct c eqn:Hc end;
    [ discriminate | ].
  injection H as <- <-. apply Z.ltb_ge in Hc.
  destruct which, b; simpl in *; split; (lia || reflexivity).
Qed.

(** While the bytes used are within 2^31, a usage above the estimate fails
    the verification. *)
Lemma verify_estimate_size_shortfall (b : ArchiveBuilder) (estimate : Z) (which : string) :
  0 <= estimate ->
  used_since_last_verification b <= 2 ^ 31 ->
  estimate < used_since_last_verification b ->
  verify_estimate_size b estimate which = Fatal (AssertFailed "Estimate is too small" []).
Proof.
  intros He Hu Hlt. unfold verify_estimate_size.
  fold (used_since_last_verification b).
  set (used := used_since_last_verification b) in *.
  assert (Hdiff : as_int (as_int estimate - as_int used) < 0).
  { rewrite (as_int_small estimate) by lia.
    destruct (Z.eq_dec used (2 ^ 31)) as [-> | Hne].
    - unfold as_int.
      change ((2 ^ 31 + 2 ^ 31) mod 2 ^ 32 - 2 ^ 31) with (- 2 ^ 31).
      replace (estimate - - 2 ^ 31 + 2 ^ 31) with (estimate + 1 * 2 ^ 32) by lia.
      rewrite Z.mod_add by lia. rewrite Z.mod_small by lia. lia.
    - rewrite (as_int_small used) by lia. rewrite as_int_small by lia. lia. }
  replace (0 <=? as_int (as_int estimate - as_int used)) with false
    by (symmetry; apply Z.leb_gt; exact Hdiff).
  reflexivity.
Qed.

(** The line [print_out_of_space_msg] logs for the region that failed: its
    name, its base, top, reserved and used bytes, and the bytes needed. *)
Lemma print_out_of_space_msg_of_failing_region (r : DumpRegion.t) (needed_bytes : Z) :
  DumpRegion.print_out_of_space_msg r (DumpRegion._name r) needed_bytes
  = (DumpRegion._name r,
     [DumpRegion._base r; DumpRegion._top r; DumpRegion._end r - DumpRegion._base r;
      DumpRegion._top r - DumpRegion._base r; needed_bytes]).
Proof.
  unfold DumpRegion.print_out_of_space_msg. rewrite String.eqb_refl. reflexivity.
Qed.

(** C8. A capacity shortfall ends the build.
    - An allocation whose new top would pass the reserved end of its region
      ends in [report_out_of_space], an unrecoverable writing error: the log
      holds the line of the failing region, with its name and the bytes that
      were needed, and the line that names the region the allocation was
      made from; no builder is returned to go on with.
    - An allocation that returns leaves the top of its region at or below
      the reserved end, which it does not move.
    - A verification that finds more bytes used than estimated fails the
      assertion "Estimate is too small".  The check subtracts two [int]s: it
      is stated for a usage of at most 2^31 bytes, the range the regions are
      confined to by the limit [MAX_SHARED_DELTA] they are constructed
      with. *)
Theorem C8_capacity_shortfall_is_fatal (b : ArchiveBuilder) :
  (forall which num_bytes,
      let r := region b which in
      let needed_bytes :=
        align_up (DumpRegion._top r) SharedSpaceObjectAlignment
        + align_up num_bytes SharedSpaceObjectAlignment - DumpRegion._top r in
      DumpRegion._end r < DumpRegion._top r + needed_bytes ->
      exists log,
        allocate b which num_bytes = Fatal (UnrecoverableWritingError log)
        /\ (DumpRegion._name r,
            [DumpRegion._base r; DumpRegion._top r; DumpRegion._end r - DumpRegion._base r;
             DumpRegion._top r - DumpRegion._base r; needed_bytes]) ∈ log
        /\ ("Unable to allocate from '" +:+ DumpRegion._name r
              +:+ "' region: Please reduce the number of shared classes.", []) ∈ log)
  /\ (forall which num_bytes b' p,
        allocate b which num_bytes = Ok (b', p) ->
        DumpRegion._top (region b' which) <= DumpRegion._end (region b which)
        /\ DumpRegion._end (region b' which) = DumpRegion._end (region b which))
  /\ (forall estimate which,
        0 <= estimate ->
        used_since_last_verification b <= 2 ^ 31 ->
        estimate < used_since_last_verification b ->
        verify_estimate_size b estimate which
        = Fatal (AssertFailed "Estimate is too small" [])).
Proof.
  split; [ | split ].
  - intros which num_bytes r needed_bytes Hpast.
    assert (Hrun : allocate b which num_bytes
                   = Fatal (report_out_of_space b (DumpRegion._name r) needed_bytes)).
    { apply allocate_past_the_reservation. fold r. unfold needed_bytes in Hpast. lia. }
    eexists. split; [ exact Hrun | ]. split.
    + rewrite <- print_out_of_space_msg_of_failing_region.
      unfold r. destruct which; simpl.
      * apply list_elem_of_here.
      * apply list_elem_of_further, list_elem_of_here.
    + do 2 apply list_elem_of_further. apply list_elem_of_here.
  - intros which num_bytes b' p H.
    destruct (allocate_within_the_reservation _ _ _ _ _ H) as (Htop & Hend).
    split; [ lia | exact Hend ].
  - intros estimate which. apply verify_estimate_size_shortfall.
Qed.

Lemma C8_capacity_shortfall_is_fatal_witness :
  (exists log,
     allocate (Scenario.get Scenario.reserved) rw 8192
     = Fatal (UnrecoverableWritingError log)
     /\ ("rw", [0x7f0000000000; 0x7f0000000010; 8192; 16; 8192]) ∈ log)
  /\ verify_estimate_size Scenario.shallow_copied 40 "MetaspaceObjs"
     = Fatal (AssertFailed "Estimate is too small" []).
Proof.
  split.
  - destruct (proj1 (C8_capacity_shortfall_is_fatal (Scenario.get Scenario.reserved))
                rw 8192 ltac:(vm_compute; reflexivity)) as (log & Hrun & Hline & _).
    exists log. split; [ exact Hrun | exact Hline ].
  - apply (proj2 (proj2 (C8_capacity_shortfall_is_fatal Scenario.shallow_copied))).
    + lia.
    + vm_compute. discriminate.
    + vm_compute. reflexivity.
Defined.

(** ** Iterating a bitmap *)

Lemma elem_of_range (beg end_ k : Z) : k ∈ BitMap.range beg end_ <-> beg <= k < end_.
Proof.
  unfold BitMap.range. rewrite list_elem_of_fmap. split.
  - intros (i & -> & Hi). apply elem_of_seq in Hi. lia.
  - intros H. exists (Z.to_nat (k - beg)). split; [ lia | ].
    apply elem_of_seq. lia.
Qed.

Lemma map_seq_offset (x : Z) (len : nat) :
  forall n : nat,
    map (fun i => x + Z.of_nat i) (seq n len)
    = map (fun i => x + Z.of_nat n + Z.of_nat i) (seq 0 len).
Proof.
  induction len as [ | len IH ]; intros n; simpl; [ reflexivity | ].
  f_equal; [ lia | ].
  rewrite (IH (S n)), <- (seq_shift len 0), map_map.
  apply map_ext. intros i. lia.
Qed.

Lemma range_split (beg end_ k : Z) :
  beg <= k < end_ ->
  BitMap.range beg end_ = BitMap.range beg k ++ k :: BitMap.range (k + 1) end_.
Proof.
  intros H. unfold BitMap.range.
  replace (Z.to_nat (end_ - beg))
    with (Z.to_nat (k - beg) + S (Z.to_nat (end_ - (k + 1))))%nat by lia.
  rewrite seq_app, map_app. f_equal. simpl. f_equal; [ lia | ].
  rewrite map_seq_offset. apply map_ext. intros i. lia.
Qed.

Lemma range_ascending (beg end_ : Z) : StronglySorted Z.lt (BitMap.range beg end_).
Proof.
  unfold BitMap.range. generalize (Z.to_nat (end_ - beg)) as n. intros n. revert beg.
  induction n as [ | n IH ]; intros beg; simpl; constructor.
  - rewrite <- seq_shift, map_map.
    replace (map (fun i => beg + Z.of_nat (S i)) (seq 0 n))
      with (map (fun i => (beg + 1) + Z.of_nat i) (seq 0 n))
      by (apply map_ext; intros i; lia).
    apply IH.
  - apply Forall_forall. intros k Hk. apply list_elem_of_fmap in Hk.
    destruct Hk as (i & -> & Hi). apply elem_of_seq in Hi. lia.
Qed.

Lemma range_NoDup (beg end_ : Z) : NoDup (BitMap.range beg end_).
Proof.
  pose proof (range_ascending beg end_) as Hs.
  induction Hs as [ | x l _ IH Hx ]; constructor; [ | exact IH ].
  intros Hin. rewrite Forall_forall in Hx. specialize (Hx x Hin). lia.
Qed.

Lemma iterate_over_app {S : Type} (bitmap_of : S -> BitMap.t)
      (do_bit : S -> Z -> result (S * bool)) (l1 l2 : list Z) (s : S) :
  iterate_over bitmap_of do_bit (l1 ++ l2) s
  = '(s1, continue) ← iterate_over bitmap_of do_bit l1 s;
    if continue : bool then iterate_over bitmap_of do_bit l2 s1 else Ok (s1, false).
Proof.
  revert s. induction l1 as [ | i l1 IH ]; intros s; simpl.
  - reflexivity.
  - destruct (BitMap.at_ (bitmap_of s) i); [ | apply IH ].
    destruct (do_bit s i) as [[s1 continue] | f]; simpl; [ | reflexivity ].
    destruct continue; [ apply IH | reflexivity ].
Qed.

Lemma wrap_add_inj (a x y : Z) :
  0 <= x < 2 ^ 64 -> 0 <= y < 2 ^ 64 -> wrap (a + x) = wrap (a + y) -> x = y.
Proof.
  unfold wrap. intros Hx Hy H.
  pose proof (Z.div_mod (a + x) (2 ^ 64) ltac:(lia)) as Ex.
  pose proof (Z.div_mod (a + y) (2 ^ 64) ltac:(lia)) as Ey.
  rewrite H in Ex.
  assert ((a + x) / 2 ^ 64 = (a + y) / 2 ^ 64) by nia.
  lia.
Qed.

Lemma field_location_inj (buffered_obj start j k : Z) :
  start <= j < start + 2 ^ 60 -> start <= k < start + 2 ^ 60 ->
  field_location buffered_obj start j = field_location buffered_obj start k -> j = k.
Proof.
  unfold field_location, sizeof_address. intros Hj Hk H.
  rewrite (wrap_small (j - start)), (wrap_small (k - start)) in H by lia.
  rewrite (wrap_small ((j - start) * 8)), (wrap_small ((k - start) * 8)) in H by lia.
  apply wrap_add_inj in H; lia.
Qed.

Lemma load_store_eq (m : gmap address Z) (a : address) (v : Z) : load (store m a v) a = v.
Proof. unfold load, store. rewrite lookup_insert_eq. reflexivity. Qed.

Lemma load_store_ne (m : gmap address Z) (a a' : address) (v : Z) :
  a <> a' -> load (store m a v) a' = load m a'.
Proof. intros H. unfold load, store. rewrite lookup_insert_ne by exact H. reflexivity. Qed.

(** ** Relocating the embedded pointers of one object *)

Lemma set_and_mark_pointer_frame (b : ArchiveBuilder) (ptr_loc ptr_value : address) :
  buffer (ArchivePtrMarker.set_and_mark_pointer b ptr_loc ptr_value)
  = store (buffer b) ptr_loc ptr_value
  /\ _src_obj_table (ArchivePtrMarker.set_and_mark_pointer b ptr_loc ptr_value)
     = _src_obj_table b
  /\ _rw_src_objs (ArchivePtrMarker.set_and_mark_pointer b ptr_loc ptr_value)
     = _rw_src_objs b
  /\ _ro_src_objs (ArchivePtrMarker.set_and_mark_pointer b ptr_loc ptr_value)
     = _ro_src_objs b.
Proof. destruct b. simpl. auto. Qed.

Lemma set_and_mark_pointer_marks (b : ArchiveBuilder) (ptr_loc ptr_value : address) :
  BitMap.at_ (_ptrmap (ArchivePtrMarker.set_and_mark_pointer b ptr_loc ptr_value))
             (wrap (ptr_loc - _buffer_bottom b) / sizeof_address)
  = true.
Proof.
  unfold ArchivePtrMarker.set_and_mark_pointer, ArchivePtrMarker.mark_pointer, BitMap.at_.
  destruct b. simpl. apply Z.setbit_eq.
  apply Z.div_pos; [ apply wrap_range | unfold sizeof_address; lia ].
Qed.

Lemma do_bit_resolves (b : ArchiveBuilder) (buffered_obj : address) (start_idx bit_offset : Z)
      (p : SourceObjInfo.t) :
  _src_obj_table b !! load (buffer b) (field_location buffered_obj start_idx bit_offset)
  = Some p ->
  RelocateEmbeddedPointers_do_bit buffered_obj start_idx b bit_offset
  = Ok (ArchivePtrMarker.set_and_mark_pointer b
          (field_location buffered_obj start_idx bit_offset)
          (SourceObjInfo._buffered_addr p), true).
Proof.
  intros H. unfold RelocateEmbeddedPointers_do_bit, get_buffered_addr, field_location in *.
  cbv zeta. rewrite H. reflexivity.
Qed.

Lemma do_bit_unresolved (b : ArchiveBuilder) (buffered_obj : address)
      (start_idx bit_offset : Z) :
  _src_obj_table b !! load (buffer b) (field_location buffered_obj start_idx bit_offset)
  = None ->
  RelocateEmbeddedPointers_do_bit buffered_obj start_idx b bit_offset
  = Fatal (AssertFailed "src_addr is used but has not been archived"
             [load (buffer b) (field_location buffered_obj start_idx bit_offset)]).
Proof.
  intros H. unfold RelocateEmbeddedPointers_do_bit, get_buffered_addr, field_location in *.
  cbv zeta. rewrite H. reflexivity.
Qed.

Section RelocateFields.

Context (read_only : bool) (buffered_obj : address) (start_idx : Z).

Let loc (k : Z) : address := field_location buffered_obj start_idx k.
Let marked (b : ArchiveBuilder) (k : Z) : Prop :=
  BitMap.at_ (SourceObjList._ptrmap (src_objs b read_only)) k = true.
Let target (b : ArchiveBuilder) (k : Z) : address := load (buffer b) (loc k).

Lemma relocate_fields_ok (indices : list Z) :
  forall b : ArchiveBuilder,
    NoDup indices ->
    (forall j k, j ∈ indices -> k ∈ indices -> loc j = loc k -> j = k) ->
    (forall k, k ∈ indices -> marked b k -> is_Some (_src_obj_table b !! target b k)) ->
    exists b',
      iterate_over (fun b => SourceObjList._ptrmap (src_objs b read_only))
                   (RelocateEmbeddedPointers_do_bit buffered_obj start_idx) indices b
      = Ok (b', true)
      /\ _src_obj_table b' = _src_obj_table b
      /\ _rw_src_objs b' = _rw_src_objs b
      /\ _ro_src_objs b' = _ro_src_objs b
      /\ (forall k, k ∈ indices -> marked b k ->
            exists p, _src_obj_table b !! target b k = Some p
                      /\ load (buffer b') (loc k) = SourceObjInfo._buffered_addr p)
      /\ (forall a, (forall k, k ∈ indices -> marked b k -> a <> loc k) ->
            load (buffer b') a = load (buffer b) a).
Proof.
  induction indices as [ | i rest IH ]; intros b Hnd Hinj Hres.
  - exists b. simpl. repeat split; try reflexivity.
    intros k Hk. apply elem_of_nil in Hk. contradiction.
  - apply NoDup_cons in Hnd. destruct Hnd as (Hi & Hnd).
    assert (Hinj' : forall j k, j ∈ rest -> k ∈ rest -> loc j = loc k -> j = k).
    { intros j k Hj Hk. apply Hinj; apply list_elem_of_further; assumption. }
    assert (Hloc : forall k, k ∈ rest -> loc i <> loc k).
    { intros k Hk E. apply Hinj in E;
        [ subst; contradiction | apply list_elem_of_here | apply list_elem_of_further, Hk ]. }
    simpl. destruct (BitMap.at_ (SourceObjList._ptrmap (src_objs b read_only)) i) eqn:Hm.
    + destruct (Hres i (list_elem_of_here _ _) Hm) as (p & Hp).
      unfold target, loc in Hp. rewrite (do_bit_resolves _ _ _ _ p Hp). simpl.
      set (b1 := ArchivePtrMarker.set_and_mark_pointer b
                   (field_location buffered_obj start_idx i)
                   (SourceObjInfo._buffered_addr p)).
      destruct (set_and_mark_pointer_frame b (field_location buffered_obj start_idx i)
                  (SourceObjInfo._buffered_addr p)) as (Hbuf & Htbl & Hrw & Hro).
      fold b1 in Hbuf, Htbl, Hrw, Hro.
      assert (Hsame : src_objs b1 read_only = src_objs b read_only).
      { unfold src_objs. rewrite Hrw, Hro. reflexivity. }
      assert (Htarget : forall k, k ∈ rest -> target b1 k = target b k).
      { intros k Hk. unfold target. rewrite Hbuf. apply load_store_ne, Hloc, Hk. }
      destruct (IH b1 Hnd Hinj') as (b' & Hrun & Ht' & Hrw' & Hro' & Hfields & Hframe).
      { intros k Hk Hmk. rewrite Htbl, (Htarget k Hk). apply Hres.
        - apply list_elem_of_further, Hk.
        - unfold marked in *. rewrite <- Hsame. exact Hmk. }
      exists b'. rewrite Hrun. repeat split; try congruence.
      * intros k Hk Hmk. apply elem_of_cons in Hk. destruct Hk as [-> | Hk].
        -- exists p. split; [ exact Hp | ].
           rewrite Hframe.
           ++ rewrite Hbuf. apply load_store_eq.
           ++ intros k Hk _. apply Hloc, Hk.
        -- destruct (Hfields k Hk) as (q & Hq & Hload).
           { unfold marked in *. rewrite Hsame. exact Hmk. }
           exists q. rewrite <- (Htarget k Hk), <- Htbl. auto.
      * intros a Ha. rewrite Hframe.
        -- rewrite Hbuf. apply load_store_ne. apply not_eq_sym, Ha; [ left | exact Hm ].
        -- intros k Hk Hmk. apply Ha; [ right; exact Hk | ].
           unfold marked in *. rewrite <- Hsame. exact Hmk.
    + destruct (IH b Hnd Hinj') as (b' & Hrun & Ht' & Hrw' & Hro' & Hfields & Hframe).
      { intros k Hk. apply Hres. right. exact Hk. }
      exists b'. rewrite Hrun. repeat split; try assumption.
      * intros k Hk Hmk. apply elem_of_cons in Hk. destruct Hk as [-> | Hk].
        -- unfold marked in Hmk. congruence.
        -- apply Hfields; assumption.
      * intros a Ha. apply Hframe. intros k Hk. apply Ha. right. exact Hk.
Qed.

End RelocateFields.

Section RelocateFieldsFailure.

Context (read_only : bool) (buffered_obj : address) (start_idx : Z).

Let loc (k : Z) : address := field_location buffered_obj start_idx k.
Let marked (b : ArchiveBuilder) (k : Z) : Prop :=
  BitMap.at_ (SourceObjList._ptrmap (src_objs b read_only)) k = true.
Let target (b : ArchiveBuilder) (k : Z) : address := load (buffer b) (loc k).

Lemma relocate_fields_unresolved (before after : list Z) (k : Z) (b : ArchiveBuilder) :
  NoDup (before ++ k :: after) ->
  (forall i j, i ∈ before ++ k :: after -> j ∈ before ++ k :: after ->
               loc i = loc j -> i = j) ->
  (forall j, j ∈ before -> marked b j -> is_Some (_src_obj_table b !! target b j)) ->
  marked b k ->
  _src_obj_table b !! target b k = None ->
  iterate_over (fun b => SourceObjList._ptrmap (src_objs b read_only))
               (RelocateEmbeddedPointers_do_bit buffered_obj start_idx)
               (before ++ k :: after) b
  = Fatal (AssertFailed "src_addr is used but has not been archived" [target b k]).
Proof.
  intros Hnd Hinj Hres Hmk Hnone.
  rewrite iterate_over_app.
  destruct (relocate_fields_ok read_only buffered_obj start_idx before b)
    as (b1 & Hrun & Htbl & Hrw & Hro & _ & Hframe).
  { apply NoDup_app in Hnd. tauto. }
  { intros i j Hi Hj. apply Hinj; apply elem_of_app; left; assumption. }
  { exact Hres. }
  rewrite Hrun. simpl.
  assert (Hsame : src_objs b1 read_only = src_objs b read_only).
  { unfold src_objs. rewrite Hrw, Hro. reflexivity. }
  rewrite Hsame. unfold marked in Hmk. rewrite Hmk.
  assert (Hload : load (buffer b1) (loc k) = load (buffer b) (loc k)).
  { apply Hframe. intros j Hj _ E. apply Hinj in E.
    - subst j. apply NoDup_app in Hnd. destruct Hnd as (_ & Hnd & _).
      apply (Hnd k Hj). left.
    - apply elem_of_app. right. left.
    - apply elem_of_app. left. exact Hj. }
  rewrite do_bit_unresolved.
  - fold (loc k). rewrite Hload. reflexivity.
  - fold (loc k). rewrite Htbl, Hload. exact Hnone.
Qed.

End RelocateFieldsFailure.

(** C7. Relocating the embedded pointers of a copied object visits every
    marked bit of the object's interval.  When the table holds an entry for
    each pointed-to source address, every marked field is overwritten in
    place with the buffered address of the entry of the source address it
    held, no other word of the buffer changes, and the table and the lists
    with their pointer bitmaps are as before: the bits stay set.  The write
    of a field also sets its bit in the marker's bitmap of the whole buffer.
    When a marked field holds a source address the table has no entry for,
    the run ends in the failed assertion "src_addr is used but has not been
    archived", which reports that address. *)
Theorem C7_embedded_pointers_resolve_through_the_table
        (b : ArchiveBuilder) (read_only : bool) (i : nat) (key : address) :
  let src_info := _src_obj_table b !!! key in
  let start := SourceObjInfo._ptrmap_start src_info in
  let end_ := SourceObjInfo._ptrmap_end src_info in
  let loc := field_location (SourceObjInfo._buffered_addr src_info) start in
  let marked := fun k =>
    start <= k < end_
    /\ BitMap.at_ (SourceObjList._ptrmap (src_objs b read_only)) k = true in
  SourceObjList._objs (src_objs b read_only) !! i = Some key ->
  SourceObjInfo.should_copy src_info = true ->
  end_ - start <= 2 ^ 60 ->
  ((forall k, marked k -> is_Some (_src_obj_table b !! load (buffer b) (loc k))) ->
   exists b',
     relocate b read_only i = Ok b'
     /\ _src_obj_table b' = _src_obj_table b
     /\ _rw_src_objs b' = _rw_src_objs b
     /\ _ro_src_objs b' = _ro_src_objs b
     /\ (forall k, marked k ->
           exists p, _src_obj_table b !! load (buffer b) (loc k) = Some p
                     /\ load (buffer b') (loc k) = SourceObjInfo._buffered_addr p)
     /\ (forall a, (forall k, marked k -> a <> loc k) ->
           load (buffer b') a = load (buffer b) a))
  /\ (forall k p,
        _src_obj_table b !! load (buffer b) (loc k) = Some p ->
        exists b1,
          RelocateEmbeddedPointers_do_bit (SourceObjInfo._buffered_addr src_info) start b k
          = Ok (b1, true)
          /\ load (buffer b1) (loc k) = SourceObjInfo._buffered_addr p
          /\ BitMap.at_ (_ptrmap b1) (wrap (loc k - _buffer_bottom b) / sizeof_address)
             = true)
  /\ (forall k,
        marked k ->
        _src_obj_table b !! load (buffer b) (loc k) = None ->
        (forall j, marked j -> j < k ->
                   is_Some (_src_obj_table b !! load (buffer b) (loc j))) ->
        relocate b read_only i
        = Fatal (AssertFailed "src_addr is used but has not been archived"
                   [load (buffer b) (loc k)])).
Proof.
  intros src_info start end_ loc marked Hi Hcopy Hlen.
  assert (Hinj : forall j k, j ∈ BitMap.range start end_ -> k ∈ BitMap.range start end_ ->
                             loc j = loc k -> j = k).
  { intros j k Hj Hk. apply elem_of_range in Hj, Hk. apply field_location_inj; lia. }
  assert (Hnd : NoDup (BitMap.range start end_)).
  { apply range_NoDup. }
  split; [ | split ].
  - intros Hres.
    destruct (relocate_fields_ok read_only (SourceObjInfo._buffered_addr src_info) start
                (BitMap.range start end_) b Hnd Hinj)
      as (b' & Hrun & Htbl & Hrw & Hro & Hfields & Hframe).
    { intros k Hk Hm. apply Hres. split; [ apply elem_of_range, Hk | exact Hm ]. }
    exists b'. unfold relocate. rewrite Hi. fold src_info. rewrite Hcopy. simpl.
    fold start end_. unfold iterate. rewrite Hrun. simpl.
    repeat split; try assumption.
    + intros k (Hk & Hm). apply Hfields; [ apply elem_of_range, Hk | exact Hm ].
    + intros a Ha. apply Hframe. intros k Hk Hm. apply Ha.
      split; [ apply elem_of_range, Hk | exact Hm ].
  - intros k p Hp. eexists. split; [ apply (do_bit_resolves _ _ _ _ p Hp) | ].
    split.
    + destruct (set_and_mark_pointer_frame b (loc k) (SourceObjInfo._buffered_addr p))
        as (Hbuf & _). unfold loc in *. rewrite Hbuf. apply load_store_eq.
    + apply set_and_mark_pointer_marks.
  - intros k (Hk & Hm) Hnone Hbefore.
    unfold relocate. rewrite Hi. fold src_info. rewrite Hcopy. simpl.
    fold start end_. unfold iterate.
    rewrite (range_split start end_ k Hk) in *.
    rewrite (relocate_fields_unresolved read_only (SourceObjInfo._buffered_addr src_info)
               start (BitMap.range start k) (BitMap.range (k + 1) end_) k b Hnd Hinj).
    + reflexivity.
    + intros j Hj Hmj. apply elem_of_range in Hj. apply Hbefore; [ split | ]; [ lia | exact Hmj | lia ].
    + exact Hm.
    + exact Hnone.
Qed.

Lemma C7_embedded_pointers_resolve_through_the_table_witness :
  is_ok (relocate Scenario.shallow_copied false 0) = true.
Proof.
  destruct (proj1 (C7_embedded_pointers_resolve_through_the_table
                     Scenario.shallow_copied false 0 0x1000
                     ltac:(vm_compute; reflexivity) ltac:(vm_compute; reflexivity)
                     ltac:(vm_compute; discriminate)))
    as (b' & Hrun & _).
  - intros k (Hk & Hm).
    assert (E1 : SourceObjInfo._ptrmap_start
                   (_src_obj_table Scenario.shallow_copied !!! 0x1000) = 0)
      by (vm_compute; reflexivity).
    assert (E2 : SourceObjInfo._ptrmap_end
                   (_src_obj_table Scenario.shallow_copied !!! 0x1000) = 2)
      by (vm_compute; reflexivity).
    rewrite E1, E2 in Hk.
    assert (k = 0 \/ k = 1) as [-> | ->] by (clear - Hk; lia).
    + assert (E : BitMap.at_ (SourceObjList._ptrmap (src_objs Scenario.shallow_copied false)) 0
                  = false) by (vm_compute; reflexivity).
      congruence.
    + vm_compute. eexists. reflexivity.
  - rewrite Hrun. reflexivity.
Defined.

(** ** Relocating the whole buffer: one bit *)

Lemma wrap_add_as_intx (v d : Z) : wrap (v + as_intx d) = wrap (v + d).
Proof.
  unfold wrap, as_intx.
  pose proof (Z.div_mod (d + 2 ^ 63) (2 ^ 64) ltac:(lia)) as E.
  replace (v + ((d + 2 ^ 63) mod 2 ^ 64 - 2 ^ 63))
    with (v + d + (- ((d + 2 ^ 63) / 2 ^ 64)) * 2 ^ 64) by lia.
  apply Z.mod_add. lia.
Qed.

Lemma in_requested_static_set_buffer (b : ArchiveBuilder) (m : gmap address Z) (x : address) :
  is_in_requested_static_archive (set_buffer b m) x = is_in_requested_static_archive b x.
Proof. destruct b; reflexivity. Qed.

Section OneBit.

Context (STATIC_DUMP : bool) (b : ArchiveBuilder) (max_non_null_offset offset : Z).

Let c := closure_over b max_non_null_offset.
Let p := word_location b offset.
Let v := load (buffer b) p.

(** [b] with the word at [p] increased by [delta]. *)
Let moved (delta : Z) : ArchiveBuilder :=
  set_buffer b (store (buffer b) p (wrap (v + delta))).

Lemma do_bit_null :
  is_in_buffer_space b p = true -> v = 0 ->
  RelocateBufferToRequested.do_bit STATIC_DUMP c offset
  = Ok (closure_over (set_ptrmap b (BitMap.clear_bit (_ptrmap b) offset))
                     max_non_null_offset, true).
Proof.
  intros Hp Hv. unfold RelocateBufferToRequested.do_bit. simpl.
  fold (word_location b offset). fold p. rewrite Hp. simpl. fold v. rewrite Hv. simpl.
  destruct b; reflexivity.
Qed.

Lemma closure_moved (delta : Z) :
  RelocateBufferToRequested.set_max_non_null_offset
    (RelocateBufferToRequested.add_to_pointer c p delta) offset
  = closure_over (moved delta) offset.
Proof. unfold moved. destruct b; reflexivity. Qed.

Lemma do_bit_in_buffer :
  is_in_buffer_space b p = true -> v <> 0 ->
  is_in_buffer_space b v = true ->
  (STATIC_DUMP = true ->
   is_in_requested_static_archive b (wrap (v + buffer_to_requested_delta b)) = true) ->
  RelocateBufferToRequested.do_bit STATIC_DUMP c offset
  = Ok (closure_over (moved (buffer_to_requested_delta b)) offset, true).
Proof.
  intros Hp Hv Hin Hreq. apply Z.eqb_neq in Hv.
  unfold RelocateBufferToRequested.do_bit. simpl.
  fold (word_location b offset). fold p. rewrite Hp. simpl. fold v. rewrite Hv.
  destruct STATIC_DUMP.
  - rewrite Hin. simpl.
    rewrite load_store_eq, in_requested_static_set_buffer, (Hreq eq_refl). simpl.
    rewrite <- closure_moved. reflexivity.
  - rewrite Hin. simpl. rewrite <- closure_moved. reflexivity.
Qed.

Lemma do_bit_in_mapped_static_archive :
  STATIC_DUMP = false ->
  is_in_buffer_space b p = true -> v <> 0 ->
  is_in_buffer_space b v = false ->
  is_in_mapped_static_archive b v = true ->
  is_in_requested_static_archive b
    (wrap (v + as_intx (_requested_static_archive_bottom b
                        - _mapped_static_archive_bottom b))) = true ->
  RelocateBufferToRequested.do_bit STATIC_DUMP c offset
  = Ok (closure_over
          (moved (as_intx (_requested_static_archive_bottom b
                           - _mapped_static_archive_bottom b))) offset, true).
Proof.
  intros -> Hp Hv Hin Hmapped Hreq. apply Z.eqb_neq in Hv.
  unfold RelocateBufferToRequested.do_bit. simpl.
  fold (word_location b offset). fold p. rewrite Hp. simpl. fold v. rewrite Hv, Hin.
  rewrite Hmapped. simpl.
  rewrite load_store_eq, in_requested_static_set_buffer, Hreq. simpl.
  rewrite <- closure_moved. reflexivity.
Qed.

Lemma do_bit_stray :
  is_in_buffer_space b p = true -> v <> 0 ->
  is_in_buffer_space b v = false ->
  (STATIC_DUMP = true \/ is_in_mapped_static_archive b v = false) ->
  RelocateBufferToRequested.do_bit STATIC_DUMP c offset
  = Fatal (AssertFailed
             (if STATIC_DUMP then "old pointer must point inside buffer space"
              else "old pointer must point inside buffer space or mapped static archive")
             []).
Proof.
  intros Hp Hv Hin Hstray. apply Z.eqb_neq in Hv.
  unfold RelocateBufferToRequested.do_bit. simpl.
  fold (word_location b offset). fold p. rewrite Hp. simpl. fold v. rewrite Hv.
  destruct STATIC_DUMP.
  - rewrite Hin. reflexivity.
  - destruct Hstray as [Hs | Hs]; [ discriminate | ].
    rewrite Hin, Hs. reflexivity.
Qed.

End OneBit.

Lemma relocate_into_span (v from_bottom from_top to_bottom : Z) :
  0 <= to_bottom -> to_bottom + (from_top - from_bottom) < 2 ^ 64 ->
  from_bottom <= v < from_top ->
  wrap (v + as_intx (to_bottom - from_bottom)) = v + (to_bottom - from_bottom)
  /\ to_bottom <= v + (to_bottom - from_bottom) < to_bottom + (from_top - from_bottom).
Proof.
  intros H0 Htop Hv. rewrite wrap_add_as_intx.
  rewrite wrap_small by lia. lia.
Qed.

Lemma in_span (bottom top x : Z) : (bottom <=? x) && (x <? top) = true <-> bottom <= x < top.
Proof. rewrite andb_true_iff, Z.leb_le, Z.ltb_lt. tauto. Qed.

(** ** Relocating the whole buffer: the scan *)

Lemma do_bit_Ok_inv (STATIC_DUMP : bool) (b : ArchiveBuilder) (m offset : Z)
      (c1 : RelocateBufferToRequested.t) (continue : bool) :
  RelocateBufferToRequested.do_bit STATIC_DUMP (closure_over b m) offset = Ok (c1, continue) ->
  continue = true
  /\ ((load (buffer b) (word_location b offset) = 0
       /\ c1 = closure_over (set_ptrmap b (BitMap.clear_bit (_ptrmap b) offset)) m)
      \/ (load (buffer b) (word_location b offset) <> 0
          /\ exists delta,
               c1 = closure_over
                      (set_buffer b
                         (store (buffer b) (word_location b offset)
                            (wrap (load (buffer b) (word_location b offset) + delta))))
                      offset)).
Proof.
  intros H. unfold RelocateBufferToRequested.do_bit in H. simpl in H.
  fold (word_location b offset) in H. inv_bind H.
  destruct (load (buffer b) (word_location b offset) =? 0) eqn:Hz.
  - injection H as <- <-. split; [ reflexivity | ]. left.
    split; [ apply Z.eqb_eq, Hz | destruct b; reflexivity ].
  - inv_bind H. injection H as <- <-. split; [ reflexivity | ]. right.
    split; [ apply Z.eqb_neq, Hz | ].
    destruct STATIC_DUMP.
    + do 2 inv_bind Ha0. injection Ha0 as <-.
      eexists. apply closure_moved.
    + destruct (is_in_buffer_space b (load (buffer b) (word_location b offset))).
      * injection Ha0 as <-. eexists. apply closure_moved.
      * do 2 inv_bind Ha0. injection Ha0 as <-. eexists. apply closure_moved.
Qed.

Section Scan.

Context (STATIC_DUMP : bool).

Lemma scan_spec (indices : list Z) :
  forall (b : ArchiveBuilder) (m : Z) (c' : RelocateBufferToRequested.t) (continue : bool),
    StronglySorted Z.lt indices ->
    (forall j k, j ∈ indices -> k ∈ indices ->
                 word_location b j = word_location b k -> j = k) ->
    iterate_over (fun c => _ptrmap (RelocateBufferToRequested._builder c))
                 (RelocateBufferToRequested.do_bit STATIC_DUMP) indices (closure_over b m)
    = Ok (c', continue) ->
    exists b' m',
      c' = closure_over b' m' /\ continue = true
      /\ buffer_bottom b' = buffer_bottom b
      /\ BitMap.size (_ptrmap b') = BitMap.size (_ptrmap b)
      /\ (forall k, k ∉ indices -> BitMap.at_ (_ptrmap b') k = BitMap.at_ (_ptrmap b) k)
      /\ (forall k, k ∈ indices ->
            BitMap.at_ (_ptrmap b') k
            = BitMap.at_ (_ptrmap b) k && negb (load (buffer b) (word_location b k) =? 0))
      /\ (forall a, (forall k, k ∈ indices -> BitMap.at_ (_ptrmap b) k = true ->
                               load (buffer b) (word_location b k) <> 0 ->
                               a <> word_location b k) ->
            load (buffer b') a = load (buffer b) a)
      /\ ((m' = m /\ forall k, k ∈ indices -> BitMap.at_ (_ptrmap b') k = false)
          \/ (m' ∈ indices /\ BitMap.at_ (_ptrmap b') m' = true
              /\ forall k, k ∈ indices -> BitMap.at_ (_ptrmap b') k = true -> k <= m')).
Proof.
  induction indices as [ | i rest IH ]; intros b m c' continue Hsorted Hinj H.
  - simpl in H. injection H as <- <-. exists b, m.
    repeat split; try reflexivity.
    + intros k Hk. apply elem_of_nil in Hk. contradiction.
    + left. split; [ reflexivity | ]. intros k Hk. apply elem_of_nil in Hk. contradiction.
  - apply StronglySorted_inv in Hsorted. destruct Hsorted as (Hsorted & Hlt).
    rewrite Forall_forall in Hlt.
    assert (Hi : i ∉ rest) by (intros Hin; specialize (Hlt i Hin); lia).
    assert (Hloc : forall k, k ∈ rest -> word_location b i <> word_location b k).
    { intros k Hk E. apply Hinj in E; [ subst; contradiction | left | right; exact Hk ]. }
    simpl in H.
    destruct (BitMap.at_ (_ptrmap b) i) eqn:Hm.
    + inv_bind H. destruct a as [c1 cont1].
      destruct (do_bit_Ok_inv _ _ _ _ _ _ Ha) as (-> & [(Hnull & ->) | (Hnonnull & delta & ->)]).
      * (* the word is null: the bit is cleared *)
        set (b1 := set_ptrmap b (BitMap.clear_bit (_ptrmap b) i)) in *.
        assert (Hb1 : buffer b1 = buffer b /\ buffer_bottom b1 = buffer_bottom b
                      /\ _ptrmap b1 = BitMap.clear_bit (_ptrmap b) i)
          by (destruct b; simpl; auto).
        destruct Hb1 as (Hbuf & Hbot & Hmap).
        assert (Hwl : forall k, word_location b1 k = word_location b k)
          by (intros k; unfold word_location; rewrite Hbot; reflexivity).
        destruct (IH b1 m c' continue Hsorted) as
            (b' & m' & -> & -> & Hbot' & Hsize & Hout & Hin & Hframe & Hmax).
        { intros j k Hj Hk. rewrite !Hwl. apply Hinj; right; assumption. }
        { exact H. }
        assert (Hat : forall k, k <> i ->
                      BitMap.at_ (_ptrmap b1) k = BitMap.at_ (_ptrmap b) k).
        { intros k Hk. rewrite Hmap. unfold BitMap.at_, BitMap.clear_bit. simpl.
          apply Z.clearbit_neq. congruence. }
        assert (Hati : BitMap.at_ (_ptrmap b') i = false).
        { rewrite (Hout i Hi), Hmap. unfold BitMap.at_, BitMap.clear_bit. simpl.
          apply Z.clearbit_eq. }
        exists b', m'. repeat split.
        -- congruence.
        -- rewrite Hsize, Hmap. reflexivity.
        -- intros k Hk. apply not_elem_of_cons in Hk. destruct Hk as (Hki & Hk).
           rewrite (Hout k Hk). apply Hat, Hki.
        -- intros k Hk. apply elem_of_cons in Hk. destruct Hk as [-> | Hk].
           ++ rewrite Hati, Hm, Hnull. reflexivity.
           ++ rewrite (Hin k Hk), Hbuf, Hwl, Hat; [ reflexivity | ].
              intros ->. contradiction.
        -- intros a Ha'. rewrite Hframe, Hbuf; [ reflexivity | ].
           intros k Hk Hmk Hnz. rewrite Hwl. rewrite Hbuf, Hwl in Hnz.
           apply Ha'; [ right; exact Hk | | exact Hnz ].
           rewrite <- Hat; [ exact Hmk | intros ->; contradiction ].
        -- destruct Hmax as [(-> & Hall) | (Hm' & Hatm & Hle)].
           ++ left. split; [ reflexivity | ].
              intros k Hk. apply elem_of_cons in Hk. destruct Hk as [-> | Hk]; auto.
           ++ right. split; [ right; exact Hm' | ]. split; [ exact Hatm | ].
              intros k Hk Hk1. apply elem_of_cons in Hk. destruct Hk as [-> | Hk]; auto.
              congruence.
      * (* the word holds a pointer: it is moved, the offset is remembered *)
        set (b1 := set_buffer b
                     (store (buffer b) (word_location b i)
                        (wrap (load (buffer b) (word_location b i) + delta)))) in *.
        assert (Hb1 : buffer b1 = store (buffer b) (word_location b i)
                                    (wrap (load (buffer b) (word_location b i) + delta))
                      /\ buffer_bottom b1 = buffer_bottom b /\ _ptrmap b1 = _ptrmap b)
          by (destruct b; simpl; auto).
        destruct Hb1 as (Hbuf & Hbot & Hmap).
        assert (Hwl : forall k, word_location b1 k = word_location b k)
          by (intros k; unfold word_location; rewrite Hbot; reflexivity).
        destruct (IH b1 i c' continue Hsorted) as
            (b' & m' & -> & -> & Hbot' & Hsize & Hout & Hin & Hframe & Hmax).
        { intros j k Hj Hk. rewrite !Hwl. apply Hinj; right; assumption. }
        { exact H. }
        assert (Hld : forall k, k ∈ rest ->
                      load (buffer b1) (word_location b k) = load (buffer b) (word_location b k)).
        { intros k Hk. rewrite Hbuf. apply load_store_ne, Hloc, Hk. }
        assert (Hati : BitMap.at_ (_ptrmap b') i = true).
        { rewrite (Hout i Hi), Hmap. exact Hm. }
        exists b', m'. repeat split.
        -- congruence.
        -- rewrite Hsize, Hmap. reflexivity.
        -- intros k Hk. apply not_elem_of_cons in Hk. destruct Hk as (Hki & Hk).
           rewrite (Hout k Hk), Hmap. reflexivity.
        -- intros k Hk. apply elem_of_cons in Hk. destruct Hk as [-> | Hk].
           ++ rewrite Hati, Hm. apply Z.eqb_neq in Hnonnull. rewrite Hnonnull. reflexivity.
           ++ rewrite (Hin k Hk), Hmap, Hwl, (Hld k Hk). reflexivity.
        -- intros a Ha'. rewrite Hframe.
           ++ rewrite Hbuf. apply load_store_ne. apply not_eq_sym.
              apply Ha'; [ left | exact Hm | exact Hnonnull ].
           ++ intros k Hk Hmk Hnz. rewrite Hwl. rewrite Hwl, (Hld k Hk) in Hnz.
              apply Ha'; [ right; exact Hk | | exact Hnz ].
              rewrite <- Hmap. exact Hmk.
        -- right. destruct Hmax as [(-> & Hall) | (Hm' & Hatm & Hle)].
           ++ split; [ left | ]. split; [ exact Hati | ].
              intros k Hk Hk1. apply elem_of_cons in Hk. destruct Hk as [-> | Hk]; [ lia | ].
              rewrite (Hall k Hk) in Hk1. discriminate.
           ++ split; [ right; exact Hm' | ]. split; [ exact Hatm | ].
              intros k Hk Hk1. apply elem_of_cons in Hk. destruct Hk as [-> | Hk]; auto.
              specialize (Hlt m' Hm'). lia.
    + (* the bit is not set: the word is skipped *)
      destruct (IH b m c' continue Hsorted) as
          (b' & m' & -> & -> & Hbot' & Hsize & Hout & Hin & Hframe & Hmax).
      { intros j k Hj Hk. apply Hinj; right; assumption. }
      { exact H. }
      assert (Hati : BitMap.at_ (_ptrmap b') i = false).
      { rewrite (Hout i Hi). exact Hm. }
      exists b', m'. repeat split; try assumption.
      * intros k Hk. apply not_elem_of_cons in Hk. destruct Hk as (Hki & Hk). auto.
      * intros k Hk. apply elem_of_cons in Hk. destruct Hk as [-> | Hk]; auto.
        rewrite Hati, Hm. reflexivity.
      * intros a Ha'. apply Hframe. intros k Hk. apply Ha'. right. exact Hk.
      * destruct Hmax as [(-> & Hall) | (Hm' & Hatm & Hle)].
        -- left. split; [ reflexivity | ].
           intros k Hk. apply elem_of_cons in Hk. destruct Hk as [-> | Hk]; auto.
        -- right. split; [ right; exact Hm' | ]. split; [ exact Hatm | ].
           intros k Hk Hk1. apply elem_of_cons in Hk. destruct Hk as [-> | Hk]; auto.
           congruence.
Qed.

End Scan.

(** ** Relocating the whole buffer: what the scan leaves alone *)

Lemma same_but_buffer_and_bitmap_refl (b : ArchiveBuilder) : same_but_buffer_and_bitmap b b.
Proof. unfold same_but_buffer_and_bitmap. destruct b; reflexivity. Qed.

Lemma same_but_buffer_and_bitmap_trans (b1 b2 b3 : ArchiveBuilder) :
  same_but_buffer_and_bitmap b1 b2 -> same_but_buffer_and_bitmap b2 b3 ->
  same_but_buffer_and_bitmap b1 b3.
Proof.
  unfold same_but_buffer_and_bitmap. intros H12 H23. rewrite H23. rewrite H12 at 1.
  destruct b1; reflexivity.
Qed.

Lemma same_but_buffer_and_bitmap_set_buffer (b : ArchiveBuilder) (m : gmap Z Z) :
  same_but_buffer_and_bitmap b (set_buffer b m).
Proof. unfold same_but_buffer_and_bitmap. destruct b; reflexivity. Qed.

Lemma same_but_buffer_and_bitmap_set_ptrmap (b : ArchiveBuilder) (m : BitMap.t) :
  same_but_buffer_and_bitmap b (set_ptrmap b m).
Proof. unfold same_but_buffer_and_bitmap. destruct b; reflexivity. Qed.

Lemma same_but_buffer_and_bitmap_fields (b b' : ArchiveBuilder) :
  same_but_buffer_and_bitmap b b' ->
  _src_obj_table b' = _src_obj_table b
  /\ _buffered_to_src_table b' = _buffered_to_src_table b
  /\ _rw_src_objs b' = _rw_src_objs b /\ _ro_src_objs b' = _ro_src_objs b
  /\ _rw_region b' = _rw_region b /\ _ro_region b' = _ro_region b
  /\ _current_dump_space b' = _current_dump_space b
  /\ _buffer_bottom b' = _buffer_bottom b
  /\ _buffer_to_requested_delta b' = _buffer_to_requested_delta b
  /\ _requested_static_archive_bottom b' = _requested_static_archive_bottom b
  /\ _requested_static_archive_top b' = _requested_static_archive_top b
  /\ _requested_dynamic_archive_bottom b' = _requested_dynamic_archive_bottom b
  /\ _requested_dynamic_archive_top b' = _requested_dynamic_archive_top b
  /\ _mapped_static_archive_bottom b' = _mapped_static_archive_bottom b
  /\ _mapped_static_archive_top b' = _mapped_static_archive_top b
  /\ _klasses b' = _klasses b /\ _symbols b' = _symbols b.
Proof.
  unfold same_but_buffer_and_bitmap. intros ->. destruct b; simpl. repeat split.
Qed.

Section ScanFrame.

Context (STATIC_DUMP : bool).

Lemma scan_frame (indices : list Z) :
  forall (b : ArchiveBuilder) (m : Z) (c' : RelocateBufferToRequested.t) (continue : bool),
    iterate_over (fun c => _ptrmap (RelocateBufferToRequested._builder c))
                 (RelocateBufferToRequested.do_bit STATIC_DUMP) indices (closure_over b m)
    = Ok (c', continue) ->
    exists b' m', c' = closure_over b' m' /\ same_but_buffer_and_bitmap b b'.
Proof.
  induction indices as [ | i rest IH]; intros b m c' continue H.
  - injection H as <- _. exists b, m. split; [ reflexivity | ].
    apply same_but_buffer_and_bitmap_refl.
  - simpl in H.
    destruct (BitMap.at_ (_ptrmap b) i).
    + inv_bind H. destruct a as [c1 continue1].
      apply do_bit_Ok_inv in Ha.
      destruct Ha as (-> & [(_ & ->) | (_ & delta & ->)]).
      * destruct (IH _ _ _ _ H) as (b' & m' & -> & Hsame). exists b', m'.
        split; [ reflexivity | ].
        exact (same_but_buffer_and_bitmap_trans _ _ _
                 (same_but_buffer_and_bitmap_set_ptrmap _ _) Hsame).
      * destruct (IH _ _ _ _ H) as (b' & m' & -> & Hsame). exists b', m'.
        split; [ reflexivity | ].
        exact (same_but_buffer_and_bitmap_trans _ _ _
                 (same_but_buffer_and_bitmap_set_buffer _ _) Hsame).
    + exact (IH _ _ _ _ H).
Qed.

Lemma doit_frame (b : ArchiveBuilder) (c' : RelocateBufferToRequested.t) :
  RelocateBufferToRequested.doit STATIC_DUMP (RelocateBufferToRequested.new b) = Ok c' ->
  same_but_buffer_and_bitmap b (RelocateBufferToRequested._builder c').
Proof.
  unfold RelocateBufferToRequested.doit. intros H.
  inv_bind H. destruct a as [c1 continue]. injection H as <-. simpl in Ha.
  change (RelocateBufferToRequested.new b) with (closure_over b 0) in Ha.
  destruct (scan_frame _ _ _ _ _ Ha) as (b1 & m1 & -> & Hsame). simpl.
  exact (same_but_buffer_and_bitmap_trans _ _ _ Hsame
           (same_but_buffer_and_bitmap_set_ptrmap _ _)).
Qed.

End ScanFrame.

(** ** The compacted bitmap *)

Lemma at_resize (m : BitMap.t) (n k : Z) :
  BitMap.at_ (BitMap.resize m n) k = BitMap.at_ m k && Z.testbit (Z.ones n) k.
Proof. unfold BitMap.at_, BitMap.resize. simpl. apply Z.land_spec. Qed.

Lemma ones_nonneg (n : Z) : 0 <= n -> 0 <= Z.ones n.
Proof.
  intros H. rewrite Z.ones_equiv. pose proof (Z.pow_pos_nonneg 2 n ltac:(lia) H). lia.
Qed.

Lemma log2_of_resized (m : BitMap.t) (n : Z) :
  0 <= n -> BitMap.bits (BitMap.resize m n) <> 0 ->
  0 <= Z.log2 (BitMap.bits (BitMap.resize m n)) < n
  /\ BitMap.at_ (BitMap.resize m n) (Z.log2 (BitMap.bits (BitMap.resize m n))) = true.
Proof.
  intros Hn Hnz.
  assert (Hpos : 0 < BitMap.bits (BitMap.resize m n)).
  { assert (0 <= BitMap.bits (BitMap.resize m n)); [ | lia ].
    unfold BitMap.resize. simpl. apply Z.land_nonneg. right. apply ones_nonneg, Hn. }
  pose proof (Z.bit_log2 _ Hpos) as Hbit.
  pose proof (Z.log2_nonneg (BitMap.bits (BitMap.resize m n))) as Hl.
  split; [ | exact Hbit ].
  split; [ exact Hl | ].
  set (L := Z.log2 (BitMap.bits (BitMap.resize m n))) in *.
  destruct (Z_lt_le_dec L n) as [Hlt | Hge]; [ exact Hlt | ].
  unfold BitMap.resize in Hbit. simpl in Hbit.
  rewrite Z.land_spec, (Z.ones_spec_high n) in Hbit by lia.
  rewrite andb_false_r in Hbit. discriminate.
Qed.

Lemma highest_set_bit_resize (m : BitMap.t) (n : Z) :
  0 <= n -> BitMap.at_ m n = true ->
  BitMap.highest_set_bit (BitMap.resize m (n + 1)) = Some n.
Proof.
  intros Hn Hat.
  assert (Hbit : BitMap.at_ (BitMap.resize m (n + 1)) n = true).
  { rewrite at_resize, Hat, Z.ones_spec_low by lia. reflexivity. }
  assert (Hnz : BitMap.bits (BitMap.resize m (n + 1)) <> 0).
  { intros E. unfold BitMap.at_ in Hbit. rewrite E, Z.bits_0 in Hbit. discriminate. }
  unfold BitMap.highest_set_bit.
  apply Z.eqb_neq in Hnz as Hnzb. rewrite Hnzb. f_equal.
  destruct (log2_of_resized m (n + 1) ltac:(lia) Hnz) as (Hrange & _).
  destruct (Z_lt_le_dec (Z.log2 (BitMap.bits (BitMap.resize m (n + 1)))) n) as [Hlt | Hge];
    [ | lia ].
  unfold BitMap.at_ in Hbit.
  rewrite Z.bits_above_log2 in Hbit; [ discriminate | | exact Hlt ].
  unfold BitMap.resize. simpl. apply Z.land_nonneg. right. apply ones_nonneg. lia.
Qed.

Lemma highest_set_bit_resize_1 (m : BitMap.t) :
  BitMap.highest_set_bit (BitMap.resize m 1) = None
  \/ BitMap.highest_set_bit (BitMap.resize m 1) = Some 0.
Proof.
  unfold BitMap.highest_set_bit.
  destruct (BitMap.bits (BitMap.resize m 1) =? 0) eqn:Hz; [ left; reflexivity | right ].
  apply Z.eqb_neq in Hz. destruct (log2_of_resized m 1 ltac:(lia) Hz) as (Hrange & _).
  f_equal. lia.
Qed.

Lemma word_location_inj (b : ArchiveBuilder) (j k : Z) :
  0 <= j < 2 ^ 60 -> 0 <= k < 2 ^ 60 ->
  word_location b j = word_location b k -> j = k.
Proof.
  unfold word_location, sizeof_address. intros Hj Hk H.
  apply wrap_add_inj in H; lia.
Qed.

(** C5. In the whole-buffer relocation, every marked position whose word is
    null has its bit cleared and its word left null; the bits that survive
    are those of the marked positions whose word is not null; and the
    compaction that follows the scan cuts the logical length of the bitmap
    down to the highest surviving bit plus one (to one bit when no bit
    survives), whatever length was reserved. *)
Theorem C5_null_pointers_unmarked_and_bitmap_compacted
        (STATIC_DUMP : bool) (b : ArchiveBuilder) (c' : RelocateBufferToRequested.t) :
  BitMap.size (_ptrmap b) <= 2 ^ 60 ->
  RelocateBufferToRequested.doit STATIC_DUMP (RelocateBufferToRequested.new b) = Ok c' ->
  let b' := RelocateBufferToRequested._builder c' in
  (forall offset,
      0 <= offset < BitMap.size (_ptrmap b) ->
      BitMap.at_ (_ptrmap b) offset = true ->
      load (buffer b) (word_location b offset) = 0 ->
      BitMap.at_ (_ptrmap b') offset = false
      /\ load (buffer b') (word_location b offset) = 0)
  /\ (forall offset,
        0 <= offset < BitMap.size (_ptrmap b) ->
        BitMap.at_ (_ptrmap b') offset
        = BitMap.at_ (_ptrmap b) offset
          && negb (load (buffer b) (word_location b offset) =? 0))
  /\ BitMap.size (_ptrmap b')
     = match BitMap.highest_set_bit (_ptrmap b') with
       | Some highest => highest + 1
       | None => 1
       end.
Proof.
  intros Hsize H b'. unfold RelocateBufferToRequested.doit in H.
  inv_bind H. destruct a as [c1 continue]. injection H as H. simpl in Ha.
  change (RelocateBufferToRequested.new b) with (closure_over b 0) in Ha.
  destruct (scan_spec STATIC_DUMP (BitMap.range 0 (BitMap.size (_ptrmap b)))
              b 0 c1 continue (range_ascending _ _)) as
      (b1 & m1 & -> & -> & Hbot & Hsz & Hout & Hin & Hframe & Hmax).
  { intros j k Hj Hk. apply elem_of_range in Hj, Hk. apply word_location_inj; lia. }
  { exact Ha. }
  assert (Hm1 : 0 <= m1 < 2 ^ 60).
  { destruct Hmax as [(-> & _) | (Hm' & _)]; [ lia | ].
    apply elem_of_range in Hm'. lia. }
  assert (Hb' : buffer b' = buffer b1
                /\ _ptrmap b' = BitMap.resize (_ptrmap b1) (m1 + 1)).
  { subst b'. rewrite <- H. simpl.
    unfold ArchivePtrMarker.compact. rewrite wrap_small by lia.
    destruct b1; simpl; auto. }
  destruct Hb' as (Hbuf & Hmap).
  assert (Hbits : forall offset,
             0 <= offset < BitMap.size (_ptrmap b) ->
             BitMap.at_ (_ptrmap b') offset
             = BitMap.at_ (_ptrmap b) offset
               && negb (load (buffer b) (word_location b offset) =? 0)).
  { intros offset Hoff. rewrite Hmap, at_resize.
    rewrite <- (Hin offset) by (apply elem_of_range; lia).
    destruct (BitMap.at_ (_ptrmap b1) offset) eqn:Hat; [ | reflexivity ].
    destruct Hmax as [(_ & Hall) | (_ & _ & Hle)].
    - rewrite Hall in Hat by (apply elem_of_range; lia). discriminate.
    - specialize (Hle offset ltac:(apply elem_of_range; lia) Hat).
      rewrite Z.ones_spec_low by lia. reflexivity. }
  split; [ | split ].
  - intros offset Hoff Hmarked Hnull. split.
    + rewrite (Hbits offset Hoff), Hmarked, Hnull. reflexivity.
    + rewrite Hbuf, Hframe; [ exact Hnull | ].
      intros k Hk _ Hnz E. apply elem_of_range in Hk.
      apply word_location_inj in E; [ | lia | lia ]. subst k. contradiction.
  - exact Hbits.
  - rewrite Hmap. change (BitMap.size (BitMap.resize (_ptrmap b1) (m1 + 1))) with (m1 + 1).
    destruct Hmax as [(-> & _) | (_ & Hat & _)].
    + change (0 + 1) with 1.
      destruct (highest_set_bit_resize_1 (_ptrmap b1)) as [-> | ->]; reflexivity.
    + rewrite (highest_set_bit_resize (_ptrmap b1) m1 (proj1 Hm1) Hat). reflexivity.
Qed.

Lemma C5_null_pointers_unmarked_and_bitmap_compacted_witness :
  BitMap.size (_ptrmap (RelocateBufferToRequested._builder Scenario.relocated_closure))
  = match BitMap.highest_set_bit
            (_ptrmap (RelocateBufferToRequested._builder Scenario.relocated_closure)) with
    | Some highest => highest + 1
    | None => 1
    end.
Proof.
  apply (proj2 (proj2 (C5_null_pointers_unmarked_and_bitmap_compacted
                         true Scenario.packed Scenario.relocated_closure
                         ltac:(vm_compute; discriminate)
                         ltac:(vm_compute; reflexivity)))).
Defined.

(** ** Relocating the whole buffer: the pass *)

Lemma same_but_buffer_and_bitmap_spans (b b1 : ArchiveBuilder) :
  same_but_buffer_and_bitmap b b1 ->
  (forall x, is_in_buffer_space b1 x = is_in_buffer_space b x)
  /\ (forall x, is_in_mapped_static_archive b1 x = is_in_mapped_static_archive b x)
  /\ (forall x, is_in_requested_static_archive b1 x = is_in_requested_static_archive b x)
  /\ (forall s x, is_in_requested_archive s b1 x = is_in_requested_archive s b x)
  /\ (forall s x, is_stray_pointer s b1 x = is_stray_pointer s b x)
  /\ (forall k, word_location b1 k = word_location b k)
  /\ buffer_to_requested_delta b1 = buffer_to_requested_delta b
  /\ _requested_static_archive_bottom b1 = _requested_static_archive_bottom b
  /\ _mapped_static_archive_bottom b1 = _mapped_static_archive_bottom b
  /\ (forall s, layout_finalized s b -> layout_finalized s b1).
Proof.
  unfold same_but_buffer_and_bitmap. intros ->. destruct b.
  repeat (split; [ reflexivity | ]).
  intros static_dump Hlayout. exact Hlayout.
Qed.

Section Pass.

Context (STATIC_DUMP : bool).

(** The value the relocation gives a pointer [v] that is not stray. *)
Let relocated (b : ArchiveBuilder) (v : address) : address :=
  if is_in_buffer_space b v then wrap (v + buffer_to_requested_delta b)
  else wrap (v + as_intx (_requested_static_archive_bottom b
                          - _mapped_static_archive_bottom b)).

Lemma do_bit_advances (b : ArchiveBuilder) (m i : Z) :
  layout_finalized STATIC_DUMP b ->
  is_in_buffer_space b (word_location b i) = true ->
  is_stray_pointer STATIC_DUMP b (load (buffer b) (word_location b i)) = false ->
  exists b1 m1,
    RelocateBufferToRequested.do_bit STATIC_DUMP (closure_over b m) i
    = Ok (closure_over b1 m1, true)
    /\ same_but_buffer_and_bitmap b b1
    /\ (forall a, a <> word_location b i -> load (buffer b1) a = load (buffer b) a)
    /\ (forall k, k <> i -> BitMap.at_ (_ptrmap b1) k = BitMap.at_ (_ptrmap b) k)
    /\ (load (buffer b) (word_location b i) <> 0 ->
        load (buffer b1) (word_location b i)
        = relocated b (load (buffer b) (word_location b i))).
Proof.
  intros Hlayout Hp Hstray.
  set (v := load (buffer b) (word_location b i)) in *.
  destruct Hlayout as (Hbb & Hbt & Hbt64 & Hdelta & Hrb & Hrt & Hrt64 & Hext).
  destruct (Z.eq_dec v 0) as [Hz | Hnz].
  - exists (set_ptrmap b (BitMap.clear_bit (_ptrmap b) i)), m.
    split; [ apply do_bit_null; assumption | ].
    split; [ apply same_but_buffer_and_bitmap_set_ptrmap | ].
    split; [ intros a _; destruct b; reflexivity | ].
    split; [ | intros H; contradiction ].
    intros k Hk. replace (_ptrmap (set_ptrmap b (BitMap.clear_bit (_ptrmap b) i)))
      with (BitMap.clear_bit (_ptrmap b) i) by (destruct b; reflexivity).
    unfold BitMap.at_, BitMap.clear_bit. simpl. apply Z.clearbit_neq. congruence.
  - unfold is_stray_pointer in Hstray. apply Z.eqb_neq in Hnz as Hnzb.
    rewrite Hnzb in Hstray. simpl in Hstray.
    destruct (is_in_buffer_space b v) eqn:Hin.
    + pose proof Hin as Hin'. apply in_span in Hin'.
      destruct (relocate_into_span v (buffer_bottom b) (buffer_top b)
                  (requested_bottom STATIC_DUMP b) Hrb ltac:(lia) Hin') as (Hw & Hspan).
      rewrite <- Hdelta in Hw.
      exists (set_buffer b (store (buffer b) (word_location b i)
                              (wrap (v + buffer_to_requested_delta b)))), i.
      split.
      { apply do_bit_in_buffer; try assumption.
        intros ->. fold v. rewrite Hw. apply in_span. simpl in *. lia. }
      split; [ apply same_but_buffer_and_bitmap_set_buffer | ].
      replace (buffer (set_buffer b (store (buffer b) (word_location b i)
                                       (wrap (v + buffer_to_requested_delta b)))))
        with (store (buffer b) (word_location b i) (wrap (v + buffer_to_requested_delta b)))
        by (destruct b; reflexivity).
      split; [ intros a Ha; apply load_store_ne; congruence | ].
      split; [ intros k _; destruct b; reflexivity | ].
      intros _. rewrite load_store_eq. unfold relocated. rewrite Hin. reflexivity.
    + simpl in Hstray. apply orb_false_iff in Hstray. destruct Hstray as (Hs & Hmapped).
      apply negb_false_iff in Hmapped.
      pose proof Hmapped as Hm'. apply in_span in Hm'.
      destruct (Hext Hs) as (Hmb & Hmt & Hmt64 & Hsb & Hst & Hst64).
      destruct (relocate_into_span v (_mapped_static_archive_bottom b)
                  (_mapped_static_archive_top b) (_requested_static_archive_bottom b)
                  Hsb ltac:(lia) Hm') as (Hw & Hspan).
      exists (set_buffer b
                (store (buffer b) (word_location b i)
                   (wrap (v + as_intx (_requested_static_archive_bottom b
                                       - _mapped_static_archive_bottom b))))), i.
      split.
      { apply do_bit_in_mapped_static_archive; try assumption.
        fold v. rewrite Hw. apply in_span. lia. }
      split; [ apply same_but_buffer_and_bitmap_set_buffer | ].
      replace (buffer (set_buffer b
                         (store (buffer b) (word_location b i)
                            (wrap (v + as_intx (_requested_static_archive_bottom b
                                                - _mapped_static_archive_bottom b))))))
        with (store (buffer b) (word_location b i)
                (wrap (v + as_intx (_requested_static_archive_bottom b
                                    - _mapped_static_archive_bottom b))))
        by (destruct b; reflexivity).
      split; [ intros a Ha; apply load_store_ne; congruence | ].
      split; [ intros k _; destruct b; reflexivity | ].
      intros _. rewrite load_store_eq. unfold relocated. rewrite Hin. reflexivity.
Qed.

Lemma scan_succeeds (indices : list Z) :
  forall (b : ArchiveBuilder) (m : Z),
    StronglySorted Z.lt indices ->
    (forall j k, j ∈ indices -> k ∈ indices ->
                 word_location b j = word_location b k -> j = k) ->
    layout_finalized STATIC_DUMP b ->
    (forall k, k ∈ indices -> BitMap.at_ (_ptrmap b) k = true ->
               is_in_buffer_space b (word_location b k) = true
               /\ is_stray_pointer STATIC_DUMP b (load (buffer b) (word_location b k)) = false) ->
    exists c',
      iterate_over (fun c => _ptrmap (RelocateBufferToRequested._builder c))
                   (RelocateBufferToRequested.do_bit STATIC_DUMP) indices (closure_over b m)
      = Ok (c', true)
      /\ forall k, k ∈ indices -> BitMap.at_ (_ptrmap b) k = true ->
                   load (buffer b) (word_location b k) <> 0 ->
                   load (buffer (RelocateBufferToRequested._builder c')) (word_location b k)
                   = relocated b (load (buffer b) (word_location b k)).
Proof.
  induction indices as [ | i rest IH]; intros b m Hsorted Hinj Hlayout Hgood.
  - exists (closure_over b m). split; [ reflexivity | ].
    intros k Hk. apply elem_of_nil in Hk. contradiction.
  - apply StronglySorted_inv in Hsorted as Hs. destruct Hs as (Hsorted' & Hlt).
    rewrite Forall_forall in Hlt.
    assert (Hi : i ∉ rest) by (intros Hin; specialize (Hlt i Hin); lia).
    assert (Hloc : forall k, k ∈ rest -> word_location b k <> word_location b i).
    { intros k Hk E. apply Hinj in E; [ subst; contradiction | right; exact Hk | left ]. }
    simpl.
    destruct (BitMap.at_ (_ptrmap b) i) eqn:Hm.
    + destruct (Hgood i ltac:(left) Hm) as (Hp & Hstray).
      destruct (do_bit_advances b m i Hlayout Hp Hstray)
        as (b1 & m1 & Hrun & Hsame & Hframe & Hbits & Hvalue).
      destruct (same_but_buffer_and_bitmap_spans b b1 Hsame)
        as (Hbuf1 & Hmap1 & _ & _ & Hstray1 & Hwl & Hdelta1 & Hsb1 & Hmb1 & Hlayout1).
      assert (Hrel1 : forall x, relocated b1 x = relocated b x).
      { intros x. unfold relocated. rewrite Hbuf1, Hdelta1, Hsb1, Hmb1. reflexivity. }
      destruct (IH b1 m1 Hsorted') as (c' & Hrest & Hvalues).
      { intros j k Hj Hk. rewrite !Hwl. apply Hinj; right; assumption. }
      { apply Hlayout1, Hlayout. }
      { intros k Hk Hmk. rewrite Hwl, Hbuf1, Hstray1, (Hframe _ (Hloc k Hk)).
        apply Hgood; [ right; exact Hk | ].
        rewrite <- Hbits; [ exact Hmk | intros ->; contradiction ]. }
      exists c'. rewrite Hrun. simpl. split; [ exact Hrest | ].
      intros k Hk Hmk Hnz. apply elem_of_cons in Hk. destruct Hk as [-> | Hk].
      * rewrite <- (Hvalue Hnz).
        destruct (scan_spec STATIC_DUMP rest b1 m1 c' true Hsorted') as
            (b' & m' & -> & _ & _ & _ & _ & _ & Hframe' & _).
        { intros j k Hj Hk'. rewrite !Hwl. apply Hinj; right; assumption. }
        { exact Hrest. }
        apply Hframe'. intros k Hk _ _. rewrite Hwl. apply not_eq_sym, Hloc, Hk.
      * assert (Hki : k <> i) by (intros ->; contradiction).
        specialize (Hvalues k Hk). rewrite Hwl, (Hframe _ (Hloc k Hk)), Hrel1 in Hvalues.
        apply Hvalues; [ | exact Hnz ].
        rewrite Hbits by exact Hki. exact Hmk.
    + destruct (IH b m Hsorted') as (c' & Hrest & Hvalues).
      { intros j k Hj Hk. apply Hinj; right; assumption. }
      { exact Hlayout. }
      { intros k Hk. apply Hgood. right. exact Hk. }
      exists c'. split; [ exact Hrest | ].
      intros k Hk Hmk. apply elem_of_cons in Hk. destruct Hk as [-> | Hk]; [ congruence | ].
      apply Hvalues; assumption.
Qed.

Lemma scan_stops_at_a_stray_pointer (indices : list Z) :
  forall (b : ArchiveBuilder) (m : Z),
    StronglySorted Z.lt indices ->
    (forall j k, j ∈ indices -> k ∈ indices ->
                 word_location b j = word_location b k -> j = k) ->
    layout_finalized STATIC_DUMP b ->
    (forall k, k ∈ indices -> BitMap.at_ (_ptrmap b) k = true ->
               is_in_buffer_space b (word_location b k) = true) ->
    (exists k, k ∈ indices /\ BitMap.at_ (_ptrmap b) k = true
               /\ is_stray_pointer STATIC_DUMP b (load (buffer b) (word_location b k)) = true) ->
    iterate_over (fun c => _ptrmap (RelocateBufferToRequested._builder c))
                 (RelocateBufferToRequested.do_bit STATIC_DUMP) indices (closure_over b m)
    = Fatal (AssertFailed (stray_pointer_message STATIC_DUMP) []).
Proof.
  induction indices as [ | i rest IH]; intros b m Hsorted Hinj Hlayout Hin (k & Hk & Hmk & Hsk).
  - apply elem_of_nil in Hk. contradiction.
  - apply StronglySorted_inv in Hsorted as Hs. destruct Hs as (Hsorted' & Hlt).
    rewrite Forall_forall in Hlt.
    assert (Hi : i ∉ rest) by (intros Hi; specialize (Hlt i Hi); lia).
    assert (Hloc : forall j, j ∈ rest -> word_location b j <> word_location b i).
    { intros j Hj E. apply Hinj in E; [ subst; contradiction | right; exact Hj | left ]. }
    simpl.
    destruct (BitMap.at_ (_ptrmap b) i) eqn:Hm.
    + pose proof (Hin i ltac:(left) Hm) as Hp.
      destruct (is_stray_pointer STATIC_DUMP b (load (buffer b) (word_location b i)))
        eqn:Hstray.
      * unfold is_stray_pointer in Hstray.
        apply andb_true_iff in Hstray. destruct Hstray as (Hstray & Hno).
        apply andb_true_iff in Hstray. destruct Hstray as (Hnz & Hout).
        apply negb_true_iff, Z.eqb_neq in Hnz. apply negb_true_iff in Hout.
        rewrite (do_bit_stray STATIC_DUMP b m i Hp Hnz Hout).
        { reflexivity. }
        apply orb_true_iff in Hno. destruct Hno as [Hs | Hs];
          [ left; exact Hs | right; apply negb_true_iff; exact Hs ].
      * destruct (do_bit_advances b m i Hlayout Hp Hstray)
          as (b1 & m1 & Hrun & Hsame & Hframe & Hbits & _).
        destruct (same_but_buffer_and_bitmap_spans b b1 Hsame)
          as (Hbuf1 & _ & _ & _ & Hstray1 & Hwl & _ & _ & _ & Hlayout1).
        assert (Hki : k <> i) by (intros ->; congruence).
        assert (Hkr : k ∈ rest).
        { apply elem_of_cons in Hk. destruct Hk as [-> | Hk]; [ contradiction | exact Hk ]. }
        rewrite Hrun. simpl. apply IH.
        -- exact Hsorted'.
        -- intros j1 j2 Hj1 Hj2. rewrite !Hwl. apply Hinj; right; assumption.
        -- apply Hlayout1, Hlayout.
        -- intros j Hj Hmj. rewrite Hwl, Hbuf1. apply Hin; [ right; exact Hj | ].
           rewrite <- Hbits; [ exact Hmj | intros ->; contradiction ].
        -- exists k. split; [ exact Hkr | ].
           rewrite Hbits by exact Hki. split; [ exact Hmk | ].
           rewrite Hwl, Hstray1, (Hframe _ (Hloc k Hkr)). exact Hsk.
    + apply IH.
      * exact Hsorted'.
      * intros j1 j2 Hj1 Hj2. apply Hinj; right; assumption.
      * exact Hlayout.
      * intros j Hj. apply Hin. right. exact Hj.
      * exists k. split; [ | split; assumption ].
        apply elem_of_cons in Hk. destruct Hk as [-> | Hk]; [ congruence | exact Hk ].
Qed.

End Pass.

(** C1. The whole-buffer relocation, run over a buffer whose layout is final
    and whose marked words all lie inside the buffer.
    - When no marked word holds a stray pointer, the pass succeeds.  Every
      marked word that held a non-null pointer into the buffer holds that
      pointer incremented by the buffer-to-requested delta, which lies inside
      the requested span of the archive being written.  Every marked word
      that held a non-null pointer outside the buffer is met only when a
      static archive is extended (the dump is not static) and the pointer
      lies inside the mapped static archive: it holds that pointer
      incremented by the mapped-to-requested delta of the static archive,
      which lies inside the requested span of the static archive.  Every bit
      that is still set afterwards is one of these words: its pointer lies
      inside one of the two requested spans.
    - When some marked word holds a stray pointer (not null, outside the
      buffer and, unless the dump is static, outside the mapped static
      archive), the pass ends in a failed assertion. *)
Theorem C1_pointers_move_to_their_requested_span (STATIC_DUMP : bool) (b : ArchiveBuilder) :
  let p := word_location b in
  let v := fun offset => load (buffer b) (p offset) in
  let marked := fun offset => BitMap.at_ (_ptrmap b) offset = true in
  let c := RelocateBufferToRequested.new b in
  layout_finalized STATIC_DUMP b ->
  BitMap.size (_ptrmap b) <= 2 ^ 60 ->
  (forall offset, marked offset ->
                  0 <= offset < BitMap.size (_ptrmap b)
                  /\ is_in_buffer_space b (p offset) = true) ->
  ((forall offset, marked offset -> is_stray_pointer STATIC_DUMP b (v offset) = false) ->
   exists c',
     RelocateBufferToRequested.doit STATIC_DUMP c = Ok c'
     /\ (forall offset,
           marked offset -> v offset <> 0 -> is_in_buffer_space b (v offset) = true ->
           load (buffer (RelocateBufferToRequested._builder c')) (p offset)
           = wrap (v offset + RelocateBufferToRequested._buffer_to_requested_delta c)
           /\ load (buffer (RelocateBufferToRequested._builder c')) (p offset)
              = v offset + (requested_bottom STATIC_DUMP b - buffer_bottom b)
           /\ is_in_requested_archive STATIC_DUMP (RelocateBufferToRequested._builder c')
                (load (buffer (RelocateBufferToRequested._builder c')) (p offset)) = true)
     /\ (forall offset,
           marked offset -> v offset <> 0 -> is_in_buffer_space b (v offset) = false ->
           STATIC_DUMP = false
           /\ is_in_mapped_static_archive b (v offset) = true
           /\ load (buffer (RelocateBufferToRequested._builder c')) (p offset)
              = wrap (v offset
                      + RelocateBufferToRequested._mapped_to_requested_static_archive_delta c)
           /\ load (buffer (RelocateBufferToRequested._builder c')) (p offset)
              = v offset
                + (_requested_static_archive_bottom b - _mapped_static_archive_bottom b)
           /\ is_in_requested_static_archive (RelocateBufferToRequested._builder c')
                (load (buffer (RelocateBufferToRequested._builder c')) (p offset)) = true)
     /\ (forall offset,
           BitMap.at_ (_ptrmap (RelocateBufferToRequested._builder c')) offset = true ->
           marked offset /\ v offset <> 0
           /\ (is_in_requested_archive STATIC_DUMP (RelocateBufferToRequested._builder c')
                 (load (buffer (RelocateBufferToRequested._builder c')) (p offset)) = true
               \/ (STATIC_DUMP = false
                   /\ is_in_requested_static_archive (RelocateBufferToRequested._builder c')
                        (load (buffer (RelocateBufferToRequested._builder c')) (p offset))
                      = true))))
  /\ (forall offset,
        marked offset -> is_stray_pointer STATIC_DUMP b (v offset) = true ->
        RelocateBufferToRequested.doit STATIC_DUMP c
        = Fatal (AssertFailed (stray_pointer_message STATIC_DUMP) [])).
Proof.
  intros p v marked c Hlayout Hsize Hmarked.
  assert (Hinj : forall j k, j ∈ BitMap.range 0 (BitMap.size (_ptrmap b)) ->
                             k ∈ BitMap.range 0 (BitMap.size (_ptrmap b)) ->
                             word_location b j = word_location b k -> j = k).
  { intros j k Hj Hk. apply elem_of_range in Hj, Hk. apply word_location_inj; lia. }
  split.
  - intros Hgood.
    destruct (scan_succeeds STATIC_DUMP (BitMap.range 0 (BitMap.size (_ptrmap b))) b 0
                (range_ascending _ _) Hinj Hlayout) as (c1 & Hscan & Hvalues).
    { intros k _ Hk. split; [ apply Hmarked, Hk | apply Hgood, Hk ]. }
    destruct (scan_spec STATIC_DUMP (BitMap.range 0 (BitMap.size (_ptrmap b)))
                b 0 c1 true (range_ascending _ _) Hinj Hscan) as
        (b1 & m1 & -> & _ & Hbot & Hsz & Hout & Hin & Hframe & Hmax).
    assert (Hm1 : 0 <= m1 < 2 ^ 60).
    { destruct Hmax as [(-> & _) | (Hm' & _)]; [ lia | ].
      apply elem_of_range in Hm'. lia. }
    set (b' := ArchivePtrMarker.compact b1 m1).
    assert (Hrun : RelocateBufferToRequested.doit STATIC_DUMP c
                   = Ok (RelocateBufferToRequested.set_builder (closure_over b1 m1) b')).
    { unfold RelocateBufferToRequested.doit. unfold iterate.
      change c with (closure_over b 0).
      change (RelocateBufferToRequested._builder (closure_over b 0)) with b.
      rewrite Hscan. reflexivity. }
    assert (Hb' : RelocateBufferToRequested._builder
                    (RelocateBufferToRequested.set_builder (closure_over b1 m1) b') = b')
      by reflexivity.
    assert (Hbuf : buffer b' = buffer b1) by (unfold b'; destruct b1; reflexivity).
    assert (Hmap : _ptrmap b' = BitMap.resize (_ptrmap b1) (m1 + 1)).
    { unfold b', ArchivePtrMarker.compact. rewrite wrap_small by lia.
      destruct b1; reflexivity. }
    assert (Hsame : same_but_buffer_and_bitmap b b').
    { destruct (scan_frame STATIC_DUMP _ _ _ _ _ Hscan) as (b2 & m2 & E & Hs).
      assert (b2 = b1) by (destruct b1, b2; injection E; intros; subst; reflexivity).
      subst b2.
      exact (same_but_buffer_and_bitmap_trans _ _ _ Hs
               (same_but_buffer_and_bitmap_set_ptrmap _ _)). }
    destruct (same_but_buffer_and_bitmap_spans b b' Hsame)
      as (_ & _ & Hreqs & Hreq & _).
    destruct Hlayout as (Hbb & Hbt & Hbt64 & Hdelta & Hrb & Hrt & Hrt64 & Hext).
    assert (Hmoved_in : forall offset,
               marked offset -> v offset <> 0 -> is_in_buffer_space b (v offset) = true ->
               load (buffer b') (p offset) = wrap (v offset + buffer_to_requested_delta b)
               /\ load (buffer b') (p offset)
                  = v offset + (requested_bottom STATIC_DUMP b - buffer_bottom b)
               /\ is_in_requested_archive STATIC_DUMP b' (load (buffer b') (p offset)) = true).
    { intros offset Hm Hnz Hinb.
      destruct (Hmarked offset Hm) as (Hoff & _).
      specialize (Hvalues offset ltac:(apply elem_of_range; lia) Hm Hnz).
      simpl in Hvalues. fold (p offset) (v offset) in Hvalues. rewrite Hinb in Hvalues.
      pose proof Hinb as Hin'. apply in_span in Hin'.
      destruct (relocate_into_span (v offset) (buffer_bottom b) (buffer_top b)
                  (requested_bottom STATIC_DUMP b) Hrb ltac:(lia) Hin') as (Hw & Hspan).
      rewrite <- Hdelta in Hw.
      rewrite Hbuf, Hvalues. split; [ reflexivity | ]. split; [ exact Hw | ].
      rewrite Hreq, Hw. apply in_span. lia. }
    assert (Hmoved_out : forall offset,
               marked offset -> v offset <> 0 -> is_in_buffer_space b (v offset) = false ->
               STATIC_DUMP = false
               /\ is_in_mapped_static_archive b (v offset) = true
               /\ load (buffer b') (p offset)
                  = wrap (v offset + as_intx (_requested_static_archive_bottom b
                                              - _mapped_static_archive_bottom b))
               /\ load (buffer b') (p offset)
                  = v offset
                    + (_requested_static_archive_bottom b - _mapped_static_archive_bottom b)
               /\ is_in_requested_static_archive b' (load (buffer b') (p offset)) = true).
    { intros offset Hm Hnz Hout'.
      destruct (Hmarked offset Hm) as (Hoff & _).
      specialize (Hvalues offset ltac:(apply elem_of_range; lia) Hm Hnz).
      simpl in Hvalues. fold (p offset) (v offset) in Hvalues. rewrite Hout' in Hvalues.
      pose proof (Hgood offset Hm) as Hstray. unfold is_stray_pointer in Hstray.
      apply Z.eqb_neq in Hnz as Hnzb. rewrite Hnzb, Hout' in Hstray. simpl in Hstray.
      apply orb_false_iff in Hstray. destruct Hstray as (Hs & Hmapped).
      apply negb_false_iff in Hmapped.
      pose proof Hmapped as Hm'. apply in_span in Hm'.
      destruct (Hext Hs) as (Hmb & Hmt & Hmt64 & Hsb & Hst & Hst64).
      destruct (relocate_into_span (v offset) (_mapped_static_archive_bottom b)
                  (_mapped_static_archive_top b) (_requested_static_archive_bottom b)
                  Hsb ltac:(lia) Hm') as (Hw & Hspan).
      split; [ exact Hs | ]. split; [ exact Hmapped | ].
      rewrite Hbuf, Hvalues. split; [ reflexivity | ]. split; [ exact Hw | ].
      rewrite Hreqs, Hw. apply in_span. lia. }
    exists (RelocateBufferToRequested.set_builder (closure_over b1 m1) b').
    rewrite Hb'. split; [ exact Hrun | ].
    split; [ exact Hmoved_in | ]. split; [ exact Hmoved_out | ].
    intros offset Hat. rewrite Hmap, at_resize in Hat.
    apply andb_true_iff in Hat. destruct Hat as (Hat1 & Hones).
    assert (Hmo : marked offset /\ v offset <> 0).
    { destruct (decide (offset ∈ BitMap.range 0 (BitMap.size (_ptrmap b)))) as [Hr | Hr].
      - rewrite (Hin offset Hr) in Hat1. apply andb_true_iff in Hat1.
        destruct Hat1 as (Hm & Hnz). split; [ exact Hm | ].
        apply negb_true_iff, Z.eqb_neq in Hnz. exact Hnz.
      - rewrite (Hout offset Hr) in Hat1. exfalso. apply Hr, elem_of_range.
        apply (Hmarked offset Hat1). }
    destruct Hmo as (Hm & Hnz). split; [ exact Hm | ]. split; [ exact Hnz | ].
    destruct (is_in_buffer_space b (v offset)) eqn:Hinb.
    + left. apply (Hmoved_in offset Hm Hnz Hinb).
    + right. destruct (Hmoved_out offset Hm Hnz Hinb) as (Hs & _ & _ & _ & Hr).
      split; assumption.
  - intros offset Hm Hstray.
    destruct (Hmarked offset Hm) as (Hoff & _).
    unfold RelocateBufferToRequested.doit, iterate.
    change c with (closure_over b 0).
    change (RelocateBufferToRequested._builder (closure_over b 0)) with b.
    rewrite (scan_stops_at_a_stray_pointer STATIC_DUMP
               (BitMap.range 0 (BitMap.size (_ptrmap b))) b 0 (range_ascending _ _)
               Hinj Hlayout).
    + reflexivity.
    + intros k _ Hk. apply Hmarked, Hk.
    + exists offset. split; [ apply elem_of_range; lia | ]. split; assumption.
Qed.

Lemma scenario_packed_marks (offset : Z) :
  BitMap.at_ (_ptrmap Scenario.packed) offset = true -> offset = 3 \/ offset = 4.
Proof.
  assert (E : _ptrmap Scenario.packed = BitMap.mk 8 24) by (vm_compute; reflexivity).
  rewrite E. unfold BitMap.at_. simpl. intros H.
  destruct (Z_lt_le_dec offset 0) as [Hneg | Hpos].
  { rewrite Z.testbit_neg_r in H by exact Hneg. discriminate. }
  destruct (Z_lt_le_dec 4 offset) as [Hhigh | Hlow].
  { rewrite Z.bits_above_log2 in H; [ discriminate | lia | exact Hhigh ]. }
  assert (offset = 0 \/ offset = 1 \/ offset = 2 \/ offset = 3 \/ offset = 4)
    as [-> | [-> | [-> | [-> | ->]]]] by lia;
    first [ discriminate H | left; reflexivity | right; reflexivity ].
Qed.

Lemma dynamic_scenario_packed_marks (offset : Z) :
  BitMap.at_ (_ptrmap DynamicScenario.packed) offset = true -> offset = 1.
Proof.
  assert (E : _ptrmap DynamicScenario.packed = BitMap.mk 4 2) by (vm_compute; reflexivity).
  rewrite E. unfold BitMap.at_. simpl. intros H.
  destruct (Z_lt_le_dec offset 0) as [Hneg | Hpos].
  { rewrite Z.testbit_neg_r in H by exact Hneg. discriminate. }
  destruct (Z_lt_le_dec 1 offset) as [Hhigh | Hlow].
  { rewrite Z.bits_above_log2 in H; [ discriminate | lia | exact Hhigh ]. }
  assert (offset = 0 \/ offset = 1) as [-> | ->] by lia;
    first [ discriminate H | reflexivity ].
Qed.

Lemma C1_pointers_move_to_their_requested_span_witness :
  (exists c',
     RelocateBufferToRequested.doit true (RelocateBufferToRequested.new Scenario.packed)
     = Ok c'
     /\ load (buffer (RelocateBufferToRequested._builder c')) (word_location Scenario.packed 3)
        = 0x7f0000000020 + (0x800000000 - 0x7f0000000000))
  /\ (exists c',
        RelocateBufferToRequested.doit false
          (RelocateBufferToRequested.new DynamicScenario.packed) = Ok c'
        /\ load (buffer (RelocateBufferToRequested._builder c'))
                (word_location DynamicScenario.packed 1)
           = 0x7e0000000100 + (0x800000000 - 0x7e0000000000)).
Proof.
  split.
  - destruct (proj1 (C1_pointers_move_to_their_requested_span true Scenario.packed
                       ltac:(unfold layout_finalized; repeat split;
                             try (vm_compute; first [ reflexivity | discriminate ]);
                             intros; discriminate)
                       ltac:(vm_compute; discriminate)
                       ltac:(intros offset H;
                             destruct (scenario_packed_marks offset H) as [-> | ->];
                             vm_compute; repeat split; congruence)))
      as (c' & Hrun & Hmoved & _).
    + intros offset H. destruct (scenario_packed_marks offset H) as [-> | ->];
        vm_compute; reflexivity.
    + exists c'. split; [ exact Hrun | ].
      apply (Hmoved 3); vm_compute; first [ reflexivity | discriminate ].
  - destruct (proj1 (C1_pointers_move_to_their_requested_span false DynamicScenario.packed
                       ltac:(unfold layout_finalized; repeat split;
                             try (vm_compute; first [ reflexivity | discriminate ]))
                       ltac:(vm_compute; discriminate)
                       ltac:(intros offset H;
                             rewrite (dynamic_scenario_packed_marks offset H);
                             vm_compute; repeat split; congruence)))
      as (c' & Hrun & _ & Hmoved & _).
    + intros offset H. rewrite (dynamic_scenario_packed_marks offset H).
      vm_compute. reflexivity.
    + exists c'. split; [ exact Hrun | ].
      apply (Hmoved 1); vm_compute; first [ reflexivity | discriminate ].
Defined.

(** ** Sorting *)
Section SortFacts.

Context {A : Type} (f : A -> A -> result Z) (R : A -> A -> Prop) (dom : list A).

(** On the elements of [dom], the comparator answers, and its answer is at
    most 0 exactly when [R] holds; [R] is total and transitive there. *)
Hypothesis compares : forall a b, a ∈ dom -> b ∈ dom -> a <> b ->
                                  exists c, f a b = Ok c /\ (c <= 0 <-> R a b).
Hypothesis total : forall a b, a ∈ dom -> b ∈ dom -> a <> b -> R a b \/ R b a.
Hypothesis transitive : forall a b c, a ∈ dom -> b ∈ dom -> c ∈ dom ->
                                      R a b -> R b c -> R a c.

Lemma sort_insert_ok (x : A) (sorted : list A) :
  x ∈ dom -> (forall y, y ∈ sorted -> y ∈ dom) -> x ∉ sorted ->
  StronglySorted R sorted ->
  exists l', sort_insert f x sorted = Ok l' /\ l' ≡ₚ x :: sorted /\ StronglySorted R l'.
Proof.
  intros Hx. induction sorted as [ | y rest IH ]; intros Hdom Hnotin Hsorted.
  - exists [x]. simpl. repeat split; [ reflexivity | repeat constructor ].
  - apply not_elem_of_cons in Hnotin. destruct Hnotin as (Hxy & Hnotin).
    apply StronglySorted_inv in Hsorted. destruct Hsorted as (Hsorted & Hy).
    assert (Hyd : y ∈ dom) by (apply Hdom; left).
    destruct (compares x y Hx Hyd Hxy) as (c & Hc & Hiff).
    simpl. rewrite Hc. simpl. destruct (c <=? 0) eqn:Hle.
    + exists (x :: y :: rest). repeat split; [ reflexivity | ].
      apply Z.leb_le, Hiff in Hle.
      constructor; [ constructor; assumption | ].
      constructor; [ exact Hle | ].
      rewrite Forall_forall in Hy |- *. intros z Hz.
      apply (transitive x y z); auto. apply Hdom. right. exact Hz.
    + destruct IH as (l' & Hins & Hperm & Hs); auto.
      { intros z Hz. apply Hdom. right. exact Hz. }
      rewrite Hins. simpl. exists (y :: l'). repeat split.
      * rewrite Hperm. apply perm_swap.
      * constructor; [ exact Hs | ].
        rewrite Forall_forall in Hy |- *. intros z Hz. rewrite Hperm in Hz.
        apply elem_of_cons in Hz. destruct Hz as [-> | Hz]; [ | auto ].
        apply Z.leb_gt in Hle.
        destruct (total x y Hx Hyd Hxy) as [Hxy' | Hyx]; [ | exact Hyx ].
        apply Hiff in Hxy'. lia.
Qed.

Lemma sort_ok (l : list A) :
  (forall y, y ∈ l -> y ∈ dom) -> NoDup l ->
  exists l', sort f l = Ok l' /\ l' ≡ₚ l /\ StronglySorted R l'.
Proof.
  induction l as [ | x rest IH ]; intros Hdom Hnd.
  - exists []. simpl. repeat split; [ reflexivity | constructor ].
  - apply NoDup_cons in Hnd. destruct Hnd as (Hx & Hnd).
    destruct IH as (sorted & Hsort & Hperm & Hs); auto.
    { intros y Hy. apply Hdom. right. exact Hy. }
    destruct (sort_insert_ok x sorted) as (l' & Hins & Hperm' & Hs'); auto.
    { apply Hdom. left. }
    { intros y Hy. rewrite Hperm in Hy. apply Hdom. right. exact Hy. }
    { rewrite Hperm. exact Hx. }
    simpl. rewrite Hsort. simpl. exists l'. repeat split; auto.
    rewrite Hperm', Hperm. reflexivity.
Qed.

(** No two elements of [dom] are put in both orders. *)
Hypothesis antisymmetric : forall a b, a ∈ dom -> b ∈ dom -> R a b -> R b a -> a = b.

(** The sorted array does not depend on the order the array came in. *)
Lemma sort_of_permutation (l1 l2 : list A) :
  (forall y, y ∈ l1 -> y ∈ dom) -> NoDup l1 -> l1 ≡ₚ l2 ->
  exists l', sort f l1 = Ok l' /\ sort f l2 = Ok l' /\ l' ≡ₚ l1 /\ StronglySorted R l'.
Proof.
  intros Hdom Hnd Hperm.
  destruct (sort_ok l1 Hdom Hnd) as (s1 & H1 & Hp1 & Hs1).
  destruct (sort_ok l2) as (s2 & H2 & Hp2 & Hs2).
  { intros y Hy. rewrite <- Hperm in Hy. auto. }
  { rewrite <- Hperm. exact Hnd. }
  assert (s1 = s2) as <-.
  { apply (StronglySorted_unique_strong R); auto.
    - intros a b Ha Hb. rewrite Hp1 in Ha. rewrite Hp2, <- Hperm in Hb.
      apply antisymmetric; auto.
    - rewrite Hp1, Hp2. exact Hperm. }
  exists s1. auto.
Qed.

End SortFacts.

(** ** Gathering the classes and the symbols *)
Section GatherKlassesAndSymbols.

Context (vm : VM).

Lemma wrap_wrap_add (e a c : Z) : wrap (wrap (e + a) + c) = wrap (e + (a + c)).
Proof. unfold wrap. rewrite Zplus_mod_idemp_l. f_equal. lia. Qed.

Lemma gather_klass_and_symbol_adds (b : ArchiveBuilder) (ref : Ref) (read_only : bool) :
  fst (gather_klass_and_symbol vm b ref read_only)
  = set_estimated_metaspaceobj_bytes
      (set_symbols (set_klasses b (_klasses b ++ gathered_klass vm ref))
                   (_symbols b ++ gathered_symbol vm ref))
      (add_estimate vm (_estimated_metaspaceobj_bytes b) ref).
Proof.
  unfold gather_klass_and_symbol, gathered_klass, gathered_symbol, add_estimate,
    estimated_bytes, is_gathered.
  destruct (ref_obj ref =? 0); simpl.
  { rewrite !app_nil_r. destruct b; reflexivity. }
  destruct (FollowMode_eqb (get_follow_mode vm ref) make_a_copy); simpl.
  2: { rewrite !app_nil_r. destruct b; reflexivity. }
  destruct (msotype_eqb (ref_msotype ref) ClassType) eqn:Hclass; simpl.
  - assert (msotype_eqb (ref_msotype ref) SymbolType = false) as ->.
    { apply msotype_eqb_eq in Hclass. rewrite Hclass. reflexivity. }
    rewrite app_nil_r.
    destruct (is_excluded vm (ref_obj ref)); simpl;
      rewrite ?app_nil_r; destruct b; simpl; rewrite wrap_wrap_add; reflexivity.
  - destruct (msotype_eqb (ref_msotype ref) SymbolType); simpl;
      rewrite ?app_nil_r; destruct b; reflexivity.
Qed.

Lemma gather_all_adds (refs : list (Ref * bool)) :
  forall b : ArchiveBuilder,
    fold_left (fun b r => fst (gather_klass_and_symbol vm b (fst r) (snd r))) refs b
    = set_estimated_metaspaceobj_bytes
        (set_symbols
           (set_klasses b (_klasses b ++ flat_map (fun r => gathered_klass vm (fst r)) refs))
           (_symbols b ++ flat_map (fun r => gathered_symbol vm (fst r)) refs))
        (fold_left (fun e r => add_estimate vm e (fst r)) refs
                   (_estimated_metaspaceobj_bytes b)).
Proof.
  induction refs as [ | r rest IH ]; intros b; simpl.
  - rewrite !app_nil_r. destruct b; reflexivity.
  - rewrite IH, gather_klass_and_symbol_adds. destruct b; simpl.
    rewrite <- !app_assoc. reflexivity.
Qed.

Lemma add_estimate_comm (e : Z) (r1 r2 : Ref) :
  add_estimate vm (add_estimate vm e r1) r2 = add_estimate vm (add_estimate vm e r2) r1.
Proof.
  unfold add_estimate. destruct (is_gathered vm r1), (is_gathered vm r2); try reflexivity.
  rewrite !wrap_wrap_add. f_equal. lia.
Qed.

Lemma estimate_of_permutation (refs1 refs2 : list (Ref * bool)) :
  refs1 ≡ₚ refs2 ->
  forall e, fold_left (fun e r => add_estimate vm e (fst r)) refs1 e
            = fold_left (fun e r => add_estimate vm e (fst r)) refs2 e.
Proof.
  induction 1 as [ | r l l' _ IH | r1 r2 l | l l' l'' _ IH1 _ IH2 ]; intros e; simpl.
  - reflexivity.
  - apply IH.
  - rewrite add_estimate_comm. reflexivity.
  - rewrite IH1. apply IH2.
Qed.

Lemma compare_symbols_by_address_orders (a b : address) :
  a <> b -> exists c, compare_symbols_by_address a b = Ok c /\ (c <= 0 <-> a < b).
Proof.
  intros Hne. unfold compare_symbols_by_address.
  destruct (a <? b) eqn:Hlt.
  - exists (-1). apply Z.ltb_lt in Hlt. split; [ reflexivity | lia ].
  - apply Z.ltb_ge in Hlt. replace (b <? a) with true by (symmetry; apply Z.ltb_lt; lia).
    exists 1. split; [ reflexivity | lia ].
Qed.

End GatherKlassesAndSymbols.

(** In a static dump, the classes and the symbols are sorted before anything
    is copied: the symbols by ascending address, the classes by name.  Two
    runs of the gathering of the classes and the symbols that enumerate the
    same references in different orders gather the same arrays and draw the
    same identity hashes, so that two builds that differ in nothing but that
    enumeration end alike.  (Each object is enumerated once, and
    [fast_compare] orders the names of the gathered classes, no two of which
    share a name.) *)
Lemma sorted_arrays_do_not_depend_on_the_enumeration
        (vm : VM) (b : ArchiveBuilder) (refs1 refs2 : list (Ref * bool))
        (walk : ArchiveBuilder -> list address -> list (Ref * bool)) (roots : list address) :
  let symbols := _symbols b ++ flat_map (fun r => gathered_symbol vm (fst r)) refs1 in
  let klasses := _klasses b ++ flat_map (fun r => gathered_klass vm (fst r)) refs1 in
  DumpSharedSpaces vm = true ->
  refs1 ≡ₚ refs2 ->
  NoDup symbols -> NoDup klasses -> ordered_by_name vm klasses ->
  build vm b refs1 walk roots = build vm b refs2 walk roots
  /\ gather_klasses_and_symbols vm b refs1 = gather_klasses_and_symbols vm b refs2
  /\ exists sorted_symbols sorted_klasses,
       sort (compare_symbols_by_address) symbols = Ok sorted_symbols
       /\ sort (compare_klass_by_name vm) klasses = Ok sorted_klasses
       /\ sorted_symbols ≡ₚ symbols /\ StronglySorted Z.lt sorted_symbols
       /\ sorted_klasses ≡ₚ klasses /\ StronglySorted (name_order vm) sorted_klasses
       /\ forall b' hashes,
            gather_klasses_and_symbols vm b refs1 = Ok (b', hashes) ->
            iterate_sorted_roots b' roots = sorted_symbols ++ sorted_klasses ++ roots.
Proof.
  intros symbols klasses Hstatic Hperm Hnds Hndk (Htotal & Htrans & Hanti).
  set (symbols2 := _symbols b ++ flat_map (fun r => gathered_symbol vm (fst r)) refs2).
  set (klasses2 := _klasses b ++ flat_map (fun r => gathered_klass vm (fst r)) refs2).
  assert (Hps : symbols ≡ₚ symbols2).
  { unfold symbols, symbols2. apply Permutation_app_head, Permutation_flat_map, Hperm. }
  assert (Hpk : klasses ≡ₚ klasses2).
  { unfold klasses, klasses2. apply Permutation_app_head, Permutation_flat_map, Hperm. }
  destruct (sort_of_permutation compare_symbols_by_address Z.lt symbols) with
      (l1 := symbols) (l2 := symbols2) as (ss & Hs1 & Hs2 & Hsp & Hss); auto.
  { intros x y _ _. apply compare_symbols_by_address_orders. }
  { intros x y _ _ Hne. lia. }
  { intros x y z _ _ _. lia. }
  { intros x y _ _. lia. }
  destruct (sort_of_permutation (compare_klass_by_name vm) (name_order vm) klasses) with
      (l1 := klasses) (l2 := klasses2) as (ks & Hk1 & Hk2 & Hkp & Hks); auto.
  { intros x y _ _ _. eexists. split; [ reflexivity | reflexivity ]. }
  assert (Hgather : gather_klasses_and_symbols vm b refs1
                    = gather_klasses_and_symbols vm b refs2).
  { unfold gather_klasses_and_symbols. rewrite Hstatic, !gather_all_adds.
    rewrite (estimate_of_permutation vm refs1 refs2 Hperm).
    unfold sort_symbols_and_fix_hash, sort_klasses.
    destruct b; simpl in *. fold symbols symbols2 klasses klasses2.
    rewrite Hs1, Hs2. simpl.
    destruct (update_identity_hashes vm 305419896 ss); simpl; [ | reflexivity ].
    fold klasses klasses2. rewrite Hk1, Hk2. reflexivity. }
  split; [ | split ].
  - unfold build, gather_source_objs. rewrite Hgather. reflexivity.
  - exact Hgather.
  - exists ss, ks. repeat split; auto.
    intros b' hashes H.
    unfold gather_klasses_and_symbols in H. rewrite Hstatic, gather_all_adds in H.
    unfold sort_symbols_and_fix_hash, sort_klasses in H.
    destruct b; simpl in *. fold symbols klasses in H. rewrite Hs1 in H. simpl in H.
    destruct (update_identity_hashes vm 305419896 ss); simpl in H; [ | discriminate ].
    fold klasses in H. rewrite Hk1 in H. simpl in H. injection H as <- _.
    reflexivity.
Qed.

Lemma same_name_classes_first_build :
  Scenario.first_object_word
    (build Scenario.vm_same_name new_builder
       [(Scenario.klassA, false); (Scenario.klassB, false)]
       Scenario.visit_roots [0x5000; 0x5100])
  = 0xAAAA.
Proof. vm_compute. reflexivity. Qed.

Lemma same_name_classes_second_build :
  Scenario.first_object_word
    (build Scenario.vm_same_name new_builder
       [(Scenario.klassB, false); (Scenario.klassA, false)]
       Scenario.visit_roots [0x5100; 0x5000])
  = 0xBBBB.
Proof. vm_compute. reflexivity. Qed.

(** C6 (the code departs from the claim).  Two static dumps of the same two
    classes under the same policy, the dictionary enumerating the classes in
    one order for the first build and in the other order for the second, in
    both passes.  The two classes share their name:
    [compare_klass_by_name] answers 0 for the pair in both orders, so that
    the sort cannot tell the two arrays apart and leaves each in the order it
    came in.  The first object of the read-write region is the class at
    0x5000 in one build and the class at 0x5100 in the other: the region
    contents differ. *)
Theorem C6_same_name_classes_break_determinism :
  let enumeration1 := [(Scenario.klassA, false); (Scenario.klassB, false)] in
  let enumeration2 := [(Scenario.klassB, false); (Scenario.klassA, false)] in
  let build1 := build Scenario.vm_same_name new_builder enumeration1
                      Scenario.visit_roots [0x5000; 0x5100] in
  let build2 := build Scenario.vm_same_name new_builder enumeration2
                      Scenario.visit_roots [0x5100; 0x5000] in
  DumpSharedSpaces Scenario.vm_same_name = true
  /\ enumeration1 ≡ₚ enumeration2
  /\ compare_klass_by_name Scenario.vm_same_name 0x5000 0x5100 = Ok 0
  /\ compare_klass_by_name Scenario.vm_same_name 0x5100 0x5000 = Ok 0
  /\ is_ok build1 = true /\ is_ok build2 = true
  /\ Scenario.first_object_word build1 = 0xAAAA
  /\ Scenario.first_object_word build2 = 0xBBBB
  /\ build1 <> build2.
Proof.
  cbv zeta.
  split; [ reflexivity | ]. split; [ apply perm_swap | ].
  split; [ reflexivity | ]. split; [ reflexivity | ].
  split; [ vm_compute; reflexivity | ]. split; [ vm_compute; reflexivity | ].
  split; [ exact same_name_classes_first_build | ].
  split; [ exact same_name_classes_second_build | ].
  intros H.
  pose proof same_name_classes_first_build as E1.
  rewrite H, same_name_classes_second_build in E1. discriminate.
Qed.

(** ** Supporting facts *)

(** [highest_set_bit] is the highest set bit. *)
Lemma highest_set_bit_spec (m : BitMap.t) :
  0 <= BitMap.bits m ->
  match BitMap.highest_set_bit m with
  | Some highest =>
      BitMap.at_ m highest = true /\ forall k, highest < k -> BitMap.at_ m k = false
  | None => forall k, BitMap.at_ m k = false
  end.
Proof.
  intros Hnn. unfold BitMap.highest_set_bit, BitMap.at_.
  destruct (BitMap.bits m =? 0) eqn:Hz.
  - apply Z.eqb_eq in Hz. rewrite Hz. apply Z.bits_0.
  - apply Z.eqb_neq in Hz. split.
    + apply Z.bit_log2. lia.
    + intros k Hk. apply Z.bits_above_log2; assumption.
Qed.

(** Once an address has its entry, no later visit changes the entry: the
    classification and the region decided at the first visit stay. *)
Lemma gather_refs_keeps_entries (vm : VM) (visits : list (Ref * bool)) :
  forall (b b' : ArchiveBuilder) (k : address) (e : SourceObjInfo.t),
    gather_refs vm b visits = Ok b' ->
    _src_obj_table b !! k = Some e ->
    _src_obj_table b' !! k = Some e.
Proof.
  induction visits as [ | [ref read_only] rest IH ]; simpl; intros b b' k e H He.
  - injection H as <-. exact He.
  - inv_bind H. destruct a as [b1 recurse]. apply (IH b1 b' k e H).
    destruct (decide (k = ref_obj ref)) as [-> | Hne].
    + destruct (ref_obj ref =? 0) eqn:Hz.
      { unfold gather_one_source_obj in Ha. rewrite Hz in Ha.
        injection Ha as <- _. exact He. }
      destruct (has_been_regenerated vm (ref_obj ref)) eqn:Hreg.
      { unfold gather_one_source_obj in Ha. rewrite Hz, Hreg in Ha.
        injection Ha as <- _. exact He. }
      apply Z.eqb_neq in Hz.
      destruct (gather_again vm _ _ _ _ _ e Hz Hreg He Ha) as (_ & Hrem).
      destruct (remember_in_enclosing_frame _ _ _ Hrem) as (-> & _). exact He.
    + destruct (gather_frame _ _ _ _ _ _ Ha) as (Hf & _).
      rewrite Hf by exact Hne. exact He.
Qed.

(** In a static dump, a buffer that passed the placement check of
    [reserve_buffer] does not wrap around the address space at its requested
    place. *)
Lemma reserve_buffer_requested_span (vm : VM) (b b' : ArchiveBuilder) (buffer_bottom : address) :
  DumpSharedSpaces vm = true ->
  0 <= requested_base_address vm < 2 ^ 64 ->
  0 <= snd (estimate_archive_size vm b) < 2 ^ 64 ->
  reserve_buffer vm b = Ok (b', buffer_bottom) ->
  requested_base_address vm + snd (estimate_archive_size vm b) < 2 ^ 64
  /\ _requested_static_archive_bottom b' = requested_base_address vm
  /\ buffer_to_requested_delta b'
     = as_intx (_requested_static_archive_bottom b' - buffer_bottom).
Proof.
  intros Hstatic Hbase Hsize H. unfold reserve_buffer in H.
  destruct (estimate_archive_size vm b) as [b1 size]. simpl in *.
  destruct (reserve_space vm size) as [rs_base | ]; [ | discriminate ].
  rewrite Hstatic in H. simpl in H.
  unfold my_archive_requested_top, my_archive_requested_bottom in H.
  rewrite Hstatic in H.
  destruct ((requested_base_address vm <? requested_base_address vm)
            || (wrap (requested_base_address vm + size) <=? requested_base_address vm))
    eqn:Hcheck; [ discriminate | ].
  apply orb_false_iff in Hcheck. destruct Hcheck as (_ & Htop). apply Z.leb_gt in Htop.
  inv_bind H. destruct a as [b2 p]. injection H as <- <-.
  unfold allocate in Ha.
  match type of Ha with (if ?c then _ else _) = _ => destruct c end; [ discriminate | ].
  injection Ha as <- _. unfold buffer_to_requested_delta. simpl.
  split; [ | split; reflexivity ].
  destruct (Z_lt_le_dec (requested_base_address vm + size) (2 ^ 64)) as [Hlt | Hge];
    [ exact Hlt | ].
  exfalso. unfold wrap in Htop.
  replace (requested_base_address vm + size)
    with (requested_base_address vm + size - 2 ^ 64 + 1 * 2 ^ 64) in Htop by lia.
  rewrite Z.mod_add, Z.mod_small in Htop by lia. lia.
Qed.

(** ** The scenarios of the specification, run on the definitions *)

(** The linear chain A -> B -> C, all three copied: three entries in the
    table; two bits set before the compaction (those of the words 3 and 4 of
    the buffer) and the same two after it; the field of [A] at offset 8 holds
    the requested address of [B], the field of [B] at offset 0 that of [C]. *)
Example linear_chain :
  match Scenario.relocated with
  | Ok b =>
      size (_src_obj_table b) = 3%nat
      /\ BitMap.bits (_ptrmap Scenario.packed) = Z.lor (2 ^ 3) (2 ^ 4)
      /\ _ptrmap b = BitMap.mk 5 (Z.lor (2 ^ 3) (2 ^ 4))
      /\ get_buffered_addr b 0x1000 = Ok 0x7f0000000010
      /\ get_buffered_addr b 0x2000 = Ok 0x7f0000000020
      /\ get_buffered_addr b 0x3000 = Ok 0x7f0000000028
      /\ load (buffer b) (0x7f0000000010 + 8) = 0x800000020
      /\ load (buffer b) 0x7f0000000020 = 0x800000028
  | Fatal _ => False
  end.
Proof. vm_compute. repeat split; reflexivity. Qed.

(** The elided reference: [D] points to an excluded class [E]; [E] is
    classified [set_to_null] and not copied; after the relocation the field
    of [D] reads null and its bit is clear. *)
Example elided_reference :
  match Scenario.built
          (build Scenario.vm_excluded new_builder []
                 (fun _ _ => [(Scenario.refD, false); (Scenario.refE, false)]) []) with
  | Some b =>
      SourceObjInfo._follow_mode <$> (_src_obj_table b !! 0xE000) = Some set_to_null
      /\ SourceObjList._objs (_rw_src_objs b) = [0xD000]
      /\ SourceObjList._objs (_ro_src_objs b) = []
      /\ get_buffered_addr b 0xD000 = Ok 0x7f0000000010
      /\ load (buffer b) 0x7f0000000010 = 0
      /\ BitMap.at_ (_ptrmap b) 2 = false
  | None => False
  end.
Proof. vm_compute. repeat split; reflexivity. Qed.

(** The capacity shortfall: the read-write region, reserved with 8192 bytes
    of which 16 are used, supplies the 8176 bytes that are left and cannot
    supply 8 more; the allocation ends the build, naming the region. *)
Example capacity_shortfall :
  let b := Scenario.get Scenario.reserved in
  is_ok (allocate b rw 8176) = true
  /\ allocate b rw 8184
     = Fatal (UnrecoverableWritingError
                [("rw", [0x7f0000000000; 0x7f0000000010; 8192; 16; 8184]);
                 ("ro", [0; 0; 0; 0]);
                 ("Unable to allocate from 'rw' region: Please reduce the number of shared classes.",
                  [])]).
Proof. vm_compute. split; reflexivity. Qed.

(** * Further properties of the builder *)

(** Case analysis on a builder and on the regions and region names at hand. *)
Ltac destruct_builder b :=
  destruct b;
  repeat match goal with
         | c : RegionId |- _ => destruct c
         | r : DumpRegion.t |- _ => destruct r
         end.

(** ** Marking an embedded pointer *)

(** X1. When [SourceObjList::remember_embedded_pointer] returns, for an
    entry whose bitmap interval covers its bytes (as [append] leaves it), the
    pointer field lies inside the object (its offset is not negative, a
    multiple of the word size, and the whole word is within the object's
    size); the bit that is set is the one of that field, it lies inside the
    object's own interval, no other bit of the bitmap changes, and the list
    of objects, the byte total and the size of the bitmap are as before. *)
Theorem remember_embedded_pointer_marks_inside_interval
        (l l' : SourceObjList.t) (src_info : SourceObjInfo.t) (ref : Ref) :
  let offset := as_intx (ref_addr ref - SourceObjInfo._source_addr src_info) in
  let idx := SourceObjInfo._ptrmap_start src_info + offset / sizeof_address in
  0 <= SourceObjInfo._ptrmap_start src_info ->
  sizeof_address * SourceObjInfo._ptrmap_end src_info
  = sizeof_address * SourceObjInfo._ptrmap_start src_info
    + SourceObjInfo._size_in_bytes src_info ->
  SourceObjInfo._ptrmap_end src_info < 2 ^ 64 ->
  SourceObjList.remember_embedded_pointer l src_info ref = Ok l' ->
  (0 <= offset /\ offset + 8 <= SourceObjInfo._size_in_bytes src_info /\ offset mod 8 = 0)
  /\ SourceObjInfo._ptrmap_start src_info <= idx < SourceObjInfo._ptrmap_end src_info
  /\ BitMap.at_ (SourceObjList._ptrmap l') idx = true
  /\ (forall k, k <> idx ->
        BitMap.at_ (SourceObjList._ptrmap l') k = BitMap.at_ (SourceObjList._ptrmap l) k)
  /\ SourceObjList._objs l' = SourceObjList._objs l
  /\ SourceObjList._total_bytes l' = SourceObjList._total_bytes l
  /\ BitMap.size (SourceObjList._ptrmap l') = BitMap.size (SourceObjList._ptrmap l).
Proof.
  intros offset idx Hstart Hcover Hend H.
  unfold SourceObjList.remember_embedded_pointer in H.
  inv_bind H. inv_bind H. inv_bind H. inv_bind H. inv_bind H. inv_bind H.
  fold offset in Ha2, Ha3, Ha4, H.
  apply Z.leb_le in Ha2. apply Z.leb_le in Ha3. apply is_aligned_8 in Ha4.
  unfold sizeof_address in *.
  assert (Hidx : SourceObjInfo._ptrmap_start src_info <= idx
                 < SourceObjInfo._ptrmap_end src_info).
  { unfold idx. pose proof (Z.div_mod offset 8 ltac:(lia)) as Hdm.
    rewrite Ha4 in Hdm. lia. }
  assert (Hw : wrap (SourceObjInfo._ptrmap_start src_info + offset / 8) = idx).
  { apply wrap_small. fold idx. lia. }
  rewrite Hw in H. injection H as <-. simpl.
  split; [ repeat split; assumption | ].
  split; [ exact Hidx | ].
  split; [ unfold BitMap.at_; simpl; apply Z.setbit_eq; lia | ].
  split; [ | repeat split ].
  intros k Hk. unfold BitMap.at_. simpl. apply Z.setbit_neq; [ lia | congruence ].
Qed.

Lemma remember_embedded_pointer_marks_inside_interval_witness :
  BitMap.at_
    (SourceObjList._ptrmap
       (SourceObjList.mk 16 [0x1000] (BitMap.set_bit (BitMap.make 16384) 1))) 1 = true.
Proof.
  refine (proj1 (proj2 (proj2
    (remember_embedded_pointer_marks_inside_interval
       (SourceObjList.mk 16 [0x1000] (BitMap.make 16384))
       (SourceObjList.mk 16 [0x1000] (BitMap.set_bit (BitMap.make 16384) 1))
       (SourceObjInfo.mk 0 2 false make_a_copy 16 OtherType 0x1000 0)
       (mkRef 0x2000 0x1008 0x1000 OtherType 1) _ _ _ _)))).
  - simpl; lia.
  - reflexivity.
  - reflexivity.
  - reflexivity.
Defined.

(** X2. [SourceObjList::remember_embedded_pointer] rejects a pointer field
    that is not a whole word of the enclosing object: when the entry passes
    the two sanity checks and the reference is not null, a field offset that
    is negative, that reaches beyond the object's size, or that is not a
    multiple of the word size fails the assertion "must be". *)
Theorem remember_embedded_pointer_rejects_fields_outside_the_object
        (l : SourceObjList.t) (src_info : SourceObjInfo.t) (ref : Ref) :
  let offset := as_intx (ref_addr ref - SourceObjInfo._source_addr src_info) in
  SourceObjInfo._ptrmap_start src_info < SourceObjList._total_bytes l ->
  SourceObjInfo._ptrmap_end src_info <= SourceObjList._total_bytes l ->
  ref_obj ref <> 0 ->
  offset < 0 \/ SourceObjInfo._size_in_bytes src_info < offset + 8 \/ offset mod 8 <> 0 ->
  SourceObjList.remember_embedded_pointer l src_info ref = Fatal (AssertFailed "must be" []).
Proof.
  intros offset H1 H2 H3 Hbad.
  unfold SourceObjList.remember_embedded_pointer.
  apply Z.ltb_lt in H1. apply Z.leb_le in H2. apply Z.eqb_neq in H3.
  rewrite H1, H2, H3. simpl. fold offset.
  destruct (0 <=? offset) eqn:E1; simpl; [ | reflexivity ].
  destruct (offset + 8 <=? SourceObjInfo._size_in_bytes src_info) eqn:E2; simpl;
    [ | reflexivity ].
  destruct (is_aligned offset sizeof_address) eqn:E3; simpl; [ | reflexivity ].
  apply Z.leb_le in E1. apply Z.leb_le in E2. apply is_aligned_8 in E3. lia.
Qed.

Lemma remember_embedded_pointer_rejects_fields_outside_the_object_witness :
  SourceObjList.remember_embedded_pointer
    (SourceObjList.mk 16 [0x1000] (BitMap.make 16384))
    (SourceObjInfo.mk 0 2 false make_a_copy 16 OtherType 0x1000 0)
    (mkRef 0x2000 0x1010 0x1000 OtherType 1)
  = Fatal (AssertFailed "must be" []).
Proof.
  apply (remember_embedded_pointer_rejects_fields_outside_the_object
           (SourceObjList.mk 16 [0x1000] (BitMap.make 16384))
           (SourceObjInfo.mk 0 2 false make_a_copy 16 OtherType 0x1000 0)
           (mkRef 0x2000 0x1010 0x1000 OtherType 1)).
  - simpl; lia.
  - simpl; lia.
  - simpl; lia.
  - right; left. vm_compute. reflexivity.
Defined.

(** ** The gathering pass *)

(** X3. [remember_embedded_pointer_in_enclosing_obj] marks a pointer only
    inside an object that is being copied.  The reference must not be null.
    For a root (no enclosing object), for an enclosing object the table does
    not hold, and for one that is not copied, the builder is left exactly as
    it was.  For a copied enclosing object the mark is made, by
    [SourceObjList::remember_embedded_pointer], in the list that the entry's
    read-only flag names; the other list, the table, the buffer and the
    marker's bitmap are untouched. *)
Theorem embedded_pointers_are_marked_in_copied_objects_only
        (b b' : ArchiveBuilder) (ref : Ref) :
  remember_embedded_pointer_in_enclosing_obj b ref = Ok b' ->
  ref_obj ref <> 0
  /\ (ref_enclosing_obj ref = 0 -> b' = b)
  /\ (_src_obj_table b !! ref_enclosing_obj ref = None -> b' = b)
  /\ (forall e,
        _src_obj_table b !! ref_enclosing_obj ref = Some e ->
        SourceObjInfo.should_copy e = false -> b' = b)
  /\ (forall e,
        ref_enclosing_obj ref <> 0 ->
        _src_obj_table b !! ref_enclosing_obj ref = Some e ->
        SourceObjInfo.should_copy e = true ->
        SourceObjList.remember_embedded_pointer
          (src_objs b (SourceObjInfo._read_only e)) e ref
        = Ok (src_objs b' (SourceObjInfo._read_only e))
        /\ src_objs b' (negb (SourceObjInfo._read_only e))
           = src_objs b (negb (SourceObjInfo._read_only e))
        /\ _src_obj_table b' = _src_obj_table b
        /\ buffer b' = buffer b /\ _ptrmap b' = _ptrmap b).
Proof.
  unfold remember_embedded_pointer_in_enclosing_obj. intros H. inv_bind H.
  apply negb_true_iff, Z.eqb_neq in Ha.
  split; [ exact Ha | ]. split; [ | split; [ | split ] ].
  - intros E. apply Z.eqb_eq in E. rewrite E in H. injection H as <-. reflexivity.
  - intros E. rewrite E in H. destruct (ref_enclosing_obj ref =? 0); injection H as <-;
      reflexivity.
  - intros e E Hc. rewrite E, Hc in H. simpl in H.
    destruct (ref_enclosing_obj ref =? 0); injection H as <-; reflexivity.
  - intros e Hnz E Hc. apply Z.eqb_neq in Hnz. rewrite Hnz, E, Hc in H. simpl in H.
    unfold src_objs.
    destruct (SourceObjInfo._read_only e); inv_bind H; injection H as <-; simpl;
      rewrite Ha0; destruct b; simpl; repeat split; reflexivity.
Qed.

Lemma embedded_pointers_are_marked_in_copied_objects_only_witness :
  src_objs (Scenario.get (remember_embedded_pointer_in_enclosing_obj
                            Scenario.gatheredA Scenario.refB)) true
  = src_objs Scenario.gatheredA true.
Proof.
  refine (proj1 (proj2
    (proj2 (proj2 (proj2 (proj2
       (embedded_pointers_are_marked_in_copied_objects_only Scenario.gatheredA
          (Scenario.get (remember_embedded_pointer_in_enclosing_obj
                           Scenario.gatheredA Scenario.refB))
          Scenario.refB _))))
       (SourceObjInfo.mk 0 2 false make_a_copy 16 OtherType 0x1000 0) _ _ _))).
  - vm_compute. reflexivity.
  - vm_compute. discriminate.
  - vm_compute. reflexivity.
  - reflexivity.
Defined.

Section GatherMore.

Context (vm : VM).

(** The first visit of an address, with what it does to the lists. *)
Lemma gather_first_lists (b b' : ArchiveBuilder) (ref : Ref) (read_only recurse : bool) :
  ref_obj ref <> 0 -> has_been_regenerated vm (ref_obj ref) = false ->
  _src_obj_table b !! ref_obj ref = None ->
  gather_one_source_obj vm b ref read_only = Ok (b', recurse) ->
  exists e,
    _src_obj_table b' = <[ref_obj ref := e]> (_src_obj_table b)
    /\ SourceObjInfo._source_addr e = ref_obj ref
    /\ SourceObjInfo._follow_mode e = get_follow_mode vm ref
    /\ SourceObjInfo._read_only e = read_only
    /\ SourceObjInfo._buffered_addr e
       = (if FollowMode_eqb (get_follow_mode vm ref) point_to_it then ref_obj ref else 0)
    /\ recurse = SourceObjInfo.should_copy e
    /\ SourceObjList._objs (src_objs b' read_only)
       = SourceObjList._objs (src_objs b read_only)
         ++ (if SourceObjInfo.should_copy e then [ref_obj ref] else [])
    /\ SourceObjList._objs (src_objs b' (negb read_only))
       = SourceObjList._objs (src_objs b (negb read_only)).
Proof.
  intros Hnz Hreg He H. unfold gather_one_source_obj in H.
  apply Z.eqb_neq in Hnz. rewrite Hnz, Hreg in H.
  inv_bind H.
  pose proof (remember_in_enclosing_frame _ _ _ Ha) as (Ht & Hrw & Hro & _).
  rewrite put_if_absent_absent in H by (rewrite Ht; exact He).
  do 2 inv_bind H. rewrite andb_true_l in H.
  set (info := SourceObjInfo.of_ref ref read_only (get_follow_mode vm ref)) in *.
  destruct (SourceObjInfo.should_copy info) eqn:Hcopy.
  - destruct read_only; inv_bind H; destruct a2 as [l p]; injection H as <- <-;
      apply append_entry in Ha2; destruct Ha2 as (Hs & Hf & Hr & _ & Hb & Hobjs);
      exists p; simpl; rewrite insert_insert_eq, Ht;
      (split; [ reflexivity | ]); rewrite Hs, Hf, Hr, Hb;
      unfold SourceObjInfo.should_copy; rewrite Hf;
      fold (SourceObjInfo.should_copy info); rewrite Hcopy, Hobjs;
      simpl; rewrite ?Hrw, ?Hro; repeat split; reflexivity.
  - injection H as <- <-. exists info. simpl. rewrite Ht, Hcopy, app_nil_r.
    destruct read_only; simpl; rewrite ?Hrw, ?Hro; repeat split; reflexivity.
Qed.

Lemma listed_of_parts (b b' : ArchiveBuilder) :
  SourceObjList._objs (_rw_src_objs b') = SourceObjList._objs (_rw_src_objs b) ->
  SourceObjList._objs (_ro_src_objs b') = SourceObjList._objs (_ro_src_objs b) ->
  listed b' = listed b.
Proof. unfold listed. intros -> ->. reflexivity. Qed.

Lemma lists_agree_of_same (b b' : ArchiveBuilder) :
  _src_obj_table b' = _src_obj_table b ->
  SourceObjList._objs (_rw_src_objs b') = SourceObjList._objs (_rw_src_objs b) ->
  SourceObjList._objs (_ro_src_objs b') = SourceObjList._objs (_ro_src_objs b) ->
  lists_agree_with_table b -> lists_agree_with_table b'.
Proof.
  intros Ht Hrw Hro (Hnd & Hin & Hall).
  unfold lists_agree_with_table. rewrite (listed_of_parts b b' Hrw Hro), Ht.
  split; [ exact Hnd | ]. split; [ | exact Hall ].
  intros k Hk. destruct (Hin k Hk) as (e & He & Hs & Hc & Hl).
  exists e. repeat split; try assumption.
  unfold src_objs in *. destruct (SourceObjInfo._read_only e); congruence.
Qed.

Lemma gather_one_keeps_lists_agree (b b' : ArchiveBuilder) (ref : Ref)
      (read_only recurse : bool) :
  lists_agree_with_table b ->
  gather_one_source_obj vm b ref read_only = Ok (b', recurse) ->
  lists_agree_with_table b'.
Proof.
  intros Hinv H.
  destruct (Z.eq_dec (ref_obj ref) 0) as [Hz | Hnz].
  { unfold gather_one_source_obj in H. apply Z.eqb_eq in Hz. rewrite Hz in H.
    injection H as <- <-. exact Hinv. }
  destruct (has_been_regenerated vm (ref_obj ref)) eqn:Hreg.
  { unfold gather_one_source_obj in H. apply Z.eqb_neq in Hnz. rewrite Hnz, Hreg in H.
    injection H as <- <-. exact Hinv. }
  destruct (_src_obj_table b !! ref_obj ref) as [e | ] eqn:He.
  - destruct (gather_again vm _ _ _ _ _ _ Hnz Hreg He H) as (_ & Hrem).
    pose proof (remember_in_enclosing_frame _ _ _ Hrem) as (Ht & Hrw & Hro & _).
    exact (lists_agree_of_same _ _ Ht Hrw Hro Hinv).
  - destruct (gather_first_lists _ _ _ _ _ Hnz Hreg He H)
      as (e & Ht & Hs & Hf & Hr & _ & _ & Hl1 & Hl2).
    destruct Hinv as (Hnd & Hin & Hall).
    assert (Hfresh : ref_obj ref ∉ listed b).
    { intros Hk. destruct (Hin _ Hk) as (e0 & He0 & _). congruence. }
    assert (Hlisted : listed b' ≡ₚ listed b
                        ++ (if SourceObjInfo.should_copy e then [ref_obj ref] else [])).
    { unfold listed. destruct read_only; simpl in Hl1, Hl2; rewrite Hl1, Hl2.
      - rewrite app_assoc. reflexivity.
      - rewrite <- !app_assoc. apply Permutation_app_head, Permutation_app_comm. }
    split; [ | split ].
    + rewrite Hlisted. apply NoDup_app. split; [ exact Hnd | ]. split.
      * intros k Hk1 Hk2. destruct (SourceObjInfo.should_copy e).
        -- apply list_elem_of_singleton in Hk2. subst k. exact (Hfresh Hk1).
        -- inversion Hk2.
      * destruct (SourceObjInfo.should_copy e); [ apply NoDup_singleton | apply NoDup_nil_2 ].
    + intros k Hk. rewrite Hlisted in Hk. apply elem_of_app in Hk.
      destruct Hk as [Hk | Hk].
      * destruct (Hin k Hk) as (e0 & He0 & Hs0 & Hc0 & Hl0).
        assert (k <> ref_obj ref) by congruence.
        exists e0. rewrite Ht, lookup_insert_ne by congruence.
        repeat split; try assumption.
        destruct read_only, (SourceObjInfo._read_only e0); simpl in *;
          rewrite ?Hl1, ?Hl2; try assumption; apply elem_of_app; left; assumption.
      * destruct (SourceObjInfo.should_copy e) eqn:Hc; [ | inversion Hk ].
        apply list_elem_of_singleton in Hk. subst k.
        exists e. rewrite Ht, lookup_insert_eq. repeat split; try assumption.
        rewrite Hr, Hl1. apply elem_of_app. right. apply list_elem_of_singleton. reflexivity.
    + intros k e0 He0 Hc0. rewrite Hlisted. rewrite Ht in He0.
      apply elem_of_app.
      destruct (Z.eq_dec k (ref_obj ref)) as [-> | Hne].
      * rewrite lookup_insert_eq in He0. injection He0 as <-. rewrite Hc0.
        right. apply list_elem_of_singleton. reflexivity.
      * rewrite lookup_insert_ne in He0 by congruence. left. exact (Hall _ _ He0 Hc0).
Qed.

End GatherMore.

(** X4. The gathering pass keeps the lists and the table in agreement,
    whatever references the walker visits and in whatever order: no object is
    in the lists twice (so none is copied twice); every listed object has an
    entry in the table, under its own address, marked to be copied, and is in
    the list its read-only flag names; and every entry of the table that is
    to be copied is listed. *)
Theorem gathering_lists_each_copied_object_once
        (vm : VM) (visits : list (Ref * bool)) (b b' : ArchiveBuilder) :
  lists_agree_with_table b ->
  gather_refs vm b visits = Ok b' ->
  lists_agree_with_table b'.
Proof.
  revert b. induction visits as [ | [ref read_only] rest IH]; intros b Hinv H.
  - injection H as <-. exact Hinv.
  - simpl in H. inv_bind H. destruct a as [b1 recurse].
    exact (IH b1 (gather_one_keeps_lists_agree vm _ _ _ _ _ Hinv Ha) H).
Qed.

Lemma new_builder_lists_agree : lists_agree_with_table new_builder.
Proof.
  split; [ apply NoDup_nil_2 | ]. split.
  - intros k Hk. inversion Hk.
  - intros k e He. change (_src_obj_table new_builder) with (∅ : gmap Z SourceObjInfo.t) in He.
    rewrite lookup_empty in He. discriminate.
Qed.

Lemma gathering_lists_each_copied_object_once_witness :
  lists_agree_with_table
    (Scenario.get (gather_refs Scenario.vm new_builder
                     [(Scenario.refA, false); (Scenario.refB, false); (Scenario.refB, false)])).
Proof.
  refine (gathering_lists_each_copied_object_once Scenario.vm
            [(Scenario.refA, false); (Scenario.refB, false); (Scenario.refB, false)]
            new_builder _ new_builder_lists_agree _).
  vm_compute. reflexivity.
Defined.

(** X5. The first visit of an object whose follow mode is not
    [make_a_copy] enters it in the table but lists it nowhere and does not
    recurse into it; from then on [get_buffered_addr] resolves it without any
    copy: to its own address if it is pointed to ([point_to_it]: it lives in
    the shared archive), to null if it is elided ([set_to_null]). *)
Theorem uncopied_objects_resolve_without_a_copy
        (vm : VM) (b b' : ArchiveBuilder) (ref : Ref) (read_only recurse : bool) :
  ref_obj ref <> 0 -> has_been_regenerated vm (ref_obj ref) = false ->
  _src_obj_table b !! ref_obj ref = None ->
  get_follow_mode vm ref <> make_a_copy ->
  gather_one_source_obj vm b ref read_only = Ok (b', recurse) ->
  recurse = false
  /\ listed b' = listed b
  /\ get_buffered_addr b' (ref_obj ref)
     = Ok (match get_follow_mode vm ref with
           | point_to_it => ref_obj ref
           | _ => 0
           end).
Proof.
  intros Hnz Hreg He Hmode H.
  destruct (gather_first_lists vm _ _ _ _ _ Hnz Hreg He H)
    as (e & Ht & Hs & Hf & Hr & Hb & Hrec & Hl1 & Hl2).
  assert (Hc : SourceObjInfo.should_copy e = false).
  { unfold SourceObjInfo.should_copy. rewrite Hf.
    destruct (get_follow_mode vm ref); [ congruence | reflexivity | reflexivity ]. }
  rewrite Hc in Hrec, Hl1. rewrite app_nil_r in Hl1.
  split; [ exact Hrec | ]. split.
  - unfold listed. destruct read_only; simpl in Hl1, Hl2; rewrite Hl1, Hl2; reflexivity.
  - unfold get_buffered_addr. rewrite Ht, lookup_insert_eq, Hb.
    destruct (get_follow_mode vm ref); [ congruence | reflexivity | reflexivity ].
Qed.

Lemma uncopied_objects_resolve_without_a_copy_witness :
  get_buffered_addr
    (Scenario.get (gather_refs Scenario.vm_excluded new_builder [(Scenario.refE, false)]))
    0xE000
  = Ok 0.
Proof.
  refine (proj2 (proj2
    (uncopied_objects_resolve_without_a_copy Scenario.vm_excluded new_builder
       (Scenario.get (gather_refs Scenario.vm_excluded new_builder [(Scenario.refE, false)]))
       Scenario.refE false false _ _ _ _ _))).
  - vm_compute. discriminate.
  - reflexivity.
  - reflexivity.
  - vm_compute. discriminate.
  - vm_compute. reflexivity.
Defined.

(** X6. The classification of an object is never revised: a later visit
    of an object that the table holds under the other read-only flag fails
    the assertion "must be" of [gather_one_source_obj] (the pointer of the
    visit is still recorded first, and the check on regenerated method
    holders comes before it). *)
Theorem revisit_under_the_other_read_only_flag_is_fatal
        (vm : VM) (b b1 : ArchiveBuilder) (ref : Ref) (read_only : bool)
        (e : SourceObjInfo.t) :
  ref_obj ref <> 0 -> has_been_regenerated vm (ref_obj ref) = false ->
  _src_obj_table b !! ref_obj ref = Some e ->
  SourceObjInfo._read_only e = negb read_only ->
  remember_embedded_pointer_in_enclosing_obj b ref = Ok b1 ->
  (ref_msotype ref = MethodType ->
   has_been_regenerated vm (method_holder vm (ref_obj ref)) = false) ->
  gather_one_source_obj vm b ref read_only = Fatal (AssertFailed "must be" []).
Proof.
  intros Hnz Hreg He Hro Hrem Hholder. unfold gather_one_source_obj.
  apply Z.eqb_neq in Hnz. rewrite Hnz, Hreg, Hrem. simpl.
  pose proof (remember_in_enclosing_frame _ _ _ Hrem) as (Ht & _).
  rewrite (put_if_absent_present _ _ _ e) by (rewrite Ht; exact He).
  assert (Hm : negb (msotype_eqb (ref_msotype ref) MethodType)
               || negb (has_been_regenerated vm (method_holder vm (ref_obj ref))) = true).
  { destruct (msotype_eqb (ref_msotype ref) MethodType) eqn:E; [ | reflexivity ].
    apply msotype_eqb_eq in E. rewrite (Hholder E). reflexivity. }
  rewrite Hm. simpl. rewrite Hro. destruct read_only; reflexivity.
Qed.

Lemma revisit_under_the_other_read_only_flag_is_fatal_witness :
  gather_one_source_obj Scenario.vm Scenario.gatheredA Scenario.refA true
  = Fatal (AssertFailed "must be" []).
Proof.
  refine (revisit_under_the_other_read_only_flag_is_fatal Scenario.vm
            Scenario.gatheredA Scenario.gatheredA Scenario.refA true
            (SourceObjInfo.mk 0 2 false make_a_copy 16 OtherType 0x1000 0) _ _ _ _ _ _).
  - vm_compute. discriminate.
  - reflexivity.
  - vm_compute. reflexivity.
  - reflexivity.
  - vm_compute. reflexivity.
  - intros E. vm_compute in E. discriminate.
Defined.

(** X7. [gather_klass_and_symbol] answers "recurse" exactly for a non-null
    reference whose follow mode is [make_a_copy], and otherwise leaves the
    builder as it was.  Every class it is called with and recurses into is
    appended to [_klasses]: the exclusion test in front of the append can
    never fail there, since an excluded class is not followed by a copy.
    Every such symbol is appended to [_symbols]; an object of another kind
    leaves both arrays alone.  Nothing inside the shared archive is ever
    gathered. *)
Theorem gather_klass_and_symbol_gathers_what_is_copied
        (vm : VM) (b b' : ArchiveBuilder) (ref : Ref) (read_only recurse : bool) :
  gather_klass_and_symbol vm b ref read_only = (b', recurse) ->
  recurse = negb (ref_obj ref =? 0) && FollowMode_eqb (get_follow_mode vm ref) make_a_copy
  /\ (recurse = false -> b' = b)
  /\ (recurse = true ->
      _klasses b'
      = _klasses b ++ (if msotype_eqb (ref_msotype ref) ClassType then [ref_obj ref] else [])
      /\ _symbols b'
         = _symbols b
           ++ (if msotype_eqb (ref_msotype ref) SymbolType then [ref_obj ref] else [])
      /\ is_in_shared_metaspace vm (ref_obj ref) = false
      /\ (ref_msotype ref = ClassType -> is_excluded vm (ref_obj ref) = false)).
Proof.
  unfold gather_klass_and_symbol. intros H.
  destruct (ref_obj ref =? 0) eqn:Hz.
  { injection H as <- <-. simpl. split; [ reflexivity | ]. split; [ reflexivity | ].
    discriminate. }
  destruct (FollowMode_eqb (get_follow_mode vm ref) make_a_copy) eqn:Hf; simpl in H.
  2:{ injection H as <- <-. simpl. split; [ reflexivity | ]. split; [ reflexivity | ].
      discriminate. }
  injection H as <- <-. simpl. split; [ reflexivity | ]. split; [ discriminate | ].
  intros _. apply FollowMode_eqb_eq in Hf. unfold get_follow_mode in Hf.
  destruct (is_in_shared_metaspace vm (ref_obj ref)); [ discriminate | ].
  destruct (msotype_eqb (ref_msotype ref) MethodDataType
            || msotype_eqb (ref_msotype ref) MethodCountersType); [ discriminate | ].
  destruct (msotype_eqb (ref_msotype ref) ClassType) eqn:Hc; simpl in Hf |- *.
  - destruct (is_excluded vm (ref_obj ref)) eqn:Hx; [ discriminate | ]. simpl.
    assert (msotype_eqb (ref_msotype ref) SymbolType = false) as ->.
    { apply msotype_eqb_eq in Hc. rewrite Hc. reflexivity. }
    rewrite app_nil_r. repeat split; reflexivity.
  - destruct (msotype_eqb (ref_msotype ref) SymbolType) eqn:Hs; simpl;
      rewrite ?app_nil_r; repeat split; try reflexivity;
      intros E; rewrite E in Hc; discriminate.
Qed.

Lemma gather_klass_and_symbol_gathers_what_is_copied_witness :
  _klasses (fst (gather_klass_and_symbol Scenario.vm new_builder Scenario.klass1 false))
  = [0x5000].
Proof.
  refine (proj1 (proj2 (proj2
    (gather_klass_and_symbol_gathers_what_is_copied Scenario.vm new_builder
       (fst (gather_klass_and_symbol Scenario.vm new_builder Scenario.klass1 false))
       Scenario.klass1 false true _)) _)).
  - vm_compute. reflexivity.
  - reflexivity.
Defined.

(** X8. In a dynamic dump no class of object arrays is archived:
    [is_excluded] excludes every one of them, so that its follow mode is
    never [make_a_copy], the first gathering pass leaves it out of [_klasses]
    and the second never lists it for copying nor recurses into it. *)
Theorem dynamic_dump_copies_no_object_array_class
        (vm : VM) (ref : Ref) (bottom : Z) :
  DynamicDumpSharedSpaces vm = true ->
  ref_msotype ref = ClassType ->
  klass_kind vm (ref_obj ref) = ObjArrayKlass bottom ->
  is_excluded vm (ref_obj ref) = true
  /\ get_follow_mode vm ref <> make_a_copy
  /\ (forall b read_only, gather_klass_and_symbol vm b ref read_only = (b, false))
  /\ (forall b b' read_only recurse,
        gather_one_source_obj vm b ref read_only = Ok (b', recurse) ->
        recurse = false /\ listed b' = listed b).
Proof.
  intros Hdyn Hclass Hkind.
  assert (Hx : is_excluded vm (ref_obj ref) = true).
  { unfold is_excluded. rewrite Hkind, Hdyn. reflexivity. }
  assert (Hmode : get_follow_mode vm ref <> make_a_copy).
  { unfold get_follow_mode. rewrite Hclass, Hx. simpl.
    destruct (is_in_shared_metaspace vm (ref_obj ref)); discriminate. }
  split; [ exact Hx | ]. split; [ exact Hmode | ]. split.
  - intros b read_only. unfold gather_klass_and_symbol.
    destruct (ref_obj ref =? 0); [ reflexivity | ].
    destruct (FollowMode_eqb (get_follow_mode vm ref) make_a_copy) eqn:E;
      [ apply FollowMode_eqb_eq in E; contradiction | reflexivity ].
  - intros b b' read_only recurse H.
    destruct (Z.eq_dec (ref_obj ref) 0) as [Hz | Hnz].
    { unfold gather_one_source_obj in H. apply Z.eqb_eq in Hz. rewrite Hz in H.
      injection H as <- <-. auto. }
    destruct (has_been_regenerated vm (ref_obj ref)) eqn:Hreg.
    { unfold gather_one_source_obj in H. apply Z.eqb_neq in Hnz. rewrite Hnz, Hreg in H.
      injection H as <- <-. auto. }
    destruct (_src_obj_table b !! ref_obj ref) as [e | ] eqn:He.
    + destruct (gather_again vm _ _ _ _ _ _ Hnz Hreg He H) as (Hrec & Hrem).
      pose proof (remember_in_enclosing_frame _ _ _ Hrem) as (_ & Hrw & Hro & _).
      split; [ exact Hrec | ]. unfold listed. rewrite Hrw, Hro. reflexivity.
    + destruct (gather_first_lists vm _ _ _ _ _ Hnz Hreg He H)
        as (e & _ & _ & Hf & _ & _ & Hrec & Hl1 & Hl2).
      assert (Hc : SourceObjInfo.should_copy e = false).
      { unfold SourceObjInfo.should_copy. rewrite Hf.
        destruct (get_follow_mode vm ref); [ congruence | reflexivity | reflexivity ]. }
      rewrite Hc in Hrec, Hl1. rewrite app_nil_r in Hl1.
      split; [ exact Hrec | ].
      unfold listed. destruct read_only; simpl in Hl1, Hl2; rewrite Hl1, Hl2; reflexivity.
Qed.

Lemma dynamic_dump_copies_no_object_array_class_witness :
  gather_klass_and_symbol DynamicScenario.vm new_builder DynamicScenario.array_klass false
  = (new_builder, false).
Proof.
  refine (proj1 (proj2 (proj2
    (dynamic_dump_copies_no_object_array_class DynamicScenario.vm
       DynamicScenario.array_klass 0x5100 _ _ _))) new_builder false);
    reflexivity.
Defined.

(** X9. [record_regenerated_object] fails the assertion "regenerated
    object should always be dumped" when the table has no entry for the
    regenerated object, and the assertion "We shouldn't have archived the
    original copy of a regenerated object" when it already has one for the
    original.  When it succeeds, the original had no entry, is not the
    regenerated object itself, and the entries of all other addresses are as
    before. *)
Theorem record_regenerated_object_needs_a_dumped_replacement_and_a_fresh_original
        (b : ArchiveBuilder) (orig_src_obj regen_src_obj : Z) :
  (_src_obj_table b !! regen_src_obj = None ->
   record_regenerated_object b orig_src_obj regen_src_obj
   = Fatal (AssertFailed "regenerated object should always be dumped" []))
  /\ (is_Some (_src_obj_table b !! regen_src_obj) ->
      is_Some (_src_obj_table b !! orig_src_obj) ->
      record_regenerated_object b orig_src_obj regen_src_obj
      = Fatal (AssertFailed
                 "We shouldn't have archived the original copy of a regenerated object" []))
  /\ (forall b',
        record_regenerated_object b orig_src_obj regen_src_obj = Ok b' ->
        is_Some (_src_obj_table b !! regen_src_obj)
        /\ _src_obj_table b !! orig_src_obj = None
        /\ orig_src_obj <> regen_src_obj
        /\ forall k, k <> orig_src_obj -> _src_obj_table b' !! k = _src_obj_table b !! k).
Proof.
  unfold record_regenerated_object. split; [ | split ].
  - intros ->. reflexivity.
  - intros [p ->] [e He]. rewrite (put_if_absent_present _ _ _ e He). reflexivity.
  - intros b' H. destruct (_src_obj_table b !! regen_src_obj) as [p | ] eqn:Hp;
      [ | discriminate ].
    destruct (_src_obj_table b !! orig_src_obj) as [e | ] eqn:He.
    + rewrite (put_if_absent_present _ _ _ e He) in H. discriminate.
    + rewrite put_if_absent_absent in H by exact He. simpl in H. injection H as <-.
      split; [ eauto | ]. split; [ reflexivity | ]. split; [ congruence | ].
      intros k Hk. simpl. apply lookup_insert_ne. congruence.
Qed.

Lemma record_regenerated_object_needs_a_dumped_replacement_and_a_fresh_original_witness :
  record_regenerated_object Scenario.gatheredA 0x4000 0x2000
  = Fatal (AssertFailed "regenerated object should always be dumped" []).
Proof.
  refine (proj1
    (record_regenerated_object_needs_a_dumped_replacement_and_a_fresh_original
       Scenario.gatheredA 0x4000 0x2000) _).
  vm_compute. reflexivity.
Defined.

(** ** Sorting the symbols *)

Lemma sort_insert_symbol (x : Z) (sorted : list Z) :
  StronglySorted Z.lt sorted ->
  (x ∉ sorted ->
   exists l', sort_insert compare_symbols_by_address x sorted = Ok l'
              /\ l' ≡ₚ x :: sorted /\ StronglySorted Z.lt l')
  /\ (x ∈ sorted ->
      sort_insert compare_symbols_by_address x sorted
      = Fatal (AssertFailed "Duplicated symbol unexpected" [x])).
Proof.
  induction sorted as [ | y rest IH]; intros Hs.
  - split; [ | intros E; inversion E ].
    intros _. exists [x]. split; [ reflexivity | ]. split; [ reflexivity | ].
    repeat constructor.
  - apply StronglySorted_inv in Hs. destruct Hs as (Hrest & Hy).
    destruct (IH Hrest) as (IHok & IHdup).
    cbn [sort_insert].
    assert (Elt : x < y -> compare_symbols_by_address x y = Ok (-1)).
    { intros H. unfold compare_symbols_by_address.
      replace (x <? y) with true by (symmetry; apply Z.ltb_lt; lia). reflexivity. }
    assert (Egt : y < x -> compare_symbols_by_address x y = Ok 1).
    { intros H. unfold compare_symbols_by_address.
      replace (x <? y) with false by (symmetry; apply Z.ltb_ge; lia).
      replace (y <? x) with true by (symmetry; apply Z.ltb_lt; lia). reflexivity. }
    assert (Eeq : x = y -> compare_symbols_by_address x y
                           = Fatal (AssertFailed "Duplicated symbol unexpected" [x])).
    { intros <-. unfold compare_symbols_by_address. rewrite Z.ltb_irrefl. reflexivity. }
    split.
    + intros Hx. apply not_elem_of_cons in Hx. destruct Hx as (Hne & Hx).
      destruct (Z_lt_le_dec x y) as [Hlt | Hlt].
      * rewrite (Elt Hlt). simpl.
        exists (x :: y :: rest). split; [ reflexivity | ]. split; [ reflexivity | ].
        constructor.
        -- constructor; assumption.
        -- constructor; [ exact Hlt | ].
           rewrite Forall_forall in Hy |- *. intros z Hz. specialize (Hy z Hz). lia.
      * rewrite (Egt ltac:(lia)). simpl.
        destruct (IHok Hx) as (l' & -> & Hp & Hs'). simpl.
        exists (y :: l'). split; [ reflexivity | ]. split.
        -- rewrite Hp. apply perm_swap.
        -- constructor; [ exact Hs' | ].
           rewrite Hp. constructor; [ lia | exact Hy ].
    + intros Hx. apply elem_of_cons in Hx. destruct Hx as [-> | Hx].
      * rewrite (Eeq eq_refl). reflexivity.
      * rewrite Forall_forall in Hy. specialize (Hy x Hx).
        rewrite (Egt Hy). simpl. rewrite (IHdup Hx). reflexivity.
Qed.

Lemma sort_symbols (l : list Z) :
  (NoDup l ->
   exists l', sort compare_symbols_by_address l = Ok l'
              /\ l' ≡ₚ l /\ StronglySorted Z.lt l')
  /\ (~ NoDup l ->
      exists s, s ∈ l
                /\ sort compare_symbols_by_address l
                   = Fatal (AssertFailed "Duplicated symbol unexpected" [s])).
Proof.
  induction l as [ | x rest (IHok & IHdup)].
  - split; [ | intros H; destruct H; constructor ].
    intros _. exists []. split; [ reflexivity | ]. split; [ reflexivity | constructor ].
  - simpl. split.
    + intros Hnd. apply NoDup_cons in Hnd. destruct Hnd as (Hx & Hnd).
      destruct (IHok Hnd) as (sorted & -> & Hp & Hs). simpl.
      destruct (sort_insert_symbol x sorted Hs) as (Hins & _).
      destruct Hins as (l' & -> & Hp' & Hs'); [ rewrite Hp; exact Hx | ].
      exists l'. split; [ reflexivity | ]. split; [ | exact Hs' ].
      rewrite Hp', Hp. reflexivity.
    + intros Hnd. destruct (decide (NoDup rest)) as [Hrest | Hrest].
      * destruct (IHok Hrest) as (sorted & -> & Hp & Hs). simpl.
        assert (Hx : x ∈ rest).
        { destruct (decide (x ∈ rest)) as [Hin | Hout]; [ exact Hin | ].
          exfalso. apply Hnd. apply NoDup_cons. split; assumption. }
        exists x. split; [ left | ].
        apply (sort_insert_symbol x sorted Hs). rewrite Hp. exact Hx.
      * destruct (IHdup Hrest) as (s & Hs & ->). exists s. split; [ right; exact Hs | ].
        reflexivity.
Qed.

Lemma update_identity_hashes_inv (vm : VM) (symbols : list Z) :
  forall seed : Z,
    (Forall (fun s => is_permanent vm s = true) symbols ->
     exists hashes, update_identity_hashes vm seed symbols = Ok hashes
                    /\ map fst hashes = symbols)
    /\ (~ Forall (fun s => is_permanent vm s = true) symbols ->
        exists s, s ∈ symbols /\ is_permanent vm s = false
                  /\ update_identity_hashes vm seed symbols
                     = Fatal (AssertFailed "archived symbols must be permanent" [s])).
Proof.
  induction symbols as [ | s rest IH]; intros seed.
  - split; [ | intros H; destruct H; constructor ].
    intros _. exists []. split; reflexivity.
  - simpl. destruct (IH (os_next_random vm seed)) as (IHok & IHbad). split.
    + intros Hall. apply Forall_cons in Hall. destruct Hall as (Hs & Hall).
      rewrite Hs. simpl. destruct (IHok Hall) as (hashes & -> & Hkeys). simpl.
      exists ((s, os_next_random vm seed) :: hashes). split; [ reflexivity | ].
      simpl. rewrite Hkeys. reflexivity.
    + intros Hbad. destruct (is_permanent vm s) eqn:Hs.
      * simpl. destruct IHbad as (s' & Hin & Hs' & ->).
        { intros Hall. apply Hbad. constructor; assumption. }
        exists s'. split; [ right; exact Hin | ]. split; [ exact Hs' | reflexivity ].
      * exists s. split; [ left | ]. split; [ exact Hs | reflexivity ].
Qed.

(** X10. [sort_symbols_and_fix_hash] succeeds exactly on pairwise distinct,
    permanent symbols.  Then [_symbols] holds the same symbols in strictly
    ascending address order, nothing else of the builder changes, and the
    identity hashes are drawn for the symbols in that order.  A symbol
    gathered twice makes the comparator fail the assertion "Duplicated symbol
    ... unexpected", which reports a symbol of the array; distinct symbols
    one of which is not permanent fail the assertion "archived symbols must
    be permanent", which reports such a symbol. *)
Theorem sort_symbols_and_fix_hash_needs_distinct_permanent_symbols
        (vm : VM) (b : ArchiveBuilder) :
  let permanent := Forall (fun s => is_permanent vm s = true) (_symbols b) in
  (NoDup (_symbols b) -> permanent ->
   exists sorted hashes,
     sort_symbols_and_fix_hash vm b = Ok (set_symbols b sorted, hashes)
     /\ sorted ≡ₚ _symbols b /\ StronglySorted Z.lt sorted
     /\ map fst hashes = sorted)
  /\ (~ NoDup (_symbols b) ->
      exists s, s ∈ _symbols b
                /\ sort_symbols_and_fix_hash vm b
                   = Fatal (AssertFailed "Duplicated symbol unexpected" [s]))
  /\ (NoDup (_symbols b) -> ~ permanent ->
      exists s, s ∈ _symbols b /\ is_permanent vm s = false
                /\ sort_symbols_and_fix_hash vm b
                   = Fatal (AssertFailed "archived symbols must be permanent" [s])).
Proof.
  intros permanent. unfold sort_symbols_and_fix_hash.
  destruct (sort_symbols (_symbols b)) as (Hok & Hdup).
  split; [ | split ].
  - intros Hnd Hperm. destruct (Hok Hnd) as (sorted & -> & Hp & Hs). simpl.
    destruct (update_identity_hashes_inv vm sorted 305419896) as (Hhash & _).
    destruct Hhash as (hashes & -> & Hkeys).
    { unfold permanent in Hperm. rewrite Hp. exact Hperm. }
    exists sorted, hashes. simpl. auto.
  - intros Hnd. destruct (Hdup Hnd) as (s & Hin & ->). exists s. auto.
  - intros Hnd Hperm. destruct (Hok Hnd) as (sorted & -> & Hp & Hs). simpl.
    destruct (update_identity_hashes_inv vm sorted 305419896) as (_ & Hbad).
    destruct Hbad as (s & Hin & Hs' & ->).
    { intros Hall. apply Hperm. unfold permanent. rewrite <- Hp. exact Hall. }
    exists s. rewrite <- Hp. auto.
Qed.

Lemma sort_symbols_and_fix_hash_needs_distinct_permanent_symbols_witness :
  exists s,
    s ∈ [0x6000; 0x6100; 0x6000]
    /\ sort_symbols_and_fix_hash Scenario.vm (set_symbols new_builder [0x6000; 0x6100; 0x6000])
       = Fatal (AssertFailed "Duplicated symbol unexpected" [s]).
Proof.
  refine (proj1 (proj2
    (sort_symbols_and_fix_hash_needs_distinct_permanent_symbols Scenario.vm
       (set_symbols new_builder [0x6000; 0x6100; 0x6000]))) _).
  simpl. intros Hnd. apply NoDup_cons in Hnd. destruct Hnd as (Hx & _).
  apply Hx. right. left.
Defined.

(** X11. [gather_klasses_and_symbols] sorts only in a static dump.  In a
    dynamic dump it cannot fail, the classes and the symbols stay in the
    order they were enumerated in, no identity hash is rewritten and the
    estimate is the sum of what was gathered; in a static dump the estimate
    is that sum plus an allowance of 200 MB, and the identity hashes are
    those of the symbols of the sorted array, in its order. *)
Theorem dynamic_dump_gathers_in_enumeration_order
        (vm : VM) (b : ArchiveBuilder) (refs : list (Ref * bool)) :
  let gathered_estimate :=
    fold_left (fun e r => add_estimate vm e (fst r)) refs (_estimated_metaspaceobj_bytes b) in
  (DumpSharedSpaces vm = false ->
   exists b',
     gather_klasses_and_symbols vm b refs = Ok (b', [])
     /\ _symbols b' = _symbols b ++ flat_map (fun r => gathered_symbol vm (fst r)) refs
     /\ _klasses b' = _klasses b ++ flat_map (fun r => gathered_klass vm (fst r)) refs
     /\ _estimated_metaspaceobj_bytes b' = gathered_estimate)
  /\ (DumpSharedSpaces vm = true ->
      forall b' hashes,
        gather_klasses_and_symbols vm b refs = Ok (b', hashes) ->
        _estimated_metaspaceobj_bytes b' = wrap (gathered_estimate + 200 * 1024 * 1024)
        /\ map fst hashes = _symbols b').
Proof.
  intros gathered_estimate. unfold gather_klasses_and_symbols.
  rewrite gather_all_adds. split.
  - intros ->. eexists. split; [ reflexivity | ]. simpl. auto.
  - intros -> b' hashes H. inv_bind H. destruct a as [b1 hashes1]. inv_bind H.
    injection H as <- <-.
    unfold sort_symbols_and_fix_hash in Ha. inv_bind Ha. inv_bind Ha. injection Ha as <- <-.
    unfold sort_klasses in Ha0. inv_bind Ha0. injection Ha0 as <-. simpl.
    split; [ reflexivity | ].
    match goal with
    | Hh : update_identity_hashes vm 305419896 ?sorted = Ok ?hs |- _ =>
        rename Hh into Hhashes; set (symbols := sorted) in *
    end.
    destruct (update_identity_hashes_inv vm symbols 305419896) as (Hok & Hbad).
    destruct (decide (Forall (fun s => is_permanent vm s = true) symbols)) as [Hall | Hnot].
    + destruct (Hok Hall) as (hashes & E & Hkeys). congruence.
    + destruct (Hbad Hnot) as (s & _ & _ & E). congruence.
Qed.

Lemma dynamic_dump_gathers_in_enumeration_order_witness :
  exists b',
    gather_klasses_and_symbols DynamicScenario.vm new_builder
      [(Scenario.symbol2, true); (Scenario.symbol1, true)]
    = Ok (b', [])
    /\ _symbols b' = [0x6100; 0x6000].
Proof.
  destruct (proj1 (dynamic_dump_gathers_in_enumeration_order DynamicScenario.vm new_builder
                     [(Scenario.symbol2, true); (Scenario.symbol1, true)]) eq_refl)
    as (b' & H & Hs & _).
  exists b'. split; [ exact H | exact Hs ].
Defined.

(** ** Alignment to a power of two *)

Lemma align_down_pow2 (x k : Z) : 0 <= k -> align_down x (2 ^ k) = 2 ^ k * (x / 2 ^ k).
Proof.
  intros Hk. unfold align_down, alignment_mask.
  replace (2 ^ k - 1) with (Z.ones k) by (rewrite Z.ones_equiv; lia).
  rewrite <- Z.ldiff_land, Z.ldiff_ones_r by lia.
  rewrite Z.shiftr_div_pow2, Z.shiftl_mul_pow2 by lia. lia.
Qed.

Lemma align_up_pow2 (x k : Z) :
  0 <= k -> 0 <= x -> x + 2 ^ k <= 2 ^ 64 ->
  align_up x (2 ^ k) = 2 ^ k * ((x + (2 ^ k - 1)) / 2 ^ k)
  /\ align_up x (2 ^ k) mod 2 ^ k = 0
  /\ x <= align_up x (2 ^ k) < x + 2 ^ k.
Proof.
  intros Hk Hx Hfit.
  assert (Hpos : 0 < 2 ^ k) by (apply Z.pow_pos_nonneg; lia).
  assert (E : align_up x (2 ^ k) = 2 ^ k * ((x + (2 ^ k - 1)) / 2 ^ k)).
  { unfold align_up, alignment_mask. rewrite wrap_small by lia.
    apply align_down_pow2. exact Hk. }
  split; [ exact E | ]. rewrite E. split.
  - rewrite Z.mul_comm. apply Z.mod_mul. lia.
  - pose proof (Z.div_mod (x + (2 ^ k - 1)) (2 ^ k) ltac:(lia)) as Hdm.
    pose proof (Z.mod_pos_bound (x + (2 ^ k - 1)) (2 ^ k) Hpos). lia.
Qed.

Lemma align_up_8 (x : Z) :
  0 <= x -> x + 8 <= 2 ^ 64 ->
  align_up x 8 = 8 * ((x + 7) / 8) /\ align_up x 8 mod 8 = 0 /\ x <= align_up x 8 < x + 8.
Proof. intros H1 H2. exact (align_up_pow2 x 3 ltac:(lia) H1 H2). Qed.

(** ** The estimate and the reservation *)

(** X12. [estimate_archive_size] answers a multiple of the core region
    alignment (a power of two) that is at least the sum of the estimate for
    the metadata objects, the estimates for the symbol table and the
    dictionaries, and one alignment unit per dump region, and exceeds that
    sum by less than one alignment unit (as long as the sum does not
    overflow the address space); it records the estimate for the two hash
    tables and changes nothing else. *)
Theorem estimate_archive_size_is_aligned_and_sufficient
        (vm : VM) (b : ArchiveBuilder) (k : Z) :
  let total := _estimated_metaspaceobj_bytes b
               + (symbol_table_estimate vm + dictionary_estimate vm)
               + total_dump_regions vm * core_region_alignment vm in
  core_region_alignment vm = 2 ^ k -> 0 <= k ->
  0 <= _estimated_metaspaceobj_bytes b ->
  0 <= symbol_table_estimate vm -> 0 <= dictionary_estimate vm ->
  0 <= total_dump_regions vm ->
  total + core_region_alignment vm <= 2 ^ 64 ->
  snd (estimate_archive_size vm b) mod core_region_alignment vm = 0
  /\ total <= snd (estimate_archive_size vm b) < total + core_region_alignment vm
  /\ fst (estimate_archive_size vm b)
     = set_estimated_hashtable_bytes b (symbol_table_estimate vm + dictionary_estimate vm).
Proof.
  intros total Ha Hk Hm Hs Hd Hr Hfit.
  assert (Hpos : 0 < 2 ^ k) by (apply Z.pow_pos_nonneg; lia).
  assert (Hreg : 0 <= total_dump_regions vm * core_region_alignment vm) by nia.
  unfold estimate_archive_size. cbv zeta. simpl fst. simpl snd.
  cbn [_estimated_metaspaceobj_bytes _estimated_hashtable_bytes set_estimated_hashtable_bytes].
  rewrite (wrap_small (symbol_table_estimate vm + dictionary_estimate vm)) by lia.
  rewrite (wrap_small (0 + _estimated_metaspaceobj_bytes b)) by lia.
  rewrite (wrap_small (0 + _estimated_metaspaceobj_bytes b
                       + (symbol_table_estimate vm + dictionary_estimate vm))) by lia.
  rewrite (wrap_small (total_dump_regions vm * core_region_alignment vm)) by lia.
  rewrite wrap_small by lia.
  replace (0 + _estimated_metaspaceobj_bytes b
           + (symbol_table_estimate vm + dictionary_estimate vm)
           + total_dump_regions vm * core_region_alignment vm) with total by (unfold total; lia).
  rewrite Ha in *.
  destruct (align_up_pow2 total k Hk ltac:(unfold total; lia) Hfit) as (_ & Hmod & Hb).
  repeat split; try assumption; lia.
Qed.

Lemma estimate_archive_size_is_aligned_and_sufficient_witness :
  snd (estimate_archive_size Scenario.vm new_builder) mod 4096 = 0.
Proof.
  refine (proj1
    (estimate_archive_size_is_aligned_and_sufficient Scenario.vm new_builder 12
       _ _ _ _ _ _ _)).
  - reflexivity.
  - lia.
  - simpl; lia.
  - simpl; lia.
  - simpl; lia.
  - simpl; lia.
  - vm_compute. discriminate.
Defined.

(** X13. When [reserve_buffer] succeeds in a static dump, the buffer is
    the span the operating system gave for the estimated size; the read-write
    region is current and spans the whole buffer; 16 bytes are already
    allocated at its bottom, so that no object is ever copied at the very
    bottom of the archive (the estimate is therefore at least 16 bytes, and
    these 16 bytes count as used); the verification counters start at the
    bottom; the table and the lists are untouched. *)
Theorem reserve_buffer_static_keeps_the_bottom_free
        (vm : VM) (b b' : ArchiveBuilder) (bottom : Z) :
  let buffer_size := snd (estimate_archive_size vm b) in
  DumpSharedSpaces vm = true ->
  0 <= bottom -> bottom mod 8 = 0 ->
  0 <= buffer_size -> bottom + buffer_size < 2 ^ 64 ->
  reserve_buffer vm b = Ok (b', bottom) ->
  reserve_space vm buffer_size = Some bottom
  /\ _buffer_bottom b' = bottom
  /\ _current_dump_space b' = rw
  /\ _last_verified_top b' = bottom
  /\ _num_dump_regions_used b' = 1
  /\ _other_region_used_bytes b' = 0
  /\ DumpRegion._base (_rw_region b') = bottom
  /\ DumpRegion._top (_rw_region b') = bottom + 16
  /\ DumpRegion._end (_rw_region b') = bottom + buffer_size
  /\ 16 <= buffer_size
  /\ used_since_last_verification b' = 16
  /\ _src_obj_table b' = _src_obj_table b
  /\ _rw_src_objs b' = _rw_src_objs b
  /\ _ro_src_objs b' = _ro_src_objs b.
Proof.
  intros buffer_size Hstatic Hb0 Hb8 Hs0 Hfit H.
  unfold reserve_buffer in H. subst buffer_size.
  destruct (estimate_archive_size vm b) as [b0 size] eqn:E. simpl snd in *.
  assert (Eb0 : b0 = set_estimated_hashtable_bytes b
                       (wrap (symbol_table_estimate vm + dictionary_estimate vm))).
  { unfold estimate_archive_size in E. injection E as <- _. reflexivity. }
  destruct (reserve_space vm size) as [rs_base | ] eqn:Hrs; [ | discriminate ].
  rewrite Hstatic in H. simpl in H.
  destruct ((my_archive_requested_bottom vm <? requested_base_address vm)
            || (my_archive_requested_top vm size <=? requested_base_address vm));
    [ discriminate | ].
  inv_bind H. destruct a as [b1 p]. injection H as <- <-.
  unfold allocate in Ha. simpl in Ha.
  change SharedSpaceObjectAlignment with 8 in Ha.
  pose proof (Z.div_mod rs_base 8 ltac:(lia)) as Hdm.
  rewrite (align_up_8_aligned rs_base) in Ha by lia.
  change (align_up 16 8) with 16 in Ha.
  rewrite (wrap_small (rs_base + size)) in Ha by lia.
  destruct (rs_base + size <? rs_base + 16) eqn:Hcmp; [ discriminate | ].
  apply Z.ltb_ge in Hcmp. injection Ha as <- _.
  unfold used_since_last_verification, current_dump_space. simpl.
  rewrite Eb0. simpl.
  replace (rs_base + 16 - rs_base) with 16 by lia.
  repeat split; try reflexivity; lia.
Qed.

Lemma reserve_buffer_static_keeps_the_bottom_free_witness :
  DumpRegion._top (_rw_region (Scenario.get Scenario.reserved)) = 0x7f0000000000 + 16.
Proof.
  refine (proj1 (proj2 (proj2 (proj2 (proj2 (proj2 (proj2 (proj2
    (reserve_buffer_static_keeps_the_bottom_free Scenario.vm new_builder
       (Scenario.get Scenario.reserved) 0x7f0000000000 _ _ _ _ _ _))))))))).
  - reflexivity.
  - lia.
  - reflexivity.
  - vm_compute. discriminate.
  - vm_compute. reflexivity.
  - vm_compute. reflexivity.
Defined.

(** X14. When [reserve_buffer] succeeds in a dynamic dump, the mapped
    static archive is the shared metaspace, its requested span is as long as
    its mapped span, and the dynamic archive is requested at the first
    aligned address at or above the requested top of the static archive: the
    two requested spans do not overlap.  The delta converts the bottom of the
    buffer to that address, and nothing is allocated in the buffer yet. *)
Theorem reserve_buffer_dynamic_requests_the_archive_above_the_static_one
        (vm : VM) (b b' : ArchiveBuilder) (bottom k : Z) :
  let static_archive_size := shared_metaspace_top vm - shared_metaspace_base vm in
  DumpSharedSpaces vm = false ->
  core_region_alignment vm = 2 ^ k -> 0 <= k ->
  0 <= requested_base_address vm -> 0 <= shared_metaspace_base vm ->
  shared_metaspace_top vm < 2 ^ 64 ->
  requested_base_address vm + static_archive_size + 2 ^ k <= 2 ^ 64 ->
  reserve_buffer vm b = Ok (b', bottom) ->
  shared_metaspace_base vm <= shared_metaspace_top vm
  /\ _mapped_static_archive_bottom b' = shared_metaspace_base vm
  /\ _mapped_static_archive_top b' = shared_metaspace_top vm
  /\ _requested_static_archive_bottom b' = requested_base_address vm
  /\ _requested_static_archive_top b' = requested_base_address vm + static_archive_size
  /\ _requested_static_archive_top b' <= _requested_dynamic_archive_bottom b'
     < _requested_static_archive_top b' + 2 ^ k
  /\ _requested_dynamic_archive_bottom b' mod 2 ^ k = 0
  /\ buffer_to_requested_delta b'
     = as_intx (_requested_dynamic_archive_bottom b' - bottom)
  /\ _buffer_bottom b' = bottom
  /\ DumpRegion._top (_rw_region b') = bottom.
Proof.
  intros static_archive_size Hdyn Ha Hk Hreq Hbase Htop Hfit H.
  unfold reserve_buffer in H.
  destruct (estimate_archive_size vm b) as [b0 size] eqn:E.
  destruct (reserve_space vm size) as [rs_base | ] eqn:Hrs; [ | discriminate ].
  rewrite Hdyn in H. inv_bind H. apply Z.leb_le in Ha0.
  destruct ((my_archive_requested_bottom vm <? requested_base_address vm)
            || (my_archive_requested_top vm size <=? requested_base_address vm));
    [ discriminate | ].
  injection H as <- <-. simpl.
  unfold buffer_to_requested_delta. simpl.
  unfold my_archive_requested_bottom. rewrite Hdyn, Ha.
  rewrite (wrap_small (shared_metaspace_top vm - shared_metaspace_base vm)) by lia.
  assert (Hpos : 0 < 2 ^ k) by (apply Z.pow_pos_nonneg; lia).
  rewrite wrap_small by (unfold static_archive_size in Hfit; lia).
  destruct (align_up_pow2
              (requested_base_address vm
               + (shared_metaspace_top vm - shared_metaspace_base vm)) k Hk
              ltac:(lia) ltac:(unfold static_archive_size in Hfit; lia))
    as (_ & Hmod & Hbounds).
  unfold static_archive_size. repeat split; try reflexivity; try assumption; lia.
Qed.

Lemma reserve_buffer_dynamic_requests_the_archive_above_the_static_one_witness :
  _requested_static_archive_top DynamicScenario.reserved = 0x800000000 + 0x3000.
Proof.
  refine (proj1 (proj2 (proj2 (proj2 (proj2
    (reserve_buffer_dynamic_requests_the_archive_above_the_static_one DynamicScenario.vm
       new_builder DynamicScenario.reserved 0x7f0000000000 12 _ _ _ _ _ _ _ _)))))).
  - reflexivity.
  - reflexivity.
  - lia.
  - simpl; lia.
  - simpl; lia.
  - simpl; lia.
  - vm_compute. discriminate.
  - vm_compute. reflexivity.
Defined.

(** ** Switching regions and verifying the estimate *)

Lemma verify_estimate_size_by_use (b : ArchiveBuilder) (estimate : Z) (which : string) :
  verify_estimate_size b estimate which
  = (_ ← assert (0 <=? as_int (as_int estimate - as_int (used_since_last_verification b)))
               "Estimate is too small" [];
     Ok (set_other_region_used_bytes
           (set_last_verified_top b (DumpRegion._top (current_dump_space b))) 0)).
Proof. reflexivity. Qed.

(** X15. Switching to the next dump region loses no byte of the count
    that [verify_estimate_size] checks: [start_dump_space] moves the bytes
    used in the region it closes into [_other_region_used_bytes] and starts
    counting the new region from its top, so that the bytes used since the
    last verification are the same before and after the switch, and so is the
    verdict of a verification against any estimate.  The new region becomes
    current and the number of regions used grows by one. *)
Theorem start_dump_space_keeps_the_bytes_used (b : ArchiveBuilder) (next : RegionId) :
  used_since_last_verification (start_dump_space b next) = used_since_last_verification b
  /\ _other_region_used_bytes (start_dump_space b next)
     = wrap (_other_region_used_bytes b
             + wrap (DumpRegion._top (current_dump_space b) - _last_verified_top b))
  /\ _current_dump_space (start_dump_space b next) = next
  /\ _num_dump_regions_used (start_dump_space b next) = _num_dump_regions_used b + 1
  /\ _last_verified_top (start_dump_space b next)
     = DumpRegion._top (current_dump_space (start_dump_space b next))
  /\ (forall estimate which,
        is_ok (verify_estimate_size (start_dump_space b next) estimate which)
        = is_ok (verify_estimate_size b estimate which)).
Proof.
  assert (Hused : used_since_last_verification (start_dump_space b next)
                  = used_since_last_verification b).
  { unfold used_since_last_verification, start_dump_space, current_dump_space, wrap.
    destruct_builder b; simpl;
      rewrite Z.sub_diag, Z.mod_0_l, Z.add_0_l, Z.mod_mod by lia;
      f_equal; lia. }
  split; [ exact Hused | ].
  split; [ destruct_builder b; reflexivity | ].
  split; [ destruct_builder b; reflexivity | ].
  split; [ destruct_builder b; reflexivity | ].
  split; [ destruct_builder b; reflexivity | ].
  intros estimate which. rewrite !verify_estimate_size_by_use, Hused.
  destruct (0 <=? as_int (as_int estimate - as_int (used_since_last_verification b)));
    reflexivity.
Qed.

(** X16. When the estimate fits an [int] and the bytes used since the
    last verification do not exceed it, [verify_estimate_size] succeeds; it
    then starts a new count at the current top: the bytes used since the last
    verification are 0, the regions are untouched, and a second verification
    against any estimate that fits an [int] succeeds and changes nothing. *)
Theorem verify_estimate_size_accepts_and_resets
        (b : ArchiveBuilder) (estimate : Z) (which : string) :
  0 <= estimate < 2 ^ 31 ->
  used_since_last_verification b <= estimate ->
  exists b',
    verify_estimate_size b estimate which = Ok b'
    /\ used_since_last_verification b' = 0
    /\ _last_verified_top b' = DumpRegion._top (current_dump_space b)
    /\ _rw_region b' = _rw_region b /\ _ro_region b' = _ro_region b
    /\ _current_dump_space b' = _current_dump_space b
    /\ (forall estimate' which',
          0 <= estimate' < 2 ^ 31 ->
          verify_estimate_size b' estimate' which' = Ok b').
Proof.
  intros He Hu.
  assert (Hused : 0 <= used_since_last_verification b).
  { unfold used_since_last_verification. apply wrap_range. }
  assert (Hreset : forall b0 : ArchiveBuilder,
             used_since_last_verification
               (set_other_region_used_bytes
                  (set_last_verified_top b0 (DumpRegion._top (current_dump_space b0))) 0)
             = 0).
  { intros b0. unfold used_since_last_verification, current_dump_space.
    destruct_builder b0; simpl; rewrite Z.sub_diag; reflexivity. }
  exists (set_other_region_used_bytes
            (set_last_verified_top b (DumpRegion._top (current_dump_space b))) 0).
  split; [ | split; [ apply Hreset | ] ].
  - unfold verify_estimate_size. fold (used_since_last_verification b).
    rewrite (as_int_small estimate), (as_int_small (used_since_last_verification b)),
      as_int_small by lia.
    replace (0 <=? estimate - used_since_last_verification b) with true
      by (symmetry; apply Z.leb_le; lia).
    reflexivity.
  - split; [ destruct b; reflexivity | ].
    split; [ destruct b; reflexivity | ].
    split; [ destruct b; reflexivity | ].
    split; [ destruct b; reflexivity | ].
    intros estimate' which' He'. unfold verify_estimate_size.
    match goal with
    | |- context [as_int (wrap (wrap (?t - ?l) + ?o))] =>
        replace (wrap (wrap (t - l) + o)) with 0
    end.
    2:{ symmetry. exact (Hreset b). }
    change (as_int 0) with 0. rewrite Z.sub_0_r, (as_int_small estimate') by lia.
    rewrite as_int_small by lia.
    replace (0 <=? estimate') with true by (symmetry; apply Z.leb_le; lia).
    simpl. f_equal; destruct_builder b; reflexivity.
Qed.

Lemma verify_estimate_size_accepts_and_resets_witness :
  exists b',
    verify_estimate_size (Scenario.get Scenario.reserved) 16 "MetaspaceObjs" = Ok b'
    /\ used_since_last_verification b' = 0.
Proof.
  destruct (verify_estimate_size_accepts_and_resets
              (Scenario.get Scenario.reserved) 16 "MetaspaceObjs")
    as (b' & H1 & H2 & _).
  - lia.
  - vm_compute. discriminate.
  - exists b'. split; assumption.
Defined.

(** ** Shallow copies *)

Lemma allocate_aligned (b b' : ArchiveBuilder) (which : RegionId) (n p : Z) :
  region_ready (region b which) -> 0 <= n < 2 ^ 63 ->
  allocate b which n = Ok (b', p) ->
  p = DumpRegion._top (region b which)
  /\ b' = set_region b which
            (DumpRegion.set_top (region b which) (p + 8 * ((n + 7) / 8)))
  /\ p + 8 * ((n + 7) / 8) <= DumpRegion._end (region b which)
  /\ n <= 8 * ((n + 7) / 8) < n + 8.
Proof.
  intros (Ht0 & Ht8 & Hte & Hend) Hn H. unfold allocate in H. cbv zeta in H.
  change SharedSpaceObjectAlignment with 8 in H.
  destruct (align_up_8 n ltac:(lia) ltac:(lia)) as (En & _ & Hbn).
  rewrite En in *.
  destruct (DumpRegion._end (region b which)
            <? align_up (DumpRegion._top (region b which)) 8 + 8 * ((n + 7) / 8)) eqn:Hcmp;
    [ discriminate | ].
  apply Z.ltb_ge in Hcmp.
  assert (Hp : align_up (DumpRegion._top (region b which)) 8
               = DumpRegion._top (region b which)).
  { destruct (Z_lt_le_dec (DumpRegion._top (region b which) + 7) (2 ^ 64)) as [Hlt | Hge].
    - apply align_up_8_aligned; assumption.
    - exfalso.
      pose proof (Z.div_mod (DumpRegion._top (region b which)) 8 ltac:(lia)). lia. }
  rewrite Hp in *. injection H as <- <-. repeat split; try assumption; lia.
Qed.

Section CopyFacts.

Context (vm : VM).

Lemma region_set_region (b : ArchiveBuilder) (which : RegionId) (r : DumpRegion.t) :
  region (set_region b which r) which = r.
Proof. destruct b, which; reflexivity. Qed.

Lemma region_set_region_ne (b : ArchiveBuilder) (which other : RegionId) (r : DumpRegion.t) :
  other <> which -> region (set_region b which r) other = region b other.
Proof. destruct b, which, other; intros H; try reflexivity; contradiction. Qed.

Lemma make_shallow_copy_inv (b b' : ArchiveBuilder) (which : RegionId) (key : Z)
      (info : SourceObjInfo.t) :
  _src_obj_table b !! key = Some info ->
  0 <= SourceObjInfo._size_in_bytes info < 2 ^ 31 ->
  region_ready (region b which) ->
  make_shallow_copy vm b which key = Ok b' ->
  let src := SourceObjInfo._source_addr info in
  let bytes := SourceObjInfo._size_in_bytes info in
  let dest := DumpRegion._top (region b which) + prefix_bytes vm info in
  let vtable := get_archived_vtable vm (SourceObjInfo._msotype info) dest in
  let copied := memcpy_from_source vm (buffer b) dest src bytes in
  region b' which = DumpRegion.set_top (region b which) (dest + 8 * ((bytes + 7) / 8))
  /\ dest + 8 * ((bytes + 7) / 8) <= DumpRegion._end (region b which)
  /\ (forall other, other <> which -> region b' other = region b other)
  /\ _src_obj_table b'
     = <[key := SourceObjInfo.set_buffered_addr info dest]> (_src_obj_table b)
  /\ _buffered_to_src_table b !! dest = None
  /\ _buffered_to_src_table b' = <[dest := src]> (_buffered_to_src_table b)
  /\ buffer b' = (if vtable =? 0 then copied else store copied dest vtable)
  /\ _ptrmap b'
     = (if vtable =? 0 then _ptrmap b else _ptrmap (ArchivePtrMarker.mark_pointer b dest))
  /\ _rw_src_objs b' = _rw_src_objs b /\ _ro_src_objs b' = _ro_src_objs b
  /\ _buffer_bottom b' = _buffer_bottom b
  /\ _current_dump_space b' = _current_dump_space b.
Proof.
  intros Hinfo Hsize Hready H src bytes dest vtable copied.
  unfold make_shallow_copy in H. rewrite (lookup_total_correct _ _ _ Hinfo) in H.
  inv_bind H. rename a into b1.
  assert (Hb1 : b1 = set_region b which
                       (DumpRegion.set_top (region b which) dest)
                /\ dest <= DumpRegion._end (region b which)
                /\ (prefix_bytes vm info = 0 \/ prefix_bytes vm info = 8)).
  { subst dest. unfold prefix_bytes.
    destruct (msotype_eqb (SourceObjInfo._msotype info) ClassType).
    - destruct (klass_kind vm (SourceObjInfo._source_addr info)).
      + inv_bind Ha. destruct a as [b2 p]. injection Ha as <-.
        apply allocate_aligned in Ha0; [ | exact Hready | unfold sizeof_address; lia ].
        destruct Ha0 as (-> & -> & Hle & _).
        unfold sizeof_address in *. change (8 * ((8 + 7) / 8)) with 8 in *.
        split; [ reflexivity | ]. split; [ exact Hle | right; reflexivity ].
      + injection Ha as <-. rewrite Z.add_0_r. destruct Hready as (? & ? & ? & ?).
        split; [ destruct_builder b; reflexivity | ].
        split; [ assumption | left; reflexivity ].
      + injection Ha as <-. rewrite Z.add_0_r. destruct Hready as (? & ? & ? & ?).
        split; [ destruct_builder b; reflexivity | ].
        split; [ assumption | left; reflexivity ].
    - injection Ha as <-. rewrite Z.add_0_r. destruct Hready as (? & ? & ? & ?).
      split; [ destruct_builder b; reflexivity | ].
      split; [ assumption | left; reflexivity ]. }
  destruct Hb1 as (Eb1 & Hdest & Hpad).
  assert (Hready1 : region_ready (region b1 which)).
  { rewrite Eb1, region_set_region. destruct Hready as (H0 & H8 & Hte & He).
    unfold region_ready. simpl. subst dest.
    repeat split; try lia.
    destruct Hpad as [-> | ->]; [ rewrite Z.add_0_r; exact H8 | ].
    rewrite <- Zplus_mod_idemp_l, H8. reflexivity. }
  inv_bind H. destruct a as [b2 p].
  rewrite (wrap_small (SourceObjInfo._size_in_bytes info)) in Ha0 by lia.
  apply allocate_aligned in Ha0; [ | exact Hready1 | lia ].
  destruct Ha0 as (Ep & Eb2 & Hle & _).
  rewrite Eb1, region_set_region in Ep, Hle. simpl in Ep, Hle. subst p.
  fold src bytes in H, Eb2, Hle |- *.
  destruct (_buffered_to_src_table
              (set_buffer b2 (memcpy_from_source vm (buffer b2) dest src bytes)) !! dest)
    as [old | ] eqn:Hold.
  { rewrite (put_if_absent_present _ _ _ old Hold) in H. discriminate. }
  rewrite put_if_absent_absent in H by exact Hold.
  simpl in H. fold vtable in H. injection H as <-.
  rewrite Eb2, Eb1 in Hold |- *. rewrite region_set_region in *.
  clear Eb1 Eb2 Hready1.
  destruct (vtable =? 0) eqn:Hv; simpl;
    destruct b, which; simpl in *;
      (repeat split; try assumption; try reflexivity;
       try (intros other Ho; destruct other; [ try contradiction | try contradiction ];
            reflexivity)).
Qed.

End CopyFacts.

Lemma stores_frame {I : Type} (A V : I -> Z) (l : list I) :
  forall (m : gmap Z Z) (a : Z),
    (forall i, i ∈ l -> a <> A i) ->
    load (fold_left (fun m i => store m (A i) (V i)) l m) a = load m a.
Proof.
  induction l as [ | j rest IH]; intros m a Hne; [ reflexivity | ].
  simpl. rewrite IH by (intros i Hi; apply Hne; right; exact Hi).
  apply load_store_ne. intros E. apply (Hne j); [ left | symmetry; exact E ].
Qed.

Lemma stores_hit {I : Type} (A V : I -> Z) (l : list I) :
  forall (m : gmap Z Z) (i : I),
    NoDup l -> (forall j k, j ∈ l -> k ∈ l -> A j = A k -> j = k) -> i ∈ l ->
    load (fold_left (fun m i => store m (A i) (V i)) l m) (A i) = V i.
Proof.
  induction l as [ | j rest IH]; intros m i Hnd Hinj Hi; [ inversion Hi | ].
  apply NoDup_cons in Hnd. destruct Hnd as (Hj & Hnd). simpl.
  apply elem_of_cons in Hi. destruct Hi as [-> | Hi].
  - rewrite stores_frame.
    + apply load_store_eq.
    + intros k Hk E. apply Hj. rewrite (Hinj j k); [ exact Hk | left | right; exact Hk | exact E ].
  - apply IH; [ exact Hnd | | exact Hi ].
    intros a c Ha Hc. apply Hinj; right; assumption.
Qed.

Lemma memcpy_from_source_words (vm : VM) (m : gmap Z Z) (dest src bytes : Z) :
  0 <= bytes < 2 ^ 63 ->
  (forall i, 0 <= i < bytes / 8 ->
     load (memcpy_from_source vm m dest src bytes) (wrap (dest + 8 * i))
     = source_word vm (wrap (src + 8 * i)))
  /\ (forall a, (forall i, 0 <= i < bytes / 8 -> a <> wrap (dest + 8 * i)) ->
        load (memcpy_from_source vm m dest src bytes) a = load m a).
Proof.
  intros Hb. unfold memcpy_from_source.
  assert (Hdiv : bytes / 8 < 2 ^ 60).
  { apply Z.div_lt_upper_bound; lia. }
  split.
  - intros i Hi.
    apply (stores_hit (fun i => wrap (dest + 8 * i))
                      (fun i => source_word vm (wrap (src + 8 * i)))).
    + apply range_NoDup.
    + intros j k Hj Hk E. apply elem_of_range in Hj, Hk.
      apply wrap_add_inj in E; lia.
    + apply elem_of_range. lia.
  - intros a Ha.
    apply (stores_frame (fun i => wrap (dest + 8 * i))
                        (fun i => source_word vm (wrap (src + 8 * i)))).
    intros i Hi. apply elem_of_range in Hi. apply Ha. lia.
Qed.

Lemma mark_pointer_marks (b : ArchiveBuilder) (ptr_loc : Z) :
  BitMap.at_ (_ptrmap (ArchivePtrMarker.mark_pointer b ptr_loc))
             (wrap (ptr_loc - _buffer_bottom b) / sizeof_address) = true.
Proof.
  unfold ArchivePtrMarker.mark_pointer, BitMap.at_. destruct b. simpl.
  apply Z.setbit_eq. apply Z.div_pos; [ apply wrap_range | unfold sizeof_address; lia ].
Qed.

Lemma make_shallow_copy_frame_below
      (vm : VM) (b b' : ArchiveBuilder) (which : RegionId) (key : Z)
      (info : SourceObjInfo.t) :
  _src_obj_table b !! key = Some info ->
  0 <= SourceObjInfo._size_in_bytes info < 2 ^ 31 ->
  region_ready (region b which) ->
  make_shallow_copy vm b which key = Ok b' ->
  forall a, a < DumpRegion._top (region b which) + prefix_bytes vm info ->
            load (buffer b') a = load (buffer b) a.
Proof.
  intros Hinfo Hsize Hready H a Ha.
  destruct (make_shallow_copy_inv vm _ _ _ _ _ Hinfo Hsize Hready H)
    as (_ & Hle & _ & _ & _ & _ & Hbuf & _).
  destruct Hready as (Ht0 & Ht8 & Hte & Hend).
  assert (Hpad : 0 <= prefix_bytes vm info).
  { unfold prefix_bytes. destruct (msotype_eqb _ _); [ | lia ].
    destruct (klass_kind vm _); lia. }
  set (dest := DumpRegion._top (region b which) + prefix_bytes vm info) in *.
  set (bytes := SourceObjInfo._size_in_bytes info) in *.
  assert (Hwords : forall i, 0 <= i < bytes / 8 -> 0 <= dest + 8 * i < 2 ^ 64).
  { intros i Hi. pose proof (Z.div_mod bytes 8 ltac:(lia)).
    pose proof (Z.mod_pos_bound bytes 8 ltac:(lia)).
    pose proof (Z.div_mod (bytes + 7) 8 ltac:(lia)).
    pose proof (Z.mod_pos_bound (bytes + 7) 8 ltac:(lia)). lia. }
  destruct (memcpy_from_source_words vm (buffer b) dest
              (SourceObjInfo._source_addr info) bytes ltac:(lia)) as (_ & Hframe).
  rewrite Hbuf.
  assert (Hfr : load (memcpy_from_source vm (buffer b) dest
                        (SourceObjInfo._source_addr info) bytes) a = load (buffer b) a).
  { apply Hframe. intros i Hi. rewrite wrap_small by (apply Hwords; exact Hi). lia. }
  destruct (_ =? 0); [ exact Hfr | ].
  rewrite load_store_ne by lia. exact Hfr.
Qed.

(** X17. [make_shallow_copy] of an object of the table, in a region whose
    top is word-aligned: the copy is placed at the top of the region, after
    one more word if the object is an [InstanceKlass]; its address is
    word-aligned, the object fits between it and the new top, which stays
    within the reserved end; the table resolves the object to that address
    and the reverse table maps the address back to the source; every word of
    the copy holds the word of the source at the same offset, except that the
    first word holds the archived vtable, if there is one, and is then marked
    in the marker's bitmap; no byte of the buffer below the copy changes, and
    no other entry of the table. *)
Theorem make_shallow_copy_copies_the_object
        (vm : VM) (b b' : ArchiveBuilder) (which : RegionId) (key : Z)
        (info : SourceObjInfo.t) :
  let src := SourceObjInfo._source_addr info in
  let bytes := SourceObjInfo._size_in_bytes info in
  let dest := DumpRegion._top (region b which) + prefix_bytes vm info in
  let vtable := get_archived_vtable vm (SourceObjInfo._msotype info) dest in
  _src_obj_table b !! key = Some info ->
  0 <= bytes < 2 ^ 31 ->
  region_ready (region b which) ->
  make_shallow_copy vm b which key = Ok b' ->
  get_buffered_addr b' key = Ok dest
  /\ _buffered_to_src_table b' !! dest = Some src
  /\ dest mod 8 = 0
  /\ dest + bytes <= DumpRegion._top (region b' which)
  /\ DumpRegion._top (region b' which) <= DumpRegion._end (region b which)
  /\ (forall i, 0 <= i < bytes / 8 -> (i = 0 -> vtable = 0) ->
        load (buffer b') (dest + 8 * i) = source_word vm (wrap (src + 8 * i)))
  /\ (vtable <> 0 ->
      load (buffer b') dest = vtable
      /\ BitMap.at_ (_ptrmap b') (wrap (dest - _buffer_bottom b) / sizeof_address) = true)
  /\ (forall a, a < dest -> load (buffer b') a = load (buffer b) a)
  /\ (forall k, k <> key -> _src_obj_table b' !! k = _src_obj_table b !! k).
Proof.
  intros src bytes dest vtable Hinfo Hsize Hready H.
  destruct (make_shallow_copy_inv vm _ _ _ _ _ Hinfo Hsize Hready H)
    as (Hreg & Hle & _ & Htbl & Hfresh & Hb2s & Hbuf & Hmap & _ & _ & Hbot & _).
  fold src bytes dest vtable in Hreg, Hle, Htbl, Hfresh, Hb2s, Hbuf, Hmap.
  destruct Hready as (Ht0 & Ht8 & Hte & Hend).
  assert (Hpad : prefix_bytes vm info = 0 \/ prefix_bytes vm info = 8).
  { unfold prefix_bytes. destruct (msotype_eqb _ _); [ | left; reflexivity ].
    destruct (klass_kind vm _); auto. }
  assert (Hup : bytes <= 8 * ((bytes + 7) / 8)).
  { pose proof (Z.div_mod (bytes + 7) 8 ltac:(lia)).
    pose proof (Z.mod_pos_bound (bytes + 7) 8 ltac:(lia)). lia. }
  assert (Hd0 : 0 <= dest) by (subst dest; lia).
  assert (Hwords : forall i, 0 <= i < bytes / 8 -> 0 <= dest + 8 * i < 2 ^ 64).
  { intros i Hi. pose proof (Z.div_mod bytes 8 ltac:(lia)).
    pose proof (Z.mod_pos_bound bytes 8 ltac:(lia)). lia. }
  destruct (memcpy_from_source_words vm (buffer b) dest src bytes ltac:(lia))
    as (Hhit & Hframe).
  split; [ unfold get_buffered_addr; rewrite Htbl, lookup_insert_eq; reflexivity | ].
  split; [ rewrite Hb2s; apply lookup_insert_eq | ].
  split.
  { subst dest. destruct Hpad as [-> | ->]; [ rewrite Z.add_0_r; exact Ht8 | ].
    rewrite <- Zplus_mod_idemp_l, Ht8. reflexivity. }
  split; [ rewrite Hreg; simpl; lia | ].
  split; [ rewrite Hreg; simpl; lia | ].
  split.
  { intros i Hi Hv. rewrite Hbuf.
    rewrite <- (wrap_small (dest + 8 * i)) by (apply Hwords; exact Hi).
    destruct (vtable =? 0) eqn:Ev; [ apply Hhit; exact Hi | ].
    apply Z.eqb_neq in Ev.
    rewrite load_store_ne; [ apply Hhit; exact Hi | ].
    rewrite wrap_small by (apply Hwords; exact Hi). intros E.
    apply Ev, Hv. lia. }
  split.
  { intros Hv. apply Z.eqb_neq in Hv. rewrite Hbuf, Hmap, Hv.
    split; [ apply load_store_eq | apply mark_pointer_marks ]. }
  split; [ exact (make_shallow_copy_frame_below vm _ _ _ _ _ Hinfo Hsize
                    (conj Ht0 (conj Ht8 (conj Hte Hend))) H) | ].
  intros k Hk. rewrite Htbl. apply lookup_insert_ne. congruence.
Qed.

Lemma make_shallow_copy_copies_the_object_witness :
  get_buffered_addr
    (Scenario.get (make_shallow_copy Scenario.vm (Scenario.get Scenario.gathered) rw 0x1000))
    0x1000
  = Ok 0x7f0000000010.
Proof.
  refine (proj1
    (make_shallow_copy_copies_the_object Scenario.vm (Scenario.get Scenario.gathered)
       (Scenario.get (make_shallow_copy Scenario.vm (Scenario.get Scenario.gathered) rw 0x1000))
       rw 0x1000 (SourceObjInfo.mk 0 2 false make_a_copy 16 OtherType 0x1000 0) _ _ _ _)).
  - vm_compute. reflexivity.
  - simpl; lia.
  - vm_compute. repeat split; discriminate.
  - vm_compute. reflexivity.
Defined.

Section CopiesFacts.

Context (vm : VM) (which : RegionId).

Let step := fun (r : result ArchiveBuilder) (src_info : Z) =>
              b ← r; make_shallow_copy vm b which src_info.

Lemma copies_fatal (keys : list Z) (f : failure) : foldl step (Fatal f) keys = Fatal f.
Proof. induction keys as [ | k rest IH]; [ reflexivity | exact IH ]. Qed.

Lemma copies_inv (keys : list Z) :
  forall b b' : ArchiveBuilder,
    NoDup keys ->
    (forall k, k ∈ keys ->
       exists e, _src_obj_table b !! k = Some e
                 /\ 0 <= SourceObjInfo._size_in_bytes e < 2 ^ 31) ->
    region_ready (region b which) ->
    foldl step (Ok b) keys = Ok b' ->
    region_ready (region b' which)
    /\ DumpRegion._top (region b which) <= DumpRegion._top (region b' which)
    /\ DumpRegion._end (region b' which) = DumpRegion._end (region b which)
    /\ (forall other, other <> which -> region b' other = region b other)
    /\ (forall k, k ∉ keys -> _src_obj_table b' !! k = _src_obj_table b !! k)
    /\ (forall k, k ∈ keys ->
          exists e dest,
            _src_obj_table b !! k = Some e
            /\ _src_obj_table b' !! k = Some (SourceObjInfo.set_buffered_addr e dest)
            /\ DumpRegion._top (region b which) <= dest
            /\ dest + SourceObjInfo._size_in_bytes e <= DumpRegion._top (region b' which)
            /\ dest mod 8 = 0
            /\ _buffered_to_src_table b' !! dest = Some (SourceObjInfo._source_addr e))
    /\ StronglySorted (copied_before b') keys
    /\ (forall d s, _buffered_to_src_table b !! d = Some s ->
                    _buffered_to_src_table b' !! d = Some s)
    /\ _rw_src_objs b' = _rw_src_objs b /\ _ro_src_objs b' = _ro_src_objs b
    /\ _buffer_bottom b' = _buffer_bottom b
    /\ _current_dump_space b' = _current_dump_space b
    /\ (forall a, a < DumpRegion._top (region b which) ->
                  load (buffer b') a = load (buffer b) a).
Proof.
  induction keys as [ | k rest IH]; intros b b' Hnd Hin Hready H.
  - injection H as <-.
    split; [ exact Hready | ]. split; [ lia | ]. split; [ reflexivity | ].
    split; [ reflexivity | ]. split; [ reflexivity | ].
    split; [ intros k Hk; inversion Hk | ].
    split; [ constructor | ]. repeat split; auto.
  - apply NoDup_cons in Hnd. destruct Hnd as (Hk & Hnd).
    change (foldl step (make_shallow_copy vm b which k) rest = Ok b') in H.
    destruct (make_shallow_copy vm b which k) as [b1 | f] eqn:Hcopy;
      [ | rewrite copies_fatal in H; discriminate ].
    destruct (Hin k ltac:(left)) as (e & He & Hsize).
    pose proof (make_shallow_copy_frame_below vm _ _ _ _ _ He Hsize Hready Hcopy) as Hbelow.
    destruct (make_shallow_copy_inv vm _ _ _ _ _ He Hsize Hready Hcopy)
      as (Hreg & Hle & Hother & Htbl & Hfresh & Hb2s & _ & _ & Hrw & Hro & Hbot & Hcur).
    set (dest := DumpRegion._top (region b which) + prefix_bytes vm e) in *.
    assert (Hpad : prefix_bytes vm e = 0 \/ prefix_bytes vm e = 8).
    { unfold prefix_bytes. destruct (msotype_eqb _ _); [ | left; reflexivity ].
      destruct (klass_kind vm _); auto. }
    assert (Hup : SourceObjInfo._size_in_bytes e
                  <= 8 * ((SourceObjInfo._size_in_bytes e + 7) / 8)).
    { pose proof (Z.div_mod (SourceObjInfo._size_in_bytes e + 7) 8 ltac:(lia)).
      pose proof (Z.mod_pos_bound (SourceObjInfo._size_in_bytes e + 7) 8 ltac:(lia)). lia. }
    destruct Hready as (Ht0 & Ht8 & Hte & Hend).
    assert (Hdest8 : dest mod 8 = 0).
    { subst dest. destruct Hpad as [-> | ->]; [ rewrite Z.add_0_r; exact Ht8 | ].
      rewrite <- Zplus_mod_idemp_l, Ht8. reflexivity. }
    assert (Hready1 : region_ready (region b1 which)).
    { rewrite Hreg. unfold region_ready. simpl.
      split; [ lia | ]. split; [ | split; [ exact Hle | exact Hend ] ].
      rewrite Z.add_mod, Hdest8, Z.mul_comm, Z.mod_mul by lia. reflexivity. }
    assert (Hin1 : forall k0, k0 ∈ rest ->
               exists e0, _src_obj_table b1 !! k0 = Some e0
                          /\ 0 <= SourceObjInfo._size_in_bytes e0 < 2 ^ 31).
    { intros k0 Hk0. destruct (Hin k0 ltac:(right; exact Hk0)) as (e0 & He0 & Hs0).
      exists e0. split; [ | exact Hs0 ].
      rewrite Htbl, lookup_insert_ne; [ exact He0 | ]. intros ->. contradiction. }
    destruct (IH b1 b' Hnd Hin1 Hready1 H)
      as (Hready' & Htop' & Hend' & Hother' & Hout' & Hin' & Hsorted' & Hb2s' & Hrw' & Hro'
          & Hbot' & Hcur' & Hbelow').
    assert (Htop1 : DumpRegion._top (region b1 which)
                    = dest + 8 * ((SourceObjInfo._size_in_bytes e + 7) / 8)).
    { rewrite Hreg. reflexivity. }
    assert (Hkfinal : _src_obj_table b' !! k
                      = Some (SourceObjInfo.set_buffered_addr e dest)).
    { rewrite (Hout' k Hk), Htbl. apply lookup_insert_eq. }
    split; [ exact Hready' | ]. split; [ lia | ].
    split; [ rewrite Hend', Hreg; reflexivity | ].
    split; [ intros other Ho; rewrite (Hother' other Ho); exact (Hother other Ho) | ].
    split.
    { intros k0 Hk0. apply not_elem_of_cons in Hk0. destruct Hk0 as (Hne & Hk0).
      rewrite (Hout' k0 Hk0), Htbl. apply lookup_insert_ne. congruence. }
    split.
    { intros k0 Hk0. apply elem_of_cons in Hk0. destruct Hk0 as [-> | Hk0].
      - exists e, dest. split; [ exact He | ]. split; [ exact Hkfinal | ].
        split; [ lia | ]. split; [ lia | ]. split; [ exact Hdest8 | ].
        apply Hb2s'. rewrite Hb2s. apply lookup_insert_eq.
      - destruct (Hin' k0 Hk0) as (e0 & d0 & He0 & He0' & Hd1 & Hd2 & Hd3 & Hd4).
        assert (k0 <> k) by (intros ->; contradiction).
        rewrite Htbl, lookup_insert_ne in He0 by congruence.
        exists e0, d0. repeat split; try assumption; lia. }
    split.
    { constructor; [ exact Hsorted' | ].
      apply Forall_forall. intros k0 Hk0.
      destruct (Hin' k0 Hk0) as (e0 & d0 & He0 & He0' & Hd1 & _).
      exists (SourceObjInfo.set_buffered_addr e dest), (SourceObjInfo.set_buffered_addr e0 d0).
      split; [ exact Hkfinal | ]. split; [ exact He0' | ]. simpl. lia. }
    split.
    { intros d s Hd. apply Hb2s'. rewrite Hb2s.
      rewrite lookup_insert_ne; [ exact Hd | ]. intros ->. congruence. }
    split; [ congruence | ]. split; [ congruence | ].
    split; [ congruence | ]. split; [ congruence | ].
    intros a Ha. rewrite Hbelow' by lia. apply Hbelow. lia.
Qed.

End CopiesFacts.

Lemma make_shallow_copies_inv (vm : VM) (which : RegionId) (b b' : ArchiveBuilder)
      (read_only : bool) :
  let keys := SourceObjList._objs (src_objs b read_only) in
  NoDup keys ->
  (forall k, k ∈ keys ->
     exists e, _src_obj_table b !! k = Some e
               /\ 0 <= SourceObjInfo._size_in_bytes e < 2 ^ 31) ->
  region_ready (region b which) ->
  make_shallow_copies vm b which read_only = Ok b' ->
  region_ready (region b' which)
  /\ DumpRegion._top (region b which) <= DumpRegion._top (region b' which)
  /\ DumpRegion._end (region b' which) = DumpRegion._end (region b which)
  /\ (forall other, other <> which -> region b' other = region b other)
  /\ (forall k, k ∉ keys -> _src_obj_table b' !! k = _src_obj_table b !! k)
  /\ (forall k, k ∈ keys ->
        exists e dest,
          _src_obj_table b !! k = Some e
          /\ _src_obj_table b' !! k = Some (SourceObjInfo.set_buffered_addr e dest)
          /\ DumpRegion._top (region b which) <= dest
          /\ dest + SourceObjInfo._size_in_bytes e <= DumpRegion._top (region b' which)
          /\ dest mod 8 = 0
          /\ _buffered_to_src_table b' !! dest = Some (SourceObjInfo._source_addr e))
  /\ StronglySorted (copied_before b') keys
  /\ (forall d s, _buffered_to_src_table b !! d = Some s ->
                  _buffered_to_src_table b' !! d = Some s)
  /\ _rw_src_objs b' = _rw_src_objs b /\ _ro_src_objs b' = _ro_src_objs b
  /\ _buffer_bottom b' = _buffer_bottom b
  /\ _current_dump_space b' = _current_dump_space b
  /\ (forall a, a < DumpRegion._top (region b which) ->
                load (buffer b') a = load (buffer b) a).
Proof.
  intros keys Hnd Hin Hready H. exact (copies_inv vm which keys b b' Hnd Hin Hready H).
Qed.

(** X18. [make_shallow_copies] lays the objects of a list out in the
    order of the list: each copy ends at or before the start of every later
    one, so no two copies overlap; every copy is word-aligned and lies
    between the top of the region before the pass and its top after it,
    which stays within the reserved end; entries of objects that are not in
    the list, the bytes of the buffer below the old top and the other region
    are untouched. *)
Theorem make_shallow_copies_lays_the_objects_out_in_list_order
        (vm : VM) (b b' : ArchiveBuilder) (which : RegionId) (read_only : bool) :
  let objs := SourceObjList._objs (src_objs b read_only) in
  NoDup objs ->
  (forall k, k ∈ objs ->
     exists e, _src_obj_table b !! k = Some e
               /\ 0 <= SourceObjInfo._size_in_bytes e < 2 ^ 31) ->
  region_ready (region b which) ->
  make_shallow_copies vm b which read_only = Ok b' ->
  StronglySorted (copied_before b') objs
  /\ (forall k, k ∈ objs ->
        exists e',
          _src_obj_table b' !! k = Some e'
          /\ DumpRegion._top (region b which) <= SourceObjInfo._buffered_addr e'
          /\ SourceObjInfo._buffered_addr e' + SourceObjInfo._size_in_bytes e'
             <= DumpRegion._top (region b' which)
          /\ SourceObjInfo._buffered_addr e' mod 8 = 0)
  /\ DumpRegion._top (region b' which) <= DumpRegion._end (region b which)
  /\ (forall k, k ∉ objs -> _src_obj_table b' !! k = _src_obj_table b !! k)
  /\ (forall a, a < DumpRegion._top (region b which) ->
                load (buffer b') a = load (buffer b) a)
  /\ (forall other, other <> which -> region b' other = region b other).
Proof.
  intros objs Hnd Hin Hready H.
  destruct (make_shallow_copies_inv vm which b b' read_only Hnd Hin Hready H)
    as (Hready' & _ & Hend' & Hother' & Hout' & Hin' & Hsorted' & _ & _ & _ & _ & _ & Hbelow').
  split; [ exact Hsorted' | ]. split.
  { intros k Hk. destruct (Hin' k Hk) as (e & dest & _ & He' & H1 & H2 & H3 & _).
    exists (SourceObjInfo.set_buffered_addr e dest). simpl. auto. }
  split; [ destruct Hready' as (_ & _ & Hte & _); lia | ].
  auto.
Qed.

Lemma make_shallow_copies_lays_the_objects_out_in_list_order_witness :
  StronglySorted
    (copied_before
       (Scenario.get (make_shallow_copies Scenario.vm (Scenario.get Scenario.gathered)
                        rw false)))
    [0x1000; 0x2000].
Proof.
  refine (proj1
    (make_shallow_copies_lays_the_objects_out_in_list_order Scenario.vm
       (Scenario.get Scenario.gathered)
       (Scenario.get (make_shallow_copies Scenario.vm (Scenario.get Scenario.gathered)
                        rw false))
       rw false _ _ _ _)).
  - vm_compute. apply NoDup_cons.
    split; [ intros E; apply list_elem_of_singleton in E; discriminate | apply NoDup_singleton ].
  - intros k Hk. vm_compute in Hk.
    apply elem_of_cons in Hk. destruct Hk as [-> | Hk].
    + eexists. split; [ vm_compute; reflexivity | simpl; lia ].
    + apply list_elem_of_singleton in Hk. subst k.
      eexists. split; [ vm_compute; reflexivity | simpl; lia ].
  - vm_compute. repeat split; discriminate.
  - vm_compute. reflexivity.
Defined.

(** X19. After [make_shallow_copies] into the current region,
    [get_source_addr] inverts [get_buffered_addr] on every object of the
    list: the buffered address of the object lies in the buffer space, and
    its source address is the object. *)
Theorem get_source_addr_inverts_get_buffered_addr
        (vm : VM) (b b' : ArchiveBuilder) (read_only : bool) :
  let objs := SourceObjList._objs (src_objs b read_only) in
  NoDup objs ->
  (forall k, k ∈ objs ->
     k <> 0
     /\ exists e, _src_obj_table b !! k = Some e
                  /\ SourceObjInfo._source_addr e = k
                  /\ 0 < SourceObjInfo._size_in_bytes e < 2 ^ 31) ->
  region_ready (current_dump_space b) ->
  _buffer_bottom b <= DumpRegion._top (current_dump_space b) ->
  make_shallow_copies vm b (_current_dump_space b) read_only = Ok b' ->
  forall k, k ∈ objs ->
    exists dest,
      get_buffered_addr b' k = Ok dest
      /\ is_in_buffer_space b' dest = true
      /\ get_source_addr b' dest = Ok k.
Proof.
  intros objs Hnd Hin Hready Hbottom H k Hk.
  assert (Hin0 : forall k, k ∈ objs ->
            exists e, _src_obj_table b !! k = Some e
                      /\ 0 <= SourceObjInfo._size_in_bytes e < 2 ^ 31).
  { intros k0 Hk0. destruct (Hin k0 Hk0) as (_ & e & He & _ & Hs). exists e. split; [ exact He | lia ]. }
  destruct (make_shallow_copies_inv vm (_current_dump_space b) b b' read_only Hnd Hin0 Hready H)
    as (_ & _ & _ & _ & _ & Hin' & _ & _ & _ & _ & Hbot & Hcur & _).
  destruct (Hin' k Hk) as (e & dest & He & He' & H1 & H2 & _ & Hb2s).
  destruct (Hin k Hk) as (Hnz & e0 & He0 & Hsrc & Hsize).
  assert (e0 = e) by congruence. subst e0.
  assert (Hspace : is_in_buffer_space b' dest = true).
  { unfold is_in_buffer_space, buffer_bottom, buffer_top, current_dump_space.
    rewrite Hbot, Hcur. unfold current_dump_space in Hbottom.
    apply andb_true_iff. split; [ apply Z.leb_le | apply Z.ltb_lt ]; lia. }
  exists dest. split; [ unfold get_buffered_addr; rewrite He'; reflexivity | ].
  split; [ exact Hspace | ].
  unfold get_source_addr. rewrite Hspace, Hb2s, Hsrc. simpl.
  apply Z.eqb_neq in Hnz. rewrite Hnz. reflexivity.
Qed.

Lemma get_source_addr_inverts_get_buffered_addr_witness :
  exists dest,
    get_buffered_addr
      (Scenario.get (make_shallow_copies Scenario.vm (Scenario.get Scenario.gathered)
                       rw false)) 0x2000
    = Ok dest
    /\ is_in_buffer_space
         (Scenario.get (make_shallow_copies Scenario.vm (Scenario.get Scenario.gathered)
                          rw false)) dest = true
    /\ get_source_addr
         (Scenario.get (make_shallow_copies Scenario.vm (Scenario.get Scenario.gathered)
                          rw false)) dest
       = Ok 0x2000.
Proof.
  refine (get_source_addr_inverts_get_buffered_addr Scenario.vm
            (Scenario.get Scenario.gathered)
            (Scenario.get (make_shallow_copies Scenario.vm (Scenario.get Scenario.gathered)
                             rw false))
            false _ _ _ _ _ 0x2000 _).
  - vm_compute. apply NoDup_cons.
    split; [ intros E; apply list_elem_of_singleton in E; discriminate | apply NoDup_singleton ].
  - intros k Hk. vm_compute in Hk.
    apply elem_of_cons in Hk. destruct Hk as [-> | Hk].
    + split; [ discriminate | ].
      eexists. split; [ vm_compute; reflexivity | split; [ reflexivity | simpl; lia ] ].
    + apply list_elem_of_singleton in Hk. subst k. split; [ discriminate | ].
      eexists. split; [ vm_compute; reflexivity | split; [ reflexivity | simpl; lia ] ].
  - vm_compute. repeat split; discriminate.
  - vm_compute. discriminate.
  - vm_compute. reflexivity.
  - vm_compute. right. left.
Defined.

Lemma copied_before_mono (b b' : ArchiveBuilder) (k1 k2 : Z) :
  (forall k e, _src_obj_table b !! k = Some e -> _src_obj_table b' !! k = Some e) ->
  copied_before b k1 k2 -> copied_before b' k1 k2.
Proof.
  intros Hkeep (e1 & e2 & H1 & H2 & Hle). exists e1, e2. auto.
Qed.

Lemma copied_in_order_mono (b b' : ArchiveBuilder) (keys : list Z) :
  (forall k e, k ∈ keys ->
               _src_obj_table b !! k = Some e -> _src_obj_table b' !! k = Some e) ->
  StronglySorted (copied_before b) keys -> StronglySorted (copied_before b') keys.
Proof.
  induction keys as [ | k rest IH]; intros Hkeep Hs; [ constructor | ].
  apply StronglySorted_inv in Hs. destruct Hs as (Hs & Hall). constructor.
  - apply IH; [ | exact Hs ]. intros k0 e Hk0. apply Hkeep. right. exact Hk0.
  - rewrite Forall_forall in Hall |- *. intros k2 Hk2.
    destruct (Hall k2 Hk2) as (e1 & e2 & H1 & H2 & Hle). exists e1, e2.
    split; [ apply Hkeep; [ left | exact H1 ] | ].
    split; [ apply Hkeep; [ right; exact Hk2 | exact H2 ] | exact Hle ].
Qed.

Lemma record_regenerated_objects_keep_entries (pairs : list (Z * Z)) :
  forall b b' : ArchiveBuilder,
    foldl (fun r pair => b ← r; record_regenerated_object b (fst pair) (snd pair))
          (Ok b) pairs = Ok b' ->
    forall k e, _src_obj_table b !! k = Some e -> _src_obj_table b' !! k = Some e.
Proof.
  induction pairs as [ | [orig regen] rest IH]; intros b b' H k e He.
  - injection H as <-. exact He.
  - change (foldl (fun r pair => b ← r; record_regenerated_object b (fst pair) (snd pair))
                  (record_regenerated_object b orig regen) rest = Ok b') in H.
    destruct (record_regenerated_object b orig regen) as [b1 | f] eqn:Hone.
    + apply (IH b1 b' H). unfold record_regenerated_object in Hone.
      destruct (_src_obj_table b !! regen) as [p | ]; [ | discriminate ].
      destruct (_src_obj_table b !! orig) as [e0 | ] eqn:Ho.
      * rewrite (put_if_absent_present _ _ _ e0 Ho) in Hone. discriminate.
      * rewrite put_if_absent_absent in Hone by exact Ho. simpl in Hone.
        injection Hone as <-. simpl. rewrite lookup_insert_ne; [ exact He | ].
        intros ->. congruence.
    + exfalso. clear - H. induction rest as [ | j rest IH]; [ discriminate | exact (IH H) ].
Qed.

Lemma start_dump_space_ro (b : ArchiveBuilder) :
  _current_dump_space b = rw ->
  DumpRegion._top (region (start_dump_space b ro) ro) = DumpRegion._top (_rw_region b)
  /\ DumpRegion._end (region (start_dump_space b ro) ro) = DumpRegion._end (_rw_region b)
  /\ _src_obj_table (start_dump_space b ro) = _src_obj_table b
  /\ _rw_src_objs (start_dump_space b ro) = _rw_src_objs b
  /\ _ro_src_objs (start_dump_space b ro) = _ro_src_objs b.
Proof. destruct b. simpl. intros ->. repeat split. Qed.

Lemma dump_ro_metadata_inv (vm : VM) (b1 b2 : ArchiveBuilder) :
  dump_ro_metadata vm b1 = Ok b2 ->
  exists b3,
    make_shallow_copies vm (start_dump_space b1 ro) ro true = Ok b3
    /\ forall k e, _src_obj_table b3 !! k = Some e -> _src_obj_table b2 !! k = Some e.
Proof.
  unfold dump_ro_metadata. intros H. inv_bind H. exists a. split; [ exact Ha | ].
  exact (record_regenerated_objects_keep_entries _ _ _ H).
Qed.

(** X20. After [dump_rw_metadata] and [dump_ro_metadata], the copies of
    all listed objects are laid out in the order read-write objects first,
    then read-only objects, each list in its own order: each copy ends at or
    before the start of every later one, whatever regenerated objects are
    recorded at the end. *)
Theorem copies_of_the_two_regions_never_overlap
        (vm : VM) (b b1 b2 : ArchiveBuilder) :
  _current_dump_space b = rw ->
  NoDup (listed b) ->
  (forall k, k ∈ listed b ->
     exists e, _src_obj_table b !! k = Some e
               /\ 0 <= SourceObjInfo._size_in_bytes e < 2 ^ 31) ->
  region_ready (_rw_region b) ->
  dump_rw_metadata vm b = Ok b1 ->
  dump_ro_metadata vm b1 = Ok b2 ->
  StronglySorted (copied_before b2) (listed b).
Proof.
  intros Hcur Hnd Hin Hready Hrw Hro.
  set (rw_objs := SourceObjList._objs (_rw_src_objs b)) in *.
  set (ro_objs := SourceObjList._objs (_ro_src_objs b)) in *.
  assert (Hlisted : listed b = rw_objs ++ ro_objs) by reflexivity.
  rewrite Hlisted in *. clear Hlisted.
  apply NoDup_app in Hnd. destruct Hnd as (Hnd_rw & Hdisj & Hnd_ro).
  destruct (make_shallow_copies_inv vm rw b b1 false Hnd_rw
              ltac:(intros k Hk; apply Hin, elem_of_app; left; exact Hk) Hready Hrw)
    as (Hready1 & _ & _ & _ & Hout1 & Hin1 & Hsorted1 & _ & Hrwl1 & Hrol1 & _ & Hcur1 & _).
  destruct (dump_ro_metadata_inv vm b1 b2 Hro) as (b3 & Hcopy & Hkeep).
  destruct (start_dump_space_ro b1 ltac:(congruence)) as (Htop & Hend & Htbl & Hrwl & Hrol).
  assert (Hobjs : SourceObjList._objs (src_objs (start_dump_space b1 ro) true) = ro_objs).
  { unfold ro_objs. change (src_objs (start_dump_space b1 ro) true)
      with (_ro_src_objs (start_dump_space b1 ro)). rewrite Hrol, Hrol1. reflexivity. }
  assert (Hready2 : region_ready (region (start_dump_space b1 ro) ro)).
  { destruct Hready1 as (H0 & H8 & Hte & He).
    change (region b1 rw) with (_rw_region b1) in H0, H8, Hte, He.
    unfold region_ready. rewrite Htop, Hend. auto. }
  assert (Hin2 : forall k, k ∈ SourceObjList._objs (src_objs (start_dump_space b1 ro) true) ->
             exists e, _src_obj_table (start_dump_space b1 ro) !! k = Some e
                       /\ 0 <= SourceObjInfo._size_in_bytes e < 2 ^ 31).
  { intros k Hk. rewrite Hobjs in Hk.
    destruct (Hin k ltac:(apply elem_of_app; right; exact Hk)) as (e & He & Hs).
    exists e. split; [ | exact Hs ]. rewrite Htbl, Hout1; [ exact He | ].
    intros Hk'. exact (Hdisj k Hk' Hk). }
  destruct (make_shallow_copies_inv vm ro _ b3 true
              ltac:(rewrite Hobjs; exact Hnd_ro) Hin2 Hready2 Hcopy)
    as (_ & _ & _ & _ & Hout3 & Hin3 & Hsorted3 & _).
  rewrite Hobjs in Hout3, Hin3, Hsorted3.
  assert (Hkeep13 : forall k e, k ∈ rw_objs ->
                      _src_obj_table b1 !! k = Some e -> _src_obj_table b3 !! k = Some e).
  { intros k e Hk He. rewrite Hout3, Htbl; [ exact He | ].
    intros Hk'. exact (Hdisj k Hk Hk'). }
  apply StronglySorted_app_2.
  - intros k1 k2 Hk1 Hk2.
    destruct (Hin1 k1 Hk1) as (e1 & d1 & _ & He1 & _ & Hd1 & _).
    destruct (Hin3 k2 Hk2) as (e2 & d2 & _ & He2 & Hd2 & _).
    rewrite Htop in Hd2. change (region b1 rw) with (_rw_region b1) in Hd1.
    exists (SourceObjInfo.set_buffered_addr e1 d1), (SourceObjInfo.set_buffered_addr e2 d2).
    split; [ apply Hkeep, Hkeep13; assumption | ].
    split; [ apply Hkeep; exact He2 | ].
    change (d1 + SourceObjInfo._size_in_bytes e1 <= d2). lia.
  - apply (copied_in_order_mono b1); [ | exact Hsorted1 ].
    intros k e Hk He. apply Hkeep, Hkeep13; assumption.
  - apply (copied_in_order_mono b3); [ | exact Hsorted3 ].
    intros k e _ He. apply Hkeep. exact He.
Qed.

Lemma copies_of_the_two_regions_never_overlap_witness :
  StronglySorted
    (copied_before
       (Scenario.get
          (dump_ro_metadata Scenario.vm
             (Scenario.get (dump_rw_metadata Scenario.vm (Scenario.get Scenario.gathered))))))
    [0x1000; 0x2000; 0x3000].
Proof.
  refine (copies_of_the_two_regions_never_overlap Scenario.vm
            (Scenario.get Scenario.gathered)
            (Scenario.get (dump_rw_metadata Scenario.vm (Scenario.get Scenario.gathered)))
            (Scenario.get
               (dump_ro_metadata Scenario.vm
                  (Scenario.get (dump_rw_metadata Scenario.vm
                                   (Scenario.get Scenario.gathered)))))
            _ _ _ _ _ _).
  - reflexivity.
  - vm_compute. apply NoDup_cons. split.
    + intros E. apply elem_of_cons in E. destruct E as [E | E]; [ discriminate | ].
      apply list_elem_of_singleton in E. discriminate.
    + apply NoDup_cons.
      split; [ intros E; apply list_elem_of_singleton in E; discriminate
             | apply NoDup_singleton ].
  - intros k Hk. vm_compute in Hk.
    apply elem_of_cons in Hk. destruct Hk as [-> | Hk];
      [ eexists; split; [ vm_compute; reflexivity | simpl; lia ] | ].
    apply elem_of_cons in Hk. destruct Hk as [-> | Hk];
      [ eexists; split; [ vm_compute; reflexivity | simpl; lia ] | ].
    apply list_elem_of_singleton in Hk. subst k.
    eexists; split; [ vm_compute; reflexivity | simpl; lia ].
  - vm_compute. repeat split; discriminate.
  - vm_compute. reflexivity.
  - vm_compute. reflexivity.
Defined.

(** ** What the relocation passes leave alone *)

Lemma embedded_do_bit_frame (buffered_obj start_idx : Z) (b b1 : ArchiveBuilder)
      (bit_offset : Z) (continue : bool) :
  RelocateEmbeddedPointers_do_bit buffered_obj start_idx b bit_offset = Ok (b1, continue) ->
  continue = true /\ same_but_buffer_and_bitmap b b1.
Proof.
  unfold RelocateEmbeddedPointers_do_bit. intros H. inv_bind H. injection H as <- <-.
  split; [ reflexivity | ].
  unfold ArchivePtrMarker.set_and_mark_pointer, ArchivePtrMarker.mark_pointer.
  eapply same_but_buffer_and_bitmap_trans;
    [ apply same_but_buffer_and_bitmap_set_buffer | apply same_but_buffer_and_bitmap_set_ptrmap ].
Qed.

Lemma embedded_scan_frame (read_only : bool) (buffered_obj start_idx : Z) (indices : list Z) :
  forall (b b' : ArchiveBuilder) (continue : bool),
    iterate_over (fun b => SourceObjList._ptrmap (src_objs b read_only))
                 (RelocateEmbeddedPointers_do_bit buffered_obj start_idx) indices b
    = Ok (b', continue) ->
    same_but_buffer_and_bitmap b b'.
Proof.
  induction indices as [ | i rest IH]; intros b b' continue H.
  - injection H as <- _. apply same_but_buffer_and_bitmap_refl.
  - simpl in H.
    destruct (BitMap.at_ (SourceObjList._ptrmap (src_objs b read_only)) i).
    + inv_bind H. destruct a as [b1 c1].
      apply embedded_do_bit_frame in Ha. destruct Ha as (-> & Hb1).
      exact (same_but_buffer_and_bitmap_trans _ _ _ Hb1 (IH _ _ _ H)).
    + exact (IH _ _ _ H).
Qed.

Lemma relocate_frame (b b' : ArchiveBuilder) (read_only : bool) (i : nat) :
  relocate b read_only i = Ok b' -> same_but_buffer_and_bitmap b b'.
Proof.
  unfold relocate. intros H.
  destruct (SourceObjList._objs (src_objs b read_only) !! i) as [p | ]; [ | discriminate ].
  inv_bind H. inv_bind H. destruct a0 as [b1 c1]. injection H as <-.
  exact (embedded_scan_frame _ _ _ _ _ _ _ Ha0).
Qed.

Lemma relocate_all_frame (read_only : bool) (indices : list nat) :
  forall b b' : ArchiveBuilder,
    foldl (fun r i => b ← r; relocate b read_only i) (Ok b) indices = Ok b' ->
    same_but_buffer_and_bitmap b b'.
Proof.
  induction indices as [ | i rest IH]; intros b b' H.
  - injection H as <-. apply same_but_buffer_and_bitmap_refl.
  - change (foldl (fun r i => b ← r; relocate b read_only i)
                  (relocate b read_only i) rest = Ok b') in H.
    destruct (relocate b read_only i) as [b1 | f] eqn:Hone.
    + exact (same_but_buffer_and_bitmap_trans _ _ _ (relocate_frame _ _ _ _ Hone)
               (IH _ _ H)).
    + exfalso. clear - H. induction rest as [ | j rest IH]; [ discriminate | exact (IH H) ].
Qed.

(** X21. [relocate_metaspaceobj_embedded_pointers] writes words of the
    buffer and sets bits of the marker's bitmap, and changes nothing else of
    the builder: the table and the reverse table, the two lists with their
    pointer bitmaps and the two regions are as before, and so is what
    [get_buffered_addr] answers. *)
Theorem relocating_embedded_pointers_changes_only_buffer_and_bitmap
        (b b' : ArchiveBuilder) :
  relocate_metaspaceobj_embedded_pointers b = Ok b' ->
  same_but_buffer_and_bitmap b b'
  /\ _src_obj_table b' = _src_obj_table b
  /\ _buffered_to_src_table b' = _buffered_to_src_table b
  /\ _rw_src_objs b' = _rw_src_objs b /\ _ro_src_objs b' = _ro_src_objs b
  /\ _rw_region b' = _rw_region b /\ _ro_region b' = _ro_region b
  /\ (forall k, get_buffered_addr b' k = get_buffered_addr b k).
Proof.
  unfold relocate_metaspaceobj_embedded_pointers, relocate_embedded_pointers.
  intros H. inv_bind H. rename a into b1.
  apply relocate_all_frame in Ha, H.
  pose proof (same_but_buffer_and_bitmap_trans _ _ _ Ha H) as Hsame.
  destruct (same_but_buffer_and_bitmap_fields _ _ Hsame)
    as (Ht & Hb2s & Hrw & Hro & Hrwr & Hror & _).
  split; [ exact Hsame | ]. repeat split; try assumption.
  intros k. unfold get_buffered_addr. rewrite Ht. reflexivity.
Qed.

Lemma relocating_embedded_pointers_changes_only_buffer_and_bitmap_witness :
  _src_obj_table (Scenario.get Scenario.copied) = _src_obj_table Scenario.shallow_copied.
Proof.
  refine (proj1 (proj2
    (relocating_embedded_pointers_changes_only_buffer_and_bitmap
       Scenario.shallow_copied (Scenario.get Scenario.copied) _))).
  vm_compute. reflexivity.
Defined.

(** ** Offsets into the archive *)

(** X22. For an address inside the buffer, once the layout is final:
    [to_requested] moves it by the distance between the buffer and the
    requested bottom of the archive, into the requested span; and
    [buffer_to_offset] answers its distance from the bottom of the buffer
    plus the distance of the archive's requested bottom from the requested
    bottom of the static archive; in a static dump that is simply its
    distance from the bottom of the buffer. *)
Theorem buffer_to_offset_is_the_distance_from_the_static_bottom
        (STATIC_DUMP : bool) (b : ArchiveBuilder) (p : Z) :
  layout_finalized STATIC_DUMP b ->
  0 <= _requested_static_archive_bottom b <= requested_bottom STATIC_DUMP b ->
  is_in_buffer_space b p = true ->
  to_requested b p = p + (requested_bottom STATIC_DUMP b - buffer_bottom b)
  /\ is_in_requested_archive STATIC_DUMP b (to_requested b p) = true
  /\ buffer_to_offset b p
     = Ok (p - buffer_bottom b
           + (requested_bottom STATIC_DUMP b - _requested_static_archive_bottom b))
  /\ (STATIC_DUMP = true -> buffer_to_offset b p = Ok (p - buffer_bottom b)).
Proof.
  intros (Hb0 & Hbt & Ht & Hdelta & Hr0 & Hrt & Hrtop & _) Hstatic Hp.
  apply in_span in Hp.
  destruct (relocate_into_span p (buffer_bottom b) (buffer_top b)
              (requested_bottom STATIC_DUMP b) Hr0 ltac:(lia) Hp) as (Hmove & Hspan).
  assert (Hreq : to_requested b p = p + (requested_bottom STATIC_DUMP b - buffer_bottom b)).
  { unfold to_requested. rewrite Hdelta. exact Hmove. }
  assert (Hoff : buffer_to_offset b p
                 = Ok (p - buffer_bottom b
                       + (requested_bottom STATIC_DUMP b
                          - _requested_static_archive_bottom b))).
  { unfold buffer_to_offset. cbv zeta. rewrite Hreq.
    replace (_requested_static_archive_bottom b
             <=? p + (requested_bottom STATIC_DUMP b - buffer_bottom b)) with true
      by (symmetry; apply Z.leb_le; lia).
    simpl. f_equal. rewrite wrap_small by lia. lia. }
  split; [ exact Hreq | ]. split.
  { rewrite Hreq. unfold is_in_requested_archive. apply in_span. lia. }
  split; [ exact Hoff | ].
  intros ->. rewrite Hoff. simpl. f_equal. lia.
Qed.

Lemma buffer_to_offset_is_the_distance_from_the_static_bottom_witness :
  buffer_to_offset Scenario.packed 0x7f0000000020 = Ok 0x20.
Proof.
  refine (proj2 (proj2 (proj2
    (buffer_to_offset_is_the_distance_from_the_static_bottom true Scenario.packed
       0x7f0000000020 _ _ _))) eq_refl).
  - unfold layout_finalized; repeat split;
      try (vm_compute; first [ reflexivity | discriminate ]); intros; discriminate.
  - vm_compute. split; discriminate.
  - vm_compute. reflexivity.
Defined.

(** X23. In a dynamic dump, [any_to_offset] gives an address of the
    mapped static archive its distance from the mapped bottom, and an address
    of the buffer its offset from the requested bottom of the static archive;
    as the dynamic archive is requested above the static one, every offset of
    the first kind is below the size of the static archive and every offset
    of the second kind is at or above it: the offsets of the two archives
    never collide. *)
Theorem any_to_offset_tells_the_two_archives_apart
        (vm : VM) (b : ArchiveBuilder) (p q : Z) :
  DynamicDumpSharedSpaces vm = true ->
  layout_finalized false b ->
  _requested_static_archive_top b <= _requested_dynamic_archive_bottom b ->
  is_in_mapped_static_archive b p = true ->
  is_in_mapped_static_archive b q = false ->
  is_in_buffer_space b q = true ->
  any_to_offset vm b p = Ok (p - _mapped_static_archive_bottom b)
  /\ any_to_offset vm b q
     = Ok (q - buffer_bottom b
           + (_requested_dynamic_archive_bottom b - _requested_static_archive_bottom b))
  /\ p - _mapped_static_archive_bottom b
     < _mapped_static_archive_top b - _mapped_static_archive_bottom b
     <= q - buffer_bottom b
        + (_requested_dynamic_archive_bottom b - _requested_static_archive_bottom b).
Proof.
  intros Hdyn Hlayout Habove Hp Hq1 Hq2.
  pose proof Hlayout as (Hb0 & Hbt & Ht & Hdelta & Hr0 & Hrt & Hrtop & Hmapped).
  destruct (Hmapped eq_refl) as (Hm0 & Hmt & Hmtop & Hs0 & Hstop & Hstop64).
  simpl in Hdelta, Hr0, Hrt, Hrtop.
  pose proof Hp as Hp'. apply in_span in Hp'.
  pose proof Hq2 as Hq'. apply in_span in Hq'.
  destruct (relocate_into_span q (buffer_bottom b) (buffer_top b)
              (_requested_dynamic_archive_bottom b) Hr0 ltac:(lia) Hq') as (Hmove & Hspan).
  split; [ | split ].
  - unfold any_to_offset. rewrite Hp, Hdyn. simpl. f_equal. apply wrap_small. lia.
  - unfold any_to_offset. rewrite Hq1, Hq2. simpl. unfold buffer_to_offset, to_requested.
    rewrite Hdelta, Hmove.
    replace (_requested_static_archive_bottom b
             <=? q + (_requested_dynamic_archive_bottom b - buffer_bottom b)) with true
      by (symmetry; apply Z.leb_le; lia).
    simpl. f_equal. rewrite wrap_small by lia. lia.
  - lia.
Qed.

Lemma any_to_offset_tells_the_two_archives_apart_witness :
  any_to_offset DynamicScenario.vm DynamicScenario.relocated 0x7e0000000008 = Ok 8
  /\ any_to_offset DynamicScenario.vm DynamicScenario.relocated 0x7f0000000008
     = Ok (8 + 0x3000).
Proof.
  destruct (any_to_offset_tells_the_two_archives_apart DynamicScenario.vm
              DynamicScenario.relocated 0x7e0000000008 0x7f0000000008)
    as (H1 & H2 & _).
  - reflexivity.
  - unfold layout_finalized; repeat split;
      try (vm_compute; first [ reflexivity | discriminate ]).
  - vm_compute. discriminate.
  - vm_compute. reflexivity.
  - vm_compute. reflexivity.
  - vm_compute. reflexivity.
  - split; [ exact H1 | exact H2 ].
Defined.

(** X24. The whole-buffer relocation changes only words of the buffer
    and the marker's bitmap.  A word changes only if its bit was set and it
    held a non-null pointer: every other address of the buffer reads as
    before.  No bit is ever set by the pass: a bit set afterwards was set
    before. *)
Theorem whole_buffer_relocation_touches_only_marked_pointers
        (STATIC_DUMP : bool) (b : ArchiveBuilder) (c' : RelocateBufferToRequested.t) :
  BitMap.size (_ptrmap b) <= 2 ^ 60 ->
  RelocateBufferToRequested.doit STATIC_DUMP (RelocateBufferToRequested.new b) = Ok c' ->
  same_but_buffer_and_bitmap b (RelocateBufferToRequested._builder c')
  /\ (forall a,
        (forall k, 0 <= k < BitMap.size (_ptrmap b) ->
                   BitMap.at_ (_ptrmap b) k = true ->
                   load (buffer b) (word_location b k) <> 0 ->
                   a <> word_location b k) ->
        load (buffer (RelocateBufferToRequested._builder c')) a = load (buffer b) a)
  /\ (forall k, BitMap.at_ (_ptrmap (RelocateBufferToRequested._builder c')) k = true ->
                BitMap.at_ (_ptrmap b) k = true).
Proof.
  intros Hsize H. split; [ exact (doit_frame STATIC_DUMP b c' H) | ].
  unfold RelocateBufferToRequested.doit in H.
  inv_bind H. destruct a as [c1 continue]. injection H as <-. simpl in Ha.
  change (RelocateBufferToRequested.new b) with (closure_over b 0) in Ha.
  destruct (scan_spec STATIC_DUMP (BitMap.range 0 (BitMap.size (_ptrmap b)))
              b 0 c1 continue (range_ascending _ _)) as
      (b1 & m1 & -> & -> & Hbot & Hsz & Hout & Hin & Hframe & Hmax).
  { intros j k Hj Hk. apply elem_of_range in Hj, Hk. apply word_location_inj; lia. }
  { exact Ha. }
  simpl. split.
  - intros a Ha'.
    replace (buffer (ArchivePtrMarker.compact b1 m1)) with (buffer b1)
      by (destruct b1; reflexivity).
    apply Hframe. intros k Hk. apply elem_of_range in Hk. apply Ha'. lia.
  - intros k Hk.
    replace (_ptrmap (ArchivePtrMarker.compact b1 m1))
      with (BitMap.resize (_ptrmap b1) (wrap (m1 + 1))) in Hk
      by (destruct b1; reflexivity).
    rewrite at_resize in Hk. apply andb_true_iff in Hk. destruct Hk as (Hk & _).
    destruct (decide (k ∈ BitMap.range 0 (BitMap.size (_ptrmap b)))) as [Hr | Hr].
    + rewrite (Hin k Hr) in Hk. apply andb_true_iff in Hk. tauto.
    + rewrite (Hout k Hr) in Hk. exact Hk.
Qed.

Lemma whole_buffer_relocation_touches_only_marked_pointers_witness :
  same_but_buffer_and_bitmap Scenario.packed
    (RelocateBufferToRequested._builder Scenario.relocated_closure).
Proof.
  refine (proj1
    (whole_buffer_relocation_touches_only_marked_pointers true Scenario.packed
       Scenario.relocated_closure _ _)).
  - vm_compute. discriminate.
  - vm_compute. reflexivity.
Defined.

(** X25. [relocate_to_requested] fails the assertion "must be" when
    neither a static nor a dynamic dump is in progress.  When it succeeds,
    the requested top of the archive being written is its requested bottom
    plus the size of the buffer; the requested bottom, the requested top of
    the other archive, the bottom and the top of the buffer, the delta, the
    table and the lists are as before; the read-only region is packed and the
    read-write region untouched. *)
Theorem relocate_to_requested_sets_the_requested_top (vm : VM) (b : ArchiveBuilder) :
  (DumpSharedSpaces vm = false -> DynamicDumpSharedSpaces vm = false ->
   relocate_to_requested vm b = Fatal (AssertFailed "must be" []))
  /\ (forall b',
        relocate_to_requested vm b = Ok b' ->
        let STATIC_DUMP := DumpSharedSpaces vm in
        requested_top STATIC_DUMP b'
        = wrap (requested_bottom STATIC_DUMP b + wrap (buffer_top b - buffer_bottom b))
        /\ requested_bottom STATIC_DUMP b' = requested_bottom STATIC_DUMP b
        /\ requested_top (negb STATIC_DUMP) b' = requested_top (negb STATIC_DUMP) b
        /\ buffer_bottom b' = buffer_bottom b /\ buffer_top b' = buffer_top b
        /\ _rw_region b' = _rw_region b
        /\ _ro_region b' = DumpRegion.pack (_ro_region b)
        /\ buffer_to_requested_delta b' = buffer_to_requested_delta b
        /\ _src_obj_table b' = _src_obj_table b
        /\ _rw_src_objs b' = _rw_src_objs b /\ _ro_src_objs b' = _ro_src_objs b).
Proof.
  split.
  - intros Hs Hd. unfold relocate_to_requested. rewrite Hs, Hd. reflexivity.
  - intros b' H. unfold relocate_to_requested in H.
    set (b0 := set_ro_region b (DumpRegion.pack (_ro_region b))) in *.
    assert (Htop0 : buffer_top b0 = buffer_top b).
    { unfold buffer_top, current_dump_space. destruct_builder b; reflexivity. }
    assert (Hbot0 : buffer_bottom b0 = buffer_bottom b) by (destruct b; reflexivity).
    rewrite Htop0, Hbot0 in H.
    destruct (DumpSharedSpaces vm) eqn:Hs.
    + inv_bind H. injection H as <-.
      apply doit_frame in Ha. apply same_but_buffer_and_bitmap_fields in Ha.
      destruct Ha as (Ht & _ & Hrw & Hro & Hrwr & Hror & Hcur & Hbb & Hdelta & Hsb & Hst
                      & Hdb & Hdt & _).
      cbv zeta.
      unfold requested_top, requested_bottom, buffer_top, buffer_bottom,
        current_dump_space, region, buffer_to_requested_delta. cbn [negb].
      rewrite ?Ht, ?Hrw, ?Hro, ?Hrwr, ?Hror, ?Hcur, ?Hbb, ?Hdelta, ?Hsb, ?Hst, ?Hdt.
      unfold buffer_top, buffer_bottom, current_dump_space, region.
      subst b0. destruct_builder b; repeat split; reflexivity.
    + inv_bind H. inv_bind H. injection H as <-.
      apply doit_frame in Ha0. apply same_but_buffer_and_bitmap_fields in Ha0.
      destruct Ha0 as (Ht & _ & Hrw & Hro & Hrwr & Hror & Hcur & Hbb & Hdelta & Hsb & Hst
                       & Hdb & Hdt & _).
      cbv zeta.
      unfold requested_top, requested_bottom, buffer_top, buffer_bottom,
        current_dump_space, region, buffer_to_requested_delta. cbn [negb].
      rewrite ?Ht, ?Hrw, ?Hro, ?Hrwr, ?Hror, ?Hcur, ?Hbb, ?Hdelta, ?Hdb, ?Hst, ?Hdt.
      unfold buffer_top, buffer_bottom, current_dump_space, region.
      subst b0. destruct_builder b; repeat split; reflexivity.
Qed.

Lemma relocate_to_requested_sets_the_requested_top_witness :
  requested_top true (Scenario.get Scenario.relocated) = 0x800000000 + 0x30.
Proof.
  refine (proj1 (proj2
    (relocate_to_requested_sets_the_requested_top Scenario.vm (Scenario.get Scenario.copied))
    (Scenario.get Scenario.relocated) _)).
  vm_compute. reflexivity.
Defined.

(** ** Relocating the embedded pointers of a whole list *)

Lemma field_of_in_extent (b : ArchiveBuilder) (k j : Z) (e : SourceObjInfo.t) :
  _src_obj_table b !! k = Some e ->
  0 <= SourceObjInfo._ptrmap_start e ->
  8 * SourceObjInfo._ptrmap_end e
  = 8 * SourceObjInfo._ptrmap_start e + SourceObjInfo._size_in_bytes e ->
  0 <= SourceObjInfo._buffered_addr e ->
  SourceObjInfo._buffered_addr e + SourceObjInfo._size_in_bytes e < 2 ^ 64 ->
  SourceObjInfo._ptrmap_start e <= j < SourceObjInfo._ptrmap_end e ->
  field_of b k j = SourceObjInfo._buffered_addr e + 8 * (j - SourceObjInfo._ptrmap_start e)
  /\ SourceObjInfo._buffered_addr e <= field_of b k j
     < SourceObjInfo._buffered_addr e + SourceObjInfo._size_in_bytes e.
Proof.
  intros He Hs Hcover Hd Hfit Hj.
  unfold field_of, field_location. rewrite (lookup_total_correct _ _ _ He).
  unfold sizeof_address.
  rewrite (wrap_small (j - SourceObjInfo._ptrmap_start e)) by lia.
  rewrite (wrap_small ((j - SourceObjInfo._ptrmap_start e) * 8)) by lia.
  rewrite wrap_small by lia. lia.
Qed.

Lemma fields_of_copies_apart (b : ArchiveBuilder) (k1 k2 j1 j2 : Z) :
  copied_object b k1 -> copied_object b k2 ->
  copied_before b k1 k2 \/ copied_before b k2 k1 ->
  SourceObjInfo._ptrmap_start (_src_obj_table b !!! k1) <= j1
  < SourceObjInfo._ptrmap_end (_src_obj_table b !!! k1) ->
  SourceObjInfo._ptrmap_start (_src_obj_table b !!! k2) <= j2
  < SourceObjInfo._ptrmap_end (_src_obj_table b !!! k2) ->
  field_of b k1 j1 <> field_of b k2 j2.
Proof.
  intros (e1 & He1 & _ & (Hs1 & _) & Hc1 & Hd1 & Hf1) (e2 & He2 & _ & (Hs2 & _) & Hc2 & Hd2 & Hf2)
         Hbefore Hj1 Hj2.
  rewrite (lookup_total_correct _ _ _ He1) in Hj1.
  rewrite (lookup_total_correct _ _ _ He2) in Hj2.
  destruct (field_of_in_extent b k1 j1 e1 He1 Hs1 Hc1 Hd1 Hf1 Hj1) as (_ & Hx1).
  destruct (field_of_in_extent b k2 j2 e2 He2 Hs2 Hc2 Hd2 Hf2 Hj2) as (_ & Hx2).
  destruct Hbefore as [(a1 & a2 & Ha1 & Ha2 & Hle) | (a2 & a1 & Ha2 & Ha1 & Hle)];
    assert (a1 = e1) by congruence; assert (a2 = e2) by congruence; subst a1 a2; lia.
Qed.

Lemma sorted_either_way {A : Type} (R : A -> A -> Prop) (l : list A) (x y : A) :
  StronglySorted R l -> x ∈ l -> y ∈ l -> x <> y -> R x y \/ R y x.
Proof.
  intros Hs. induction Hs as [ | a rest Hs IH Hall]; intros Hx Hy Hne.
  - inversion Hx.
  - rewrite Forall_forall in Hall.
    apply elem_of_cons in Hx, Hy.
    destruct Hx as [-> | Hx], Hy as [-> | Hy]; auto; contradiction.
Qed.

Section RelocateAll.

Context (read_only : bool).

Lemma same_builder_same_fields (b b1 : ArchiveBuilder) :
  same_but_buffer_and_bitmap b b1 ->
  _src_obj_table b1 = _src_obj_table b
  /\ src_objs b1 read_only = src_objs b read_only
  /\ (forall k j, field_of b1 k j = field_of b k j)
  /\ (forall k j, marked_field b1 read_only k j <-> marked_field b read_only k j)
  /\ (forall k, copied_object b1 k <-> copied_object b k)
  /\ (forall k1 k2, copied_before b1 k1 k2 <-> copied_before b k1 k2).
Proof.
  intros Hsame. apply same_but_buffer_and_bitmap_fields in Hsame.
  destruct Hsame as (Ht & _ & Hrw & Hro & _).
  assert (Hl : src_objs b1 read_only = src_objs b read_only).
  { unfold src_objs. destruct read_only; assumption. }
  split; [ exact Ht | ]. split; [ exact Hl | ].
  unfold field_of, marked_field, copied_object, copied_before. rewrite Ht, Hl.
  split; [ reflexivity | ]. split; [ reflexivity | ]. split; reflexivity.
Qed.

Lemma relocate_one_ok (b : ArchiveBuilder) (i : nat) (k : Z) :
  SourceObjList._objs (src_objs b read_only) !! i = Some k ->
  copied_object b k ->
  (forall j, marked_field b read_only k j ->
             is_Some (_src_obj_table b !! load (buffer b) (field_of b k j))) ->
  exists b1,
    relocate b read_only i = Ok b1
    /\ same_but_buffer_and_bitmap b b1
    /\ (forall j, marked_field b read_only k j ->
          exists p, _src_obj_table b !! load (buffer b) (field_of b k j) = Some p
                    /\ load (buffer b1) (field_of b k j) = SourceObjInfo._buffered_addr p)
    /\ (forall a, (forall j, marked_field b read_only k j -> a <> field_of b k j) ->
          load (buffer b1) a = load (buffer b) a).
Proof.
  intros Hi (e & He & Hcopy & (Hs & Hse) & Hcover & Hd & Hfit) Hres.
  assert (Hinfo : _src_obj_table b !!! k = e) by (apply lookup_total_correct; exact He).
  unfold field_of, marked_field in Hres |- *. rewrite Hinfo in Hres |- *.
  set (start := SourceObjInfo._ptrmap_start e) in *.
  set (end_ := SourceObjInfo._ptrmap_end e) in *.
  destruct (relocate_fields_ok read_only (SourceObjInfo._buffered_addr e) start
              (BitMap.range start end_) b (range_NoDup _ _)) as
      (b1 & Hrun & _ & _ & _ & Hset & Hframe).
  { intros j1 j2 Hj1 Hj2 E. apply elem_of_range in Hj1, Hj2. cbv beta in E.
    destruct (field_of_in_extent b k j1 e He Hs Hcover Hd Hfit Hj1) as (E1 & _).
    destruct (field_of_in_extent b k j2 e He Hs Hcover Hd Hfit Hj2) as (E2 & _).
    unfold field_of in E1, E2. rewrite Hinfo in E1, E2. fold start in E1, E2.
    rewrite E1, E2 in E. lia. }
  { intros j Hj Hm. apply elem_of_range in Hj. apply Hres. split; assumption. }
  assert (Hrel : relocate b read_only i = Ok b1).
  { unfold relocate. rewrite Hi. cbv zeta. rewrite Hinfo, Hcopy. simpl.
    fold start end_. unfold iterate. rewrite Hrun. reflexivity. }
  exists b1. split; [ exact Hrel | ].
  split; [ exact (relocate_frame _ _ _ _ Hrel) | ]. split.
  - intros j (Hj & Hm). apply Hset; [ apply elem_of_range; exact Hj | exact Hm ].
  - intros a Ha. apply Hframe. intros j Hj Hm. apply elem_of_range in Hj.
    apply Ha. split; assumption.
Qed.

Lemma relocate_suffix_ok (ks : list Z) :
  forall (n : nat) (b : ArchiveBuilder),
    (forall i k, ks !! i = Some k ->
                 SourceObjList._objs (src_objs b read_only) !! (n + i)%nat = Some k) ->
    NoDup ks ->
    (forall k, k ∈ ks -> copied_object b k) ->
    (forall k1 k2, k1 ∈ ks -> k2 ∈ ks -> k1 <> k2 ->
                   copied_before b k1 k2 \/ copied_before b k2 k1) ->
    (forall k j, k ∈ ks -> marked_field b read_only k j ->
                 is_Some (_src_obj_table b !! load (buffer b) (field_of b k j))) ->
    exists b',
      foldl (fun r i => b ← r; relocate b read_only i) (Ok b) (seq n (length ks)) = Ok b'
      /\ same_but_buffer_and_bitmap b b'
      /\ (forall k j, k ∈ ks -> marked_field b read_only k j ->
            exists p, _src_obj_table b !! load (buffer b) (field_of b k j) = Some p
                      /\ load (buffer b') (field_of b k j) = SourceObjInfo._buffered_addr p)
      /\ (forall a, (forall k j, k ∈ ks -> marked_field b read_only k j ->
                                 a <> field_of b k j) ->
            load (buffer b') a = load (buffer b) a).
Proof.
  induction ks as [ | k rest IH]; intros n b Hkeys Hnd Hgood Hapart Hres.
  - exists b. split; [ reflexivity | ].
    split; [ apply same_but_buffer_and_bitmap_refl | ].
    split; [ intros k j Hk; inversion Hk | reflexivity ].
  - apply NoDup_cons in Hnd. destruct Hnd as (Hk & Hnd).
    assert (Hik : SourceObjList._objs (src_objs b read_only) !! n = Some k).
    { specialize (Hkeys 0%nat k eq_refl). rewrite Nat.add_0_r in Hkeys. exact Hkeys. }
    destruct (relocate_one_ok b n k Hik (Hgood k ltac:(left))
                (fun j Hm => Hres k j ltac:(left) Hm))
      as (b1 & Hrel & Hsame1 & Hset1 & Hframe1).
    destruct (same_builder_same_fields b b1 Hsame1)
      as (Ht1 & Hl1 & Hfield1 & Hmarked1 & Hgood1 & Hbefore1).
    assert (Huntouched : forall k' j, k' ∈ rest -> marked_field b read_only k' j ->
              load (buffer b1) (field_of b k' j) = load (buffer b) (field_of b k' j)).
    { intros k' j Hk' Hm. apply Hframe1. intros j0 Hm0.
      assert (Hne : k' <> k) by (intros ->; contradiction).
      apply (fields_of_copies_apart b k' k j j0).
      - apply Hgood. right. exact Hk'.
      - apply Hgood. left.
      - apply Hapart; [ right; exact Hk' | left | exact Hne ].
      - exact (proj1 Hm).
      - exact (proj1 Hm0). }
    destruct (IH (S n) b1) as (b' & Hrun & Hsame & Hset & Hframe).
    { intros i k' Hi. rewrite Hl1.
      replace (S n + i)%nat with (n + S i)%nat by lia. apply Hkeys. exact Hi. }
    { exact Hnd. }
    { intros k' Hk'. apply Hgood1, Hgood. right. exact Hk'. }
    { intros k1 k2 Hk1 Hk2 Hne.
      destruct (Hapart k1 k2 ltac:(right; exact Hk1) ltac:(right; exact Hk2) Hne);
        [ left | right ]; apply Hbefore1; assumption. }
    { intros k' j Hk' Hm. apply Hmarked1 in Hm.
      rewrite Ht1, Hfield1, (Huntouched k' j Hk' Hm).
      apply Hres; [ right; exact Hk' | exact Hm ]. }
    exists b'. split.
    { change (foldl (fun r i => b ← r; relocate b read_only i)
                    (relocate b read_only n) (seq (S n) (length rest)) = Ok b').
      rewrite Hrel. exact Hrun. }
    split; [ exact (same_but_buffer_and_bitmap_trans _ _ _ Hsame1 Hsame) | ].
    split.
    + intros k' j Hk' Hm. apply elem_of_cons in Hk'. destruct Hk' as [-> | Hk'].
      * destruct (Hset1 j Hm) as (p & Hp & Hload). exists p. split; [ exact Hp | ].
        rewrite <- Hload. apply Hframe. intros k2 j2 Hk2 Hm2.
        rewrite Hfield1. apply Hmarked1 in Hm2.
        assert (Hne : k <> k2) by (intros ->; contradiction).
        apply (fields_of_copies_apart b k k2 j j2).
        -- apply Hgood. left.
        -- apply Hgood. right. exact Hk2.
        -- apply Hapart; [ left | right; exact Hk2 | exact Hne ].
        -- exact (proj1 Hm).
        -- exact (proj1 Hm2).
      * destruct (Hset k' j Hk' ltac:(apply Hmarked1; exact Hm)) as (p & Hp & Hload).
        rewrite Ht1, Hfield1, (Huntouched k' j Hk' Hm) in Hp.
        rewrite Hfield1 in Hload. exists p. split; assumption.
    + intros a Ha. rewrite Hframe.
      * apply Hframe1. intros j Hm. apply Ha; [ left | exact Hm ].
      * intros k' j Hk' Hm. rewrite Hfield1. apply Hmarked1 in Hm.
        apply Ha; [ right; exact Hk' | exact Hm ].
Qed.

End RelocateAll.

(** X26. Relocating the embedded pointers of a whole list.  When the
    objects of the list are distinct, each has its entry and its interval of
    the pointer bitmap covering its words, their copies lie one after the
    other in the order of the list, and every marked field holds a source
    address the table has an entry for, then the run succeeds: every marked
    field of every object of the list holds afterwards the buffered address
    of the entry of the source address it held, every other word of the
    buffer is as before, and nothing but the buffer and the marker's bitmap
    changes in the builder. *)
Theorem relocate_embedded_pointers_resolves_every_marked_field
        (b : ArchiveBuilder) (read_only : bool) :
  let keys := SourceObjList._objs (src_objs b read_only) in
  NoDup keys ->
  (forall k, k ∈ keys -> copied_object b k) ->
  StronglySorted (copied_before b) keys ->
  (forall k j, k ∈ keys -> marked_field b read_only k j ->
               is_Some (_src_obj_table b !! load (buffer b) (field_of b k j))) ->
  exists b',
    relocate_embedded_pointers b read_only = Ok b'
    /\ same_but_buffer_and_bitmap b b'
    /\ (forall k j, k ∈ keys -> marked_field b read_only k j ->
          exists p, _src_obj_table b !! load (buffer b) (field_of b k j) = Some p
                    /\ load (buffer b') (field_of b k j) = SourceObjInfo._buffered_addr p)
    /\ (forall a, (forall k j, k ∈ keys -> marked_field b read_only k j ->
                               a <> field_of b k j) ->
          load (buffer b') a = load (buffer b) a).
Proof.
  intros keys Hnd Hgood Hsorted Hres.
  exact (relocate_suffix_ok read_only keys 0 b (fun i k Hi => Hi) Hnd Hgood
           (fun k1 k2 Hk1 Hk2 Hne => sorted_either_way _ _ _ _ Hsorted Hk1 Hk2 Hne) Hres).
Qed.

Lemma relocate_embedded_pointers_resolves_every_marked_field_witness :
  is_ok (relocate_embedded_pointers Scenario.shallow_copied false) = true.
Proof.
  assert (Hkeys : SourceObjList._objs (src_objs Scenario.shallow_copied false)
                  = [0x1000; 0x2000]) by (vm_compute; reflexivity).
  assert (HA : _src_obj_table Scenario.shallow_copied !! 0x1000
               = Some (SourceObjInfo.mk 0 2 false make_a_copy 16 OtherType 0x1000
                         0x7f0000000010)) by (vm_compute; reflexivity).
  assert (HB : _src_obj_table Scenario.shallow_copied !! 0x2000
               = Some (SourceObjInfo.mk 2 3 false make_a_copy 8 OtherType 0x2000
                         0x7f0000000020)) by (vm_compute; reflexivity).
  destruct (relocate_embedded_pointers_resolves_every_marked_field
              Scenario.shallow_copied false) as (b' & Hrun & _).
  - rewrite Hkeys. apply NoDup_cons.
    split; [ intros E; apply list_elem_of_singleton in E; discriminate
           | apply NoDup_singleton ].
  - rewrite Hkeys. intros k Hk. apply elem_of_cons in Hk.
    destruct Hk as [-> | Hk]; [ | apply list_elem_of_singleton in Hk; subst k ].
    + eexists. split; [ exact HA | ]. cbn. repeat split; try reflexivity; lia.
    + eexists. split; [ exact HB | ]. cbn. repeat split; try reflexivity; lia.
  - rewrite Hkeys. apply SSorted_cons; [ apply SSorted_cons; constructor | ].
    constructor; [ | constructor ].
    eexists. eexists. split; [ exact HA | ]. split; [ exact HB | ]. cbn. lia.
  - rewrite Hkeys. intros k j Hk (Hj & Hm). apply elem_of_cons in Hk.
    destruct Hk as [-> | Hk]; [ | apply list_elem_of_singleton in Hk; subst k ].
    + rewrite (lookup_total_correct _ _ _ HA) in Hj. cbn in Hj.
      assert (j = 0 \/ j = 1) as [-> | ->] by (clear - Hj; lia).
      * assert (E : BitMap.at_ (SourceObjList._ptrmap (src_objs Scenario.shallow_copied false))
                      0 = false) by (vm_compute; reflexivity).
        congruence.
      * vm_compute. eexists. reflexivity.
    + rewrite (lookup_total_correct _ _ _ HB) in Hj. cbn in Hj.
      assert (j = 2) as -> by (clear - Hj; lia).
      vm_compute. eexists. reflexivity.
  - rewrite Hrun. reflexivity.
Defined.
